(** * Weekly deals analyzer: a shallow embedding of [deal_analyzer_enhanced.py]

    The development follows the Python module top-down: text helpers,
    Python scalar values, the configuration holder, the deal records, the
    unit normaliser, the exclusion filter, the priority detector, the seven
    scoring components, deduplication and the category-balanced top-N
    selection, then the text helpers of the HTML email.  A second part
    models dictionaries and lists as objects in a store, to reason about
    which objects [analyze_deals] writes to.

    Conventions of the embedding.
    - Text is a [string] of bytes; [lower], [upper] and [strip] act on the
      ASCII range, and word characters of the regular expressions are the
      ASCII letters, digits and the underscore.
    - Python [int] is [Z].  Python [float] is an exact rational [Q]: the
      binary64 rounding of each operation, NaN and the infinities are not
      represented (the [+inf] of the tie-break key is [None]).
    - A [dict] whose keys are fixed by the [TypedDict] declarations is a
      record; a field that the code inspects with [isinstance] holds a
      [pyval].  A raised exception is [None] of an [option]. *)

From Stdlib Require Import ZArith QArith Qround Qabs Lia Bool Ascii.
From Stdlib Require Import Permutation Sorted.
From Stdlib Require String DecimalString.
From stdpp Require Import gmap strings.

Local Open Scope Z_scope.

(** ** Text helpers *)

Module Text.

Definition code (c : ascii) : nat := nat_of_ascii c.

Definition is_upper (c : ascii) : bool := ((65 <=? code c) && (code c <=? 90))%nat.
Definition is_lower (c : ascii) : bool := ((97 <=? code c) && (code c <=? 122))%nat.
Definition is_digit (c : ascii) : bool := ((48 <=? code c) && (code c <=? 57))%nat.

(** [\w] of the [re] module, on the ASCII range. *)
Definition is_word (c : ascii) : bool :=
  is_upper c || is_lower c || is_digit c || (code c =? 95)%nat.

(** [str.isspace], on the ASCII range. *)
Definition is_space (c : ascii) : bool :=
  ((9 <=? code c) && (code c <=? 13) || (28 <=? code c) && (code c <=? 32))%nat.

Definition lower_char (c : ascii) : ascii :=
  if is_upper c then ascii_of_nat (code c + 32) else c.
Definition upper_char (c : ascii) : ascii :=
  if is_lower c then ascii_of_nat (code c - 32) else c.

Fixpoint map_chars (f : ascii -> ascii) (s : string) : string :=
  match s with
  | EmptyString => EmptyString
  | String c s' => String (f c) (map_chars f s')
  end.

(** [s.lower()] and [s.upper()]. *)
Definition lower : string -> string := map_chars lower_char.
Definition upper : string -> string := map_chars upper_char.

Fixpoint lstrip (s : string) : string :=
  match s with
  | EmptyString => EmptyString
  | String c s' => if is_space c then lstrip s' else s
  end.

Fixpoint rstrip (s : string) : string :=
  match s with
  | EmptyString => EmptyString
  | String c s' =>
      match rstrip s' with
      | EmptyString => if is_space c then EmptyString else String c EmptyString
      | r => String c r
      end
  end.

(** [s.strip()]. *)
Definition strip (s : string) : string := rstrip (lstrip s).

(** [s.startswith(p)]. *)
Definition startswith (p s : string) : bool := String.prefix p s.

(** [needle in s]. *)
Fixpoint contains (needle s : string) : bool :=
  startswith needle s ||
  match s with
  | EmptyString => false
  | String _ s' => contains needle s'
  end.

(** [s.endswith(suffix)]. *)
Fixpoint endswith (suffix s : string) : bool :=
  String.eqb s suffix ||
  match s with
  | EmptyString => false
  | String _ s' => endswith suffix s'
  end.

(** [s.replace(" ", "")]. *)
Fixpoint remove_spaces (s : string) : string :=
  match s with
  | EmptyString => EmptyString
  | String c s' =>
      if (code c =? 32)%nat then remove_spaces s' else String c (remove_spaces s')
  end.

(** [x in {a, b, ...}] and [x in [a, b, ...]] for text. *)
Definition mem (x : string) (l : list string) : bool :=
  existsb (String.eqb x) l.

(** [any(k in s for k in keywords)]. *)
Definition any_in (keywords : list string) (s : string) : bool :=
  existsb (fun k => contains k s) keywords.

(** Leading run of decimal digits and what follows it. *)
Fixpoint span_digits (s : string) : list nat * string :=
  match s with
  | EmptyString => ([], EmptyString)
  | String c s' =>
      if is_digit c
      then let '(ds, r) := span_digits s' in ((code c - 48)%nat :: ds, r)
      else ([], s)
  end.

Definition digits_value (ds : list nat) : Z :=
  fold_left (fun acc d => 10 * acc + Z.of_nat d) ds 0.

(** Value of the decimal numeral [ip.fp]. *)
Definition decimal_value (ip fp : list nat) : Q :=
  (inject_Z (digits_value ip)
   + (digits_value fp # Z.to_pos (10 ^ Z.of_nat (length fp))))%Q.

(** [_RE_NUM.match(s)] for [_RE_NUM = (\d+(?:\.\d+)?)]: the number read by
    [float(m.group(1))] and the text after [m.end()]. *)
Definition re_num_match (s : string) : option (Q * string) :=
  match span_digits s with
  | ([], _) => None
  | (ip, rest) =>
      match rest with
      | String "."%char rest' =>
          match span_digits rest' with
          | ([], _) => Some (inject_Z (digits_value ip), rest)
          | (fp, rest'') => Some (decimal_value ip fp, rest'')
          end
      | _ => Some (inject_Z (digits_value ip), rest)
      end
  end.

(** [_RE_NUM.search(s)]: the leftmost match. *)
Fixpoint re_num_search (s : string) : option Q :=
  match re_num_match s with
  | Some (q, _) => Some q
  | None =>
      match s with
      | EmptyString => None
      | String _ s' => re_num_search s'
      end
  end.

(** [re.compile(rf"(?<!\w){re.escape(phrase)}(?!\w)").search(s)]: the phrase
    occurs in [s] with no word character just before or just after it.
    [prev] is the character before the current position. *)
Fixpoint phrase_search_from (prev : option ascii) (phrase s : string) : bool :=
  (match prev with Some c => negb (is_word c) | None => true end
   && startswith phrase s
   && match String.get (String.length phrase) s with
      | Some c => negb (is_word c)
      | None => true
      end)
  || match s with
     | EmptyString => false
     | String c s' => phrase_search_from (Some c) phrase s'
     end.

Definition phrase_search (phrase s : string) : bool :=
  phrase_search_from None phrase s.

(** Decimal numeral of an integer, as [str(n)] prints it. *)
Definition of_Z (z : Z) : string :=
  DecimalString.NilZero.string_of_int (Z.to_int z).

End Text.

(** ** Python scalar values *)

Module Py.

(** The values a JSON-decoded field can hold (containers apart). *)
Inductive pyval : Type :=
  | VNone
  | VBool (b : bool)
  | VInt (z : Z)
  | VFloat (q : Q)
  | VStr (s : string).

(** [isinstance(v, (int, float))]; [bool] is a subclass of [int]. *)
Definition is_number (v : pyval) : bool :=
  match v with
  | VBool _ | VInt _ | VFloat _ => true
  | VNone | VStr _ => false
  end.

(** [float(v)] for a [v] that passed [is_number]. *)
Definition num (v : pyval) : Q :=
  match v with
  | VBool b => if b then 1%Q else 0%Q
  | VInt z => inject_Z z
  | VFloat q => q
  | VNone | VStr _ => 0%Q
  end.

(** Truth value of [v], as [if v], [v or d] and [not v] take it. *)
Definition truthy (v : pyval) : bool :=
  match v with
  | VNone => false
  | VBool b => b
  | VInt z => negb (z =? 0)
  | VFloat q => negb (Qeq_bool q 0)
  | VStr s => negb (String.eqb s "")
  end.

(** [int(x)] of a float: truncation towards zero. *)
Definition trunc (q : Q) : Z := Z.quot (Qnum q) (Zpos (Qden q)).

(** [round(x)] of a float: to the nearest integer, ties to the even one. *)
Definition round_half_even (q : Q) : Z :=
  let f := Qfloor q in
  match Qcompare (q - inject_Z f) (1 # 2) with
  | Lt => f
  | Gt => f + 1
  | Eq => if Z.even f then f else f + 1
  end.

(** [min(a, b)] and [max(a, b)] of Python return [a] unless [b] is strictly
    smaller (resp. larger). *)
Definition py_min (a b : Q) : Q := if Qlt_le_dec b a then b else a.
Definition py_max (a b : Q) : Q := if Qlt_le_dec a b then b else a.

Definition Qleb (a b : Q) : bool := Qle_bool a b.
Definition Qltb (a b : Q) : bool := negb (Qle_bool b a).

(** An unsigned decimal numeral: [12], [12.5], [12.] or [.5]. *)
Definition parse_unsigned (s : string) : option Q :=
  match Text.span_digits s with
  | (ip, EmptyString) =>
      match ip with [] => None | _ => Some (inject_Z (Text.digits_value ip)) end
  | (ip, String "."%char r) =>
      match Text.span_digits r with
      | (fp, EmptyString) =>
          match ip, fp with
          | [], [] => None
          | _, _ => Some (Text.decimal_value ip fp)
          end
      | _ => None
      end
  | _ => None
  end.

(** [float(s)] of a text: surrounding blanks and a sign are accepted around
    a decimal numeral; [None] is the [ValueError].  Exponents, [inf], [nan]
    and digit-group underscores are not covered. *)
Definition float_of_text (s : string) : option Q :=
  match Text.strip s with
  | String "-"%char r => option_map Qopp (parse_unsigned r)
  | String "+"%char r => parse_unsigned r
  | t => parse_unsigned t
  end.

Definition parse_digits (s : string) : option Z :=
  match Text.span_digits s with
  | (d :: ds, EmptyString) => Some (Text.digits_value (d :: ds))
  | _ => None
  end.

(** [int(s)] of a text. *)
Definition int_of_text (s : string) : option Z :=
  match Text.strip s with
  | String "-"%char r => option_map Z.opp (parse_digits r)
  | String "+"%char r => parse_digits r
  | t => parse_digits t
  end.

(** [float(v)]; [None] when Python raises. *)
Definition py_float (v : pyval) : option Q :=
  match v with
  | VNone => None
  | VStr s => float_of_text s
  | _ => Some (num v)
  end.

(** [int(v)]; [None] when Python raises. *)
Definition py_int (v : pyval) : option Z :=
  match v with
  | VNone => None
  | VBool b => Some (if b then 1 else 0)
  | VInt z => Some z
  | VFloat q => Some (trunc q)
  | VStr s => int_of_text s
  end.

(** Digits of [n] on exactly [k] places, zero padded. *)
Fixpoint pad_digits (k : nat) (n : Z) : string :=
  match k with
  | O => EmptyString
  | S k' => (pad_digits k' (n / 10) +:+ Text.of_Z (n mod 10))%string
  end.

(** [f"{x:.2f}"]: two decimals, ties to even on the exact value. *)
Definition format_2f (q : Q) : string :=
  let n := round_half_even (Qabs q * 100) in
  ((if Qltb q 0 then "-" else "") +:+ Text.of_Z (n / 100) +:+ "." +:+ pad_digits 2 (n mod 100)).

(** Least [k] in [1 .. 1 + fuel] with [10^k * q] an integer. *)
Fixpoint decimal_places (fuel : nat) (k : nat) (q : Q) : option nat :=
  if (Qnum q * 10 ^ Z.of_nat k) mod Zpos (Qden q) =? 0 then Some k
  else match fuel with
       | O => None
       | S fuel' => decimal_places fuel' (S k) q
       end.

(** [str(x)] of a float with a finite decimal expansion ([5.0], [4.99]);
    another rational prints as a fraction, which keeps [str] injective on
    the values of the model.  The exponent form of very large or small
    floats is not covered. *)
Definition str_float (q : Q) : string :=
  let a := Qabs (Qred q) in
  ((if Qltb q 0 then "-" else "") +:+
   match decimal_places (Pos.to_nat (Pos.size (Qden a))) 1 a with
   | Some k =>
       let n := Qnum a * 10 ^ Z.of_nat k / Zpos (Qden a) in
       Text.of_Z (n / 10 ^ Z.of_nat k) +:+ "." +:+ pad_digits k (n mod 10 ^ Z.of_nat k)
   | None => Text.of_Z (Qnum a) +:+ "/" +:+ Text.of_Z (Zpos (Qden a))
   end).

(** [str(v)]. *)
Definition py_str (v : pyval) : string :=
  match v with
  | VNone => "None"
  | VBool b => if b then "True" else "False"
  | VInt z => Text.of_Z z
  | VFloat q => str_float q
  | VStr s => s
  end.

(** [a == b], as set membership decides it. *)
Definition py_eq (a b : pyval) : bool :=
  match a, b with
  | VNone, VNone => true
  | VStr s, VStr t => String.eqb s t
  | _, _ => is_number a && is_number b && Qeq_bool (num a) (num b)
  end.

End Py.

Import Py.

(** ** Configuration *)

(** One entry of [DealAnalyzerConfig.priority_deals]. *)
Module Rule.
Record t : Type := mk {
  keywords : list string;
  exclude_keywords : list string;
  max_price_per_lb : Q;
  category : list string;
  bonus_score : Z
}.
End Rule.

(** The configuration holder.  [priority_deals] keeps the insertion order of
    the Python dictionary; the keyword sets are lists, since the code only
    asks whether some member occurs in a text. *)
Record DealAnalyzerConfig : Type := {
  store_brands : list string;
  excluded_categories : list string;
  supplement_keywords : list string;
  excluded_products : list string;
  priority_deals : list (string * Rule.t);
  premium_keywords : list string;
  viral_keywords : list string;
  major_brands : list string;
  category_weights : gmap string Z;
  dedupe : bool;
  balance_categories : bool
}.

Definition default_store_brands : list string :=
  [ "Amazon Grocery"; "Amazon Kitchen"; "Amazon Fresh";
    "365 Brand"; "365 by Whole Foods"; "365 Everyday Value";
    "Kirkland"; "Great Value"; "Market Pantry"; "Simple Truth";
    "O Organics"; "Kroger"; "Target"; "Safeway SELECT";
    "First Street";
    "H-E-B"; "Hill Country Fare"; "Central Market"; "Higher Harvest";
    "HEB";
    "Sprouts"; "Real Root by Sprouts"; "Sprouts Farmers Market";
    "Albertsons"; "Vons"; "Pavilions"; "Ralphs"; "Food Lion" ].

Definition default_excluded_categories : list string :=
  [ "Beer, Wine & Spirits"; "ALCOHOL"; "BEVERAGES_ALCOHOL" ].

Definition default_supplement_keywords : list string :=
  [ "supplement"; "vitamin"; "pill"; "capsule";
    "tablet"; "probiotic"; "greens powder"; "protein powder";
    "multivitamin"; "omega-3"; "turmeric"; "ashwagandha";
    "collagen"; "magnesium"; "zinc"; "elderberry" ].

Definition default_excluded_products : list string :=
  [ "hot dog"; "hotdog"; "hot dogs"; "hotdogs"; "franks"; "wiener"; "wieners" ].

Definition meat_categories : list string := [ "MEAT"; "Meat"; "Meat & Seafood" ].

Definition default_priority_deals : list (string * Rule.t) :=
  [ ("chicken_breast",
     Rule.mk [ "chicken breast"; "chicken thigh"; "chicken thighs" ]
             [ "boneless skinless chicken breast meal"; "rotisserie" ]
             3 meat_categories 30);
    ("steak",
     Rule.mk [ "steak"; "ribeye"; "sirloin"; "ny strip"; "t-bone";
               "porterhouse"; "flank"; "skirt"; "filet" ]
             [ "salisbury"; "patties"; "burger" ]
             10 meat_categories 25);
    ("ground_beef",
     Rule.mk [ "ground beef"; "ground chuck"; "hamburger" ]
             [ "patties"; "burger patty"; "ground turkey" ]
             6 meat_categories 20) ].

Definition default_premium_keywords : list string :=
  [ "ribeye"; "prime rib"; "flank steak"; "sirloin"; "filet mignon";
    "ny strip"; "porterhouse"; "wagyu"; "angus"; "grass-fed";
    "organic chicken"; "air-chilled"; "heritage pork";
    "salmon"; "atlantic salmon"; "king salmon"; "sockeye";
    "shrimp"; "jumbo shrimp"; "scallops"; "crab"; "lobster";
    "halibut"; "sea bass"; "ahi tuna"; "swordfish";
    "honeycrisp"; "cotton candy grape"; "dekopon"; "sumo citrus";
    "organic"; "heirloom"; "persimmon"; "dragon fruit";
    "artisan"; "specialty mushroom"; "truffle" ].

Definition default_viral_keywords : list string :=
  [ "cotton candy"; "party pack"; "family size"; "jumbo"; "giant";
    "mega"; "ultimate"; "variety pack"; "assorted"; "party size";
    "super bowl"; "game day"; "tailgate"; "celebration";
    "viral"; "tiktok"; "trending" ].

Definition default_major_brands : list string :=
  [ "doritos"; "lays"; "cheetos"; "fritos"; "ruffles"; "tostitos";
    "pringles"; "kettle"; "popchips"; "smartfood"; "pirates booty";
    "coca-cola"; "coke"; "pepsi"; "sprite"; "mountain dew";
    "dr pepper"; "7up"; "canada dry"; "schweppes"; "crush";
    "capri sun"; "gatorade"; "powerade"; "vitamin water";
    "hershey"; "reese's"; "kit kat"; "m&m"; "snickers"; "twix";
    "milky way"; "skittles"; "starburst"; "sour patch"; "haribo";
    "ben & jerry"; "breyer"; "haagen-dazs"; "talenti"; "outshine";
    "drumstick"; "klondike"; "good humor"; "magnum";
    "dannon"; "chobani"; "yoplait"; "fage"; "siggi"; "oikos";
    "tillamook"; "kerrygold"; "organic valley"; "horizon";
    "tyson"; "perdue"; "foster farms"; "applegate"; "hormel";
    "oscar mayer"; "hillshire farm"; "jimmy dean"; "butterball";
    "kraft"; "philadelphia"; "velveeta"; "barilla"; "prego";
    "ragu"; "newman's own"; "rao's"; "classico"; "bertolli";
    "general mills"; "kellogg"; "quaker"; "post"; "nabisco";
    "oreo"; "chips ahoy"; "ritz"; "triscuit"; "wheat thins";
    "dave's killer bread"; "artesano"; "bimbo";
    "annie's"; "stonyfield"; "nature's path"; "kashi";
    "amy's"; "dr praeger"; "gardein"; "beyond meat" ].

Definition default_category_weights_table : list (string * Z) :=
  [ ("MEAT", 25); ("Meat", 25); ("Meat & Seafood", 25);
    ("SEAFOOD", 25); ("Seafood", 25); ("DELI", 20); ("Deli", 20);
    ("PRODUCE", 25); ("Produce", 25); ("Fresh Produce", 25);
    ("Organic Produce", 25);
    ("SNACKS", 20); ("Snacks", 20); ("BEVERAGES", 20); ("Beverages", 20);
    ("Drinks", 20);
    ("FROZEN", 15); ("Frozen", 15); ("Frozen Foods", 15); ("Ice Cream", 18);
    ("PREPARED_FOODS", 15); ("Prepared Foods", 15); ("Ready to Eat", 15);
    ("DAIRY_EGGS", 12); ("Dairy", 12); ("Dairy & Eggs", 12);
    ("BAKERY", 12); ("Bakery", 12); ("Commercial Bakery", 10);
    ("Fresh Bakery", 12);
    ("PANTRY", 10); ("Pantry", 10); ("Grocery", 10); ("Canned Goods", 8);
    ("HOUSEHOLD", 5); ("Household", 5); ("Cleaning", 5); ("Paper Products", 5);
    ("HEALTH_BEAUTY", 5); ("Health & Beauty", 5); ("Personal Care", 5);
    ("PET", 5); ("Pet", 5); ("Pet Supplies", 5) ].

(** [DealAnalyzerConfig()] with every default factory. *)
Definition default_config : DealAnalyzerConfig := {|
  store_brands := default_store_brands;
  excluded_categories := default_excluded_categories;
  supplement_keywords := default_supplement_keywords;
  excluded_products := default_excluded_products;
  priority_deals := default_priority_deals;
  premium_keywords := default_premium_keywords;
  viral_keywords := default_viral_keywords;
  major_brands := default_major_brands;
  category_weights := list_to_map default_category_weights_table;
  dedupe := true;
  balance_categories := true
|}.

(** The analyzer instance: [self.retailer_filter] and [self.config]. *)
Record DealAnalyzer : Type := {
  retailer_filter : option string;
  config : DealAnalyzerConfig
}.

(** [self._store_brand_patterns], built by [__init__]: one pattern per
    store brand whose stripped text is not empty.  The patterns are
    case-insensitive and only ever searched in lowercased text, so each is
    kept as its lowercased phrase. *)
Definition _store_brand_patterns (self : DealAnalyzer) : list string :=
  map Text.lower
    (List.filter (fun b => negb (String.eqb b ""))
       (map Text.strip (store_brands (config self)))).

(** ** Deal records *)

(** [price["multibuy_details"]]. *)
Module Multibuy.
Record t : Type := mk {
  per_unit_cost : pyval;
  quantity_required : pyval;
  total_cost : pyval;
  format : pyval
}.
End Multibuy.

(** [PriceDict].  An absent key and a key bound to [None] read the same
    through [dict.get], and both are [VNone] or [None] here. *)
Module Price.
Record t : Type := mk {
  amount : pyval;
  unit : option string;
  display : option string;
  is_multibuy : pyval;
  multibuy_details : option Multibuy.t;
  original_price : pyval;
  savings_amount : pyval;
  savings_percent : pyval
}.

(** The empty dictionary of [deal.get("price") or {}]. *)
Definition empty : t := mk VNone None None VNone None VNone VNone VNone.
End Price.

(** [DealDict], with the keys the analyzer reads, and the four keys the
    multibuy override adds to its copy.  The remaining declared keys
    ([conditions], [promotion_type], ...) are never read. *)
Module Deal.
Record t : Type := mk {
  deal_id : pyval;
  page : pyval;
  retailer : option string;
  product_name : option string;
  brand : option string;
  category : option string;
  price : option Price.t;
  size_quantity : option string;
  container_type : option string;
  special_notes : option string;
  quantity_required : pyval;
  format : pyval;
  multibuy_total_cost : pyval;
  multibuy_format : pyval
}.
End Deal.

(** [x or ""] for an optional text. *)
Definition or_empty (x : option string) : string := default "" x.

(** [deal.get("price") or {}]. *)
Definition price_of (deal : Deal.t) : Price.t := default Price.empty (Deal.price deal).

Definition opt_float (o : option Q) : pyval :=
  match o with Some q => VFloat q | None => VNone end.
Definition opt_str (o : option string) : pyval :=
  match o with Some s => VStr s | None => VNone end.

(** ** Multibuy override *)

(** [_extract_multibuy_details]: (per_unit_cost, quantity_required,
    total_cost, format_str); each coercion that raises leaves [None]. *)
Definition _extract_multibuy_details (deal : Deal.t)
  : option Q * option Z * option Q * option string :=
  let price := price_of deal in
  if negb (truthy (Price.is_multibuy price)) then (None, None, None, None)
  else
    match Price.multibuy_details price with
    | None => (None, None, None, None)
    | Some details =>
        let per_unit_f := py_float (Multibuy.per_unit_cost details) in
        let qty_i := py_int (Multibuy.quantity_required details) in
        let total_f := py_float (Multibuy.total_cost details) in
        let fmt_s :=
          match Multibuy.format details with
          | VNone => None
          | fmt => Some (py_str fmt)
          end in
        (per_unit_f, qty_i, total_f, fmt_s)
    end.

(** [_apply_multibuy_overrides]: the deal itself when the per-unit cost or
    the required quantity is missing, else a copy with the per-unit price. *)
Definition _apply_multibuy_overrides (deal : Deal.t) : Deal.t :=
  match _extract_multibuy_details deal with
  | (Some per_unit, Some qty_req, total, fmt) =>
      let price := price_of deal in
      let unit := match Price.unit price with
                  | Some u => if String.eqb u "" then "ea" else u
                  | None => "ea"
                  end in
      let unit_disp := if Text.mem (Text.lower unit) ["ea"; "each"] then "ea" else unit in
      let price' :=
        Price.mk (VFloat per_unit) (Price.unit price)
                 (Some ("$" +:+ format_2f per_unit +:+ " " +:+ unit_disp))
                 (Price.is_multibuy price) (Price.multibuy_details price)
                 (Price.original_price price) (Price.savings_amount price)
                 (Price.savings_percent price) in
      let fmt_truthy := match fmt with Some s => negb (String.eqb s "") | None => false end in
      Deal.mk (Deal.deal_id deal) (Deal.page deal) (Deal.retailer deal)
              (Deal.product_name deal) (Deal.brand deal) (Deal.category deal)
              (Some price')
              (Deal.size_quantity deal) (Deal.container_type deal)
              (Deal.special_notes deal)
              (VInt qty_req)
              (if fmt_truthy && negb (truthy (Deal.format deal))
               then opt_str fmt else Deal.format deal)
              (opt_float total)
              (opt_str fmt)
  | _ => deal
  end.

(** ** Unit normalisation *)

Definition _parse_display_unit (display : string) : option string :=
  let d := Text.lower display in
  if Text.contains "per lb" d || Text.contains "/lb" d then Some "lb"
  else if Text.contains "per pound" d then Some "lb"
  else if Text.contains "per oz" d || Text.contains "/oz" d then Some "oz"
  else if Text.contains "per fl oz" d || Text.contains "per floz" d
          || Text.contains "/fl oz" d then Some "floz"
  else if Text.contains "each" d && Text.contains "per" d then Some "each"
  else None.

(** [normalize_unit]: (kind, quantity in that kind, canonical kind). *)
Definition normalize_unit (unit display : option string)
  : string * option Q * string :=
  let u := Text.lower (Text.strip (or_empty unit)) in
  let u :=
    if String.eqb u "" && negb (String.eqb (or_empty display) "")
    then match _parse_display_unit (or_empty display) with
         | Some inferred => inferred
         | None => u
         end
    else u in
  if String.eqb u "" then ("unknown", None, "unknown")
  else if Text.mem u ["lb"; "lbs"; "pound"; "pounds"] then ("lb", Some 1%Q, "lb")
  else
    let numeric :=
      match Text.re_num_match u with
      | Some (num, rest) =>
          let tail := Text.remove_spaces (Text.strip rest) in
          if Text.mem tail ["lb"; "lbs"; "pound"; "pounds"] then Some ("lb", Some num, "lb")
          else if Text.mem tail ["oz"] then Some ("oz", Some num, "lb")
          else if Text.mem tail ["floz"; "fl.oz"; "fl-oz"; "fl oz"]
               then Some ("floz", Some num, "floz")
          else if Text.mem tail ["count"; "ct"] then Some ("count", Some num, "count")
          else None
      | None => None
      end in
    match numeric with
    | Some r => r
    | None =>
        if Text.contains "floz" u || Text.contains "fl oz" u
        then ("floz", Text.re_num_search u, "floz")
        else if Text.contains "count" u || Text.mem u ["ct"]
        then ("count", Text.re_num_search u, "count")
        else if Text.mem u ["each"; "ea"] then ("each", Some 1%Q, "each")
        else if Text.mem u ["pack"; "bag"; "pkg"] then ("each", Some 1%Q, "each")
        else ("unknown", None, "unknown")
    end.

(** [qty and qty > 0]. *)
Definition qty_positive (qty : option Q) : bool :=
  match qty with
  | Some q => negb (Qeq_bool q 0) && Qltb 0 q
  | None => false
  end.

(** [qty is None or qty == 0]. *)
Definition qty_missing (qty : option Q) : bool :=
  match qty with
  | Some q => Qeq_bool q 0
  | None => true
  end.

Definition unresolved : option Q * option string * option string := (None, None, None).

(** The statements of [compute_unit_price] after its first line, on the
    overridden deal.  The [math.isnan] guard has no counterpart on
    rationals. *)
Definition unit_price_of (deal : Deal.t)
  : option Q * option string * option string :=
  let price := price_of deal in
  let amount := Price.amount price in
  if negb (is_number amount) then unresolved
  else
    let amount := num amount in
    let '(kind, qty, canonical) := normalize_unit (Price.unit price) (Price.display price) in
    let q := default 0%Q qty in
    if String.eqb canonical "lb" && String.eqb kind "lb" && qty_positive qty
    then let up := (amount / q)%Q in
         (Some up, Some "lb", Some ("$" +:+ format_2f up +:+ "/lb"))
    else if String.eqb canonical "lb" && String.eqb kind "oz" && qty_positive qty
    then let up := (amount / (q / 16))%Q in
         (Some up, Some "lb", Some ("$" +:+ format_2f up +:+ "/lb"))
    else if String.eqb canonical "lb" && String.eqb kind "lb" && qty_missing qty
    then (Some amount, Some "lb", Some ("$" +:+ format_2f amount +:+ "/lb"))
    else if String.eqb canonical "floz"
    then if qty_positive qty
         then let up := (amount / q)%Q in
              (Some up, Some "fl oz", Some ("$" +:+ format_2f up +:+ "/fl oz"))
         else unresolved
    else if Text.mem canonical ["each"; "count"]
    then if qty_positive qty
         then let up := (amount / q)%Q in
              let unit_label := if String.eqb canonical "each" then "each" else "count" in
              (Some up, Some unit_label,
               Some (if String.eqb unit_label "each"
                     then "$" +:+ format_2f up +:+ " ea"
                     else "$" +:+ format_2f up +:+ "/" +:+ unit_label))
         else if String.eqb canonical "each"
         then (Some amount, Some "each", Some ("$" +:+ format_2f amount +:+ " ea"))
         else unresolved
    else unresolved.

(** [compute_unit_price]: (unit_price_amount, unit_price_unit,
    unit_price_display). *)
Definition compute_unit_price (deal : Deal.t)
  : option Q * option string * option string :=
  let deal := _apply_multibuy_overrides deal in
  unit_price_of deal.

(** ** Exclusion logic and reasons *)

Section Analyzer.

Variable self : DealAnalyzer.

(** [any(token in cat_u for token in tokens)]. *)
Definition any_token (tokens : list string) (cat_u : string) : bool :=
  Text.any_in tokens cat_u.

(** [get_exclusion_reason]: the reason text when the deal is excluded. *)
Definition get_exclusion_reason (deal : Deal.t) : option string :=
  let price_amount := Price.amount (price_of deal) in
  if negb (is_number price_amount) then Some "missing_price_amount"
  else if is_number price_amount && Qltb (num price_amount) 0
  then Some "invalid_negative_price"
  else
    let category := or_empty (Deal.category deal) in
    let cat_u := Text.upper category in
    if Text.mem category (excluded_categories (config self))
    then Some "excluded_category_alcohol"
    else if any_token ["ALCOHOL"; "BEER"; "WINE"; "SPIRITS"] cat_u
    then Some "excluded_category_alcohol"
    else if (Text.contains "HEALTH" cat_u || Text.contains "BEAUTY" cat_u)
            && Text.any_in (supplement_keywords (config self))
                 (Text.lower (or_empty (Deal.product_name deal)))
    then Some "excluded_supplement"
    else
      let product_name := or_empty (Deal.product_name deal) in
      let brand := or_empty (Deal.brand deal) in
      let combined_l := Text.lower (product_name +:+ " " +:+ brand) in
      let brand_l := Text.strip (Text.lower brand) in
      if existsb (fun b => negb (String.eqb brand_l "")
                           && String.eqb brand_l (Text.lower b))
           (store_brands (config self))
      then Some "excluded_store_brand"
      else if existsb (fun pat => Text.phrase_search pat combined_l)
                (_store_brand_patterns self)
      then Some "excluded_store_brand"
      else
        let product_lower := Text.lower product_name in
        if Text.any_in (excluded_products (config self)) product_lower
           && any_token ["MEAT"; "DELI"; "SEAFOOD"] cat_u
        then Some "excluded_product_keyword"
        else
          match retailer_filter self with
          | Some f =>
              if negb (String.eqb f "")
                 && negb (match Deal.retailer deal with
                          | Some r => String.eqb r f
                          | None => false
                          end)
              then Some "filtered_out_by_retailer"
              else None
          | None => None
          end.

Definition should_exclude (deal : Deal.t) : bool :=
  match get_exclusion_reason deal with Some _ => true | None => false end.

(** ** Priority deals *)

(** One pass of the rule loop of [is_priority_deal]: none of the four
    [continue] guards fires. *)
Definition rule_admits (category : string) (unit_price_amount : Q)
    (product_name : string) (criteria : Rule.t) : bool :=
  Text.mem category (Rule.category criteria)
  && negb (Qltb (Rule.max_price_per_lb criteria) unit_price_amount)
  && Text.any_in (Rule.keywords criteria) product_name
  && negb (Text.any_in (Rule.exclude_keywords criteria) product_name).

(** [is_priority_deal]. *)
Definition is_priority_deal (deal : Deal.t) : bool :=
  let product_name := Text.lower (or_empty (Deal.product_name deal)) in
  let category := or_empty (Deal.category deal) in
  match compute_unit_price deal with
  | (Some unit_price_amount, Some unit_price_unit, _) =>
      if negb (String.eqb unit_price_unit "lb") then false
      else existsb (fun entry => rule_admits category unit_price_amount
                                   product_name (snd entry))
             (priority_deals (config self))
  | _ => false
  end.

(** [get_priority_bonus]. *)
Definition get_priority_bonus (deal : Deal.t) : Z :=
  if negb (is_priority_deal deal) then 0
  else
    let product_name := Text.lower (or_empty (Deal.product_name deal)) in
    match
      find (fun entry =>
              let criteria := snd entry in
              let has_keyword := Text.any_in (Rule.keywords criteria) product_name in
              let has_exclusion :=
                Text.any_in (Rule.exclude_keywords criteria) product_name in
              has_keyword && negb has_exclusion)
        (priority_deals (config self))
    with
    | Some entry => Rule.bonus_score (snd entry)
    | None => 0
    end.

(** ** Scoring components *)

(** [_effective_price_for_scoring]; [None] when [float(amount)] raises. *)
Definition _effective_price_for_scoring (deal : Deal.t) : option Q :=
  let deal_eff := _apply_multibuy_overrides deal in
  let amount := Price.amount (price_of deal_eff) in
  match (if truthy amount then py_float amount else Some 0%Q) with
  | None => None
  | Some price_amount =>
      match compute_unit_price deal_eff with
      | (Some up, Some _, _) => Some up
      | _ => Some price_amount
      end
  end.

(** The price band of the viral score. *)
Definition price_band_points (price_eff : Q) : Z :=
  if Qltb price_eff 1 then 30
  else if Qleb price_eff (299 # 100) then 20
  else if Qleb price_eff (499 # 100) then 10
  else 0.

Definition round_number_endings : list string :=
  ["0.99"; "1.99"; "2.49"; "2.99"; "4.99"; "9.99"].

(** The round-number bonus, on the amount of the deal as passed. *)
Definition round_number_points (deal : Deal.t) : Z :=
  let raw_amount := Price.amount (price_of deal) in
  if is_number raw_amount
  then let price_str := format_2f (num raw_amount) in
       if existsb (fun ending => Text.endswith ending price_str) round_number_endings
       then 8 else 0
  else 0.

Definition multibuy_points (deal : Deal.t) : Z :=
  if truthy (Price.is_multibuy (price_of deal)) then 15 else 0.

Definition savings_points (deal : Deal.t) : Z :=
  let savings_pct := Price.savings_percent (price_of deal) in
  if is_number savings_pct
  then if Qleb 50 (num savings_pct) then 12
       else if Qleb 30 (num savings_pct) then 8 else 0
  else 0.

(** [calculate_viral_pricing_score]. *)
Definition calculate_viral_pricing_score (deal : Deal.t) : option Z :=
  match _effective_price_for_scoring deal with
  | None => None
  | Some price_eff =>
      let score := 0 in
      let score := score + price_band_points price_eff in
      let score := score + round_number_points deal in
      let score := score + multibuy_points deal in
      let score := score + savings_points deal in
      Some (Z.min score 30)
  end.

(** [int(min(20, max(0, (pct - 5) * (20 / 55))))]. *)
Definition depth_of_percent (pct : Q) : Z :=
  trunc (py_min 20 (py_max 0 ((pct - 5) * (20 / 55)))).

(** [calculate_discount_depth]. *)
Definition calculate_discount_depth (deal : Deal.t) : Z :=
  let price := price_of deal in
  let savings_pct := Price.savings_percent price in
  let orig := Price.original_price price in
  let amt := Price.amount price in
  if is_number savings_pct then depth_of_percent (num savings_pct)
  else if is_number orig && is_number amt
          && Qltb 0 (num orig) && Qleb 0 (num amt)
  then let inferred_pct := ((num orig - num amt) / num orig * 100)%Q in
       depth_of_percent inferred_pct
  else 0.

(** [calculate_category_weight]. *)
Definition calculate_category_weight (deal : Deal.t) : Z :=
  let category := or_empty (Deal.category deal) in
  default 5 (category_weights (config self) !! category).

(** [calculate_premium_value]. *)
Definition calculate_premium_value (deal : Deal.t) : Z :=
  let product_name := Text.lower (or_empty (Deal.product_name deal)) in
  let special_notes := Text.lower (or_empty (Deal.special_notes deal)) in
  let brand := Text.lower (or_empty (Deal.brand deal)) in
  let combined := product_name +:+ " " +:+ special_notes +:+ " " +:+ brand in
  if Text.any_in (premium_keywords (config self)) combined then 25
  else if Text.any_in ["doritos"; "hershey"; "outshine"; "ben & jerry"; "reese's"] combined
  then 20
  else if Text.contains "organic" combined then 18
  else
    let savings_pct := Price.savings_percent (price_of deal) in
    if is_number savings_pct && Qleb 30 (num savings_pct) then 15
    else 5.

(** [calculate_social_appeal]. *)
Definition calculate_social_appeal (deal : Deal.t) : Z :=
  let product_name := Text.lower (or_empty (Deal.product_name deal)) in
  let special_notes := Text.lower (or_empty (Deal.special_notes deal)) in
  let combined := product_name +:+ " " +:+ special_notes in
  if Text.any_in (viral_keywords (config self)) combined then 20
  else if Text.any_in
            ["cotton candy"; "dekopon"; "sumo"; "dumpling"; "truffle";
             "artisan"; "heritage"; "heirloom"; "specialty"; "gourmet"] combined
  then 18
  else if Text.any_in
            ["chicken nugget"; "drumstick"; "popsicle"; "fruit bar";
             "cookie"; "mac and cheese"; "pizza"; "lunchable"] combined
  then 12
  else if Text.any_in ["entrée"; "meal"; "dinner"; "ready to eat"; "prepared"] combined
  then 10
  else if Text.any_in ["party"; "entertaining"; "celebration"; "game day"] combined
  then 15
  else 5.

(** [calculate_brand_recognition]. *)
Definition calculate_brand_recognition (deal : Deal.t) : Z :=
  let product_name := Text.lower (or_empty (Deal.product_name deal)) in
  let brand := Text.lower (or_empty (Deal.brand deal)) in
  let combined := product_name +:+ " " +:+ brand in
  if Text.any_in (major_brands (config self)) combined then 10
  else if Text.any_in ["boar's head"; "tillamook"; "kerrygold"; "dave's killer"] combined
  then 8
  else 5.

(** [calculate_total_score]; [None] when the viral component raises. *)
Definition calculate_total_score (deal : Deal.t) : option Z :=
  match calculate_viral_pricing_score deal with
  | None => None
  | Some viral =>
      let score := 0 in
      let score := score + viral in
      let score := score + calculate_discount_depth deal in
      let score := score + calculate_category_weight deal in
      let score := score + calculate_premium_value deal in
      let score := score + calculate_social_appeal deal in
      let score := score + calculate_brand_recognition deal in
      let score := score + get_priority_bonus deal in
      Some score
  end.

(** The three buckets of [categorize_deal]. *)
Inductive CategoryGroup : Type := MeatSeafood | Produce | SnacksOther.

Definition group_name (g : CategoryGroup) : string :=
  match g with
  | MeatSeafood => "Meat/Seafood"
  | Produce => "Produce"
  | SnacksOther => "Snacks/Other"
  end.

(** [categorize_deal]. *)
Definition categorize_deal (deal : Deal.t) : CategoryGroup :=
  let category := Text.upper (or_empty (Deal.category deal)) in
  if Text.contains "MEAT" category || Text.contains "SEAFOOD" category
     || Text.contains "DELI" category
  then MeatSeafood
  else if Text.contains "PRODUCE" category then Produce
  else SnacksOther.

End Analyzer.

#[global] Instance CategoryGroup_eq_dec : EqDecision CategoryGroup.
Proof. solve_decision. Defined.

(** ** Tie-break key *)

(** The tuple of [tie_break_key]; [None] stands for [float("inf")]. *)
Definition Key : Type := Z * Z * Q * option Q * option Q.

Definition compare_inf (a b : option Q) : comparison :=
  match a, b with
  | Some x, Some y => Qcompare x y
  | Some _, None => Lt
  | None, Some _ => Gt
  | None, None => Eq
  end.

Definition lex (c d : comparison) : comparison :=
  match c with Eq => d | _ => c end.

(** Tuple comparison: the first component that differs decides. *)
Definition key_compare (k1 k2 : Key) : comparison :=
  let '(s1, p1, v1, u1, a1) := k1 in
  let '(s2, p2, v2, u2, a2) := k2 in
  lex (Z.compare s1 s2)
    (lex (Z.compare p1 p2)
       (lex (Qcompare v1 v2)
          (lex (compare_inf u1 u2) (compare_inf a1 a2)))).

Definition key_lt (k1 k2 : Key) : bool :=
  match key_compare k1 k2 with Lt => true | _ => false end.
Definition key_gt (k1 k2 : Key) : bool :=
  match key_compare k1 k2 with Gt => true | _ => false end.
Definition key_le (k1 k2 : Key) : Prop := key_compare k1 k2 <> Gt.

Definition group_eqb (a b : CategoryGroup) : bool :=
  match a, b with
  | MeatSeafood, MeatSeafood | Produce, Produce | SnacksOther, SnacksOther => true
  | _, _ => false
  end.

(** [l[:n]], with Python's reading of a negative bound. *)
Definition py_take {A : Type} (n : Z) (l : list A) : list A :=
  if 0 <=? n then firstn (Z.to_nat n) l
  else firstn (length l - Z.to_nat (- n)) l.

Definition len {A : Type} (l : list A) : Z := Z.of_nat (length l).

(** ** Category-balanced selection

    The part of [analyze_deals] after the scoring loop, for any
    representation [A] of a scored deal that gives its tie-break key, its
    category group and its identifier. *)

Section Selection.

Context {A : Type}.
Variable tie_break_key : A -> Key.
Variable category_group_of : A -> CategoryGroup.
Variable deal_id_of : A -> pyval.

(** [x] goes in front of the first element whose key is not smaller. *)
Fixpoint insert_by_key (x : A) (l : list A) : list A :=
  match l with
  | [] => [x]
  | y :: l' =>
      if key_lt (tie_break_key y) (tie_break_key x)
      then y :: insert_by_key x l'
      else x :: y :: l'
  end.

(** [l.sort(key=tie_break_key)]: the stable sort by key. *)
Definition sort_by_key (l : list A) : list A := fold_right insert_by_key [] l.

Definition categories : list CategoryGroup := [MeatSeafood; Produce; SnacksOther].

(** [category_groups[c]] after the grouping loop. *)
Definition category_groups (scored_deals : list A) (c : CategoryGroup) : list A :=
  List.filter (fun d => group_eqb (category_group_of d) c) scored_deals.

(** The [allocations] and [available_counts] dictionaries, keyed by the
    three categories. *)
Definition Counts : Type := CategoryGroup -> Z.

Definition set_count (m : Counts) (c : CategoryGroup) (v : Z) : Counts :=
  fun c' => if group_eqb c c' then v else m c'.

(** [sum(m.values())]. *)
Definition sum_counts (m : Counts) : Z :=
  fold_right (fun c acc => m c + acc) 0 categories.

Section Allocation.

Variable groups : CategoryGroup -> list A.
Variable remaining_slots : Z.

Definition available_counts : Counts := fun c => len (groups c).

(** The proportional share, then the cap by the inventory. *)
Definition base_allocations (total_available : Z) : Counts :=
  fun c =>
    let share :=
      if available_counts c =? 0 then 0
      else round_half_even
             (inject_Z remaining_slots
              * (inject_Z (available_counts c) / inject_Z total_available)) in
    Z.min share (available_counts c).

(** One pass of the [for c in categories] loop that looks for the best
    next candidate. *)
Definition best_next_step (allocations : Counts)
    (best : option (CategoryGroup * A)) (c : CategoryGroup)
  : option (CategoryGroup * A) :=
  if allocations c <? available_counts c
  then match nth_error (groups c) (Z.to_nat (allocations c)) with
       | Some cand =>
           match best with
           | None => Some (c, cand)
           | Some (_, best_next) =>
               if key_lt (tie_break_key cand) (tie_break_key best_next)
               then Some (c, cand) else best
           end
       | None => best
       end
  else best.

Definition best_cat (allocations : Counts) : option CategoryGroup :=
  option_map fst (fold_left (best_next_step allocations) categories None).

(** [while allocated_total() < remaining_slots]: each round adds one slot
    or breaks, so [remaining_slots - allocated_total()] rounds suffice. *)
Fixpoint add_slots (rounds : nat) (allocations : Counts) : Counts :=
  match rounds with
  | O => allocations
  | S rounds' =>
      if sum_counts allocations <? remaining_slots
      then match best_cat allocations with
           | None => allocations
           | Some c => add_slots rounds' (set_count allocations c (allocations c + 1))
           end
      else allocations
  end.

Definition worst_item_step (allocations : Counts)
    (worst : option (CategoryGroup * A)) (c : CategoryGroup)
  : option (CategoryGroup * A) :=
  if 0 <? allocations c
  then match nth_error (groups c) (Z.to_nat (allocations c - 1)) with
       | Some item =>
           match worst with
           | None => Some (c, item)
           | Some (_, worst_item) =>
               if key_gt (tie_break_key item) (tie_break_key worst_item)
               then Some (c, item) else worst
           end
       | None => worst
       end
  else worst.

Definition worst_cat (allocations : Counts) : option CategoryGroup :=
  option_map fst (fold_left (worst_item_step allocations) categories None).

(** [while allocated_total() > remaining_slots]. *)
Fixpoint remove_slots (rounds : nat) (allocations : Counts) : Counts :=
  match rounds with
  | O => allocations
  | S rounds' =>
      if remaining_slots <? sum_counts allocations
      then match worst_cat allocations with
           | None => allocations
           | Some c => remove_slots rounds' (set_count allocations c (allocations c - 1))
           end
      else allocations
  end.

(** [allocations] when the balanced branch reaches the [added] loop. *)
Definition final_allocations : Counts :=
  let allocations : Counts := fun _ => 0 in
  let total_available := sum_counts available_counts in
  if 0 <? total_available
  then
    let allocations := base_allocations total_available in
    let allocations :=
      if sum_counts allocations <? remaining_slots
      then add_slots (Z.to_nat (remaining_slots - sum_counts allocations)) allocations
      else allocations in
    let allocations :=
      if remaining_slots <? sum_counts allocations
      then remove_slots (Z.to_nat (sum_counts allocations - remaining_slots)) allocations
      else allocations in
    allocations
  else allocations.

(** [added] after [for c in categories: added.extend(...)]. *)
Definition take_allocated (allocations : Counts) : list A :=
  flat_map (fun c => py_take (allocations c) (groups c)) categories.

End Allocation.

(** The backfill loop over [scored_deals]. *)
Fixpoint backfill_loop (added_ids : list pyval) (remaining_slots : Z)
    (scored_deals added : list A) : list A :=
  match scored_deals with
  | [] => added
  | d :: rest =>
      if remaining_slots <=? len added then added
      else if existsb (py_eq (deal_id_of d)) added_ids
      then backfill_loop added_ids remaining_slots rest added
      else backfill_loop added_ids remaining_slots rest (added ++ [d])
  end.

Definition backfill (remaining_slots : Z) (scored_deals added : list A) : list A :=
  if len added <? remaining_slots
  then backfill_loop (map deal_id_of added) remaining_slots scored_deals added
  else added.

(** [added] of the balanced branch. *)
Definition balanced_added (remaining_slots : Z) (scored_deals : list A) : list A :=
  let groups := category_groups scored_deals in
  let allocations := final_allocations groups remaining_slots in
  backfill remaining_slots scored_deals (take_allocated groups allocations).

(** [analyze_deals] from [if not scored_deals and not priority_deals] on. *)
Definition select (top_n : Z) (balance : bool) (scored_deals priority_deals : list A)
  : list A :=
  match scored_deals, priority_deals with
  | [], [] => []
  | _, _ =>
      let scored_deals := sort_by_key scored_deals in
      let priority_deals := sort_by_key priority_deals in
      let top_deals := priority_deals in
      let remaining_slots := Z.max 0 (top_n - len top_deals) in
      if remaining_slots <=? 0 then py_take top_n top_deals
      else if negb balance
      then py_take top_n (top_deals ++ py_take remaining_slots scored_deals)
      else
        let added := balanced_added remaining_slots scored_deals in
        py_take top_n (sort_by_key (top_deals ++ added))
  end.

End Selection.

(** ** Main analysis *)

(** A scored copy: the effective deal with the derived keys that
    [analyze_deals] sets on it. *)
Record ScoredDeal : Type := {
  base : Deal.t;
  engagement_score : Z;
  category_group : CategoryGroup;
  is_priority : bool;
  unit_price_amount : option Q;
  unit_price_unit : option string;
  unit_price_display : option string
}.

(** [tie_break_key]. *)
Definition tie_break_key (d : ScoredDeal) : Key :=
  let price := price_of (base d) in
  let savings_pct := Price.savings_percent price in
  let savings_pct_v := if is_number savings_pct then num savings_pct else (- 1)%Q in
  let up_v := unit_price_amount d in
  let amt := Price.amount price in
  let amt_v := if is_number amt then Some (num amt) else None in
  (- engagement_score d,
   - (if is_priority d then 1 else 0),
   (- savings_pct_v)%Q,
   up_v,
   amt_v).

Definition DedupeKey : Type :=
  string * string * string * string * string * string * string * string.

Definition dedupe_key (d : Deal.t) : DedupeKey :=
  let price := price_of d in
  (Text.upper (Text.strip (or_empty (Deal.retailer d))),
   Text.lower (Text.strip (or_empty (Deal.product_name d))),
   Text.upper (Text.strip (or_empty (Deal.category d))),
   Text.strip (or_empty (Price.display price)),
   py_str (Price.amount price),
   py_str (opt_str (Price.unit price)),
   Text.lower (Text.strip (or_empty (Deal.size_quantity d))),
   py_str (Deal.page d)).

(** The loop of [_dedupe_deals]; the set [seen] is the list of the keys
    added so far. *)
Fixpoint dedupe_loop (deals : list Deal.t) (seen : list DedupeKey) (out : list Deal.t)
  : list Deal.t :=
  match deals with
  | [] => out
  | d :: rest =>
      let key := dedupe_key d in
      if bool_decide (key ∈ seen) then dedupe_loop rest seen out
      else dedupe_loop rest (key :: seen) (out ++ [d])
  end.

Section Analysis.

Variable self : DealAnalyzer.

(** [_dedupe_deals]. *)
Definition _dedupe_deals (deals : list Deal.t) : list Deal.t :=
  if negb (dedupe (config self)) then deals
  else dedupe_loop deals [] [].

(** The body of the scoring loop for a deal that is not excluded: the copy
    [deal_copy] with its derived keys. *)
Definition scored_copy (deal : Deal.t) : option ScoredDeal :=
  let deal_eff := _apply_multibuy_overrides deal in
  match calculate_total_score self deal_eff with
  | None => None
  | Some score =>
      let '(up_amt, up_unit, up_disp) := compute_unit_price deal in
      Some {| base := deal_eff;
              engagement_score := score;
              category_group := categorize_deal deal;
              is_priority := is_priority_deal self deal;
              unit_price_amount := up_amt;
              unit_price_unit := up_unit;
              unit_price_display := up_disp |}
  end.

(** [for deal in deals] of [analyze_deals], with the two lists it fills. *)
Fixpoint scoring_loop (deals : list Deal.t) (scored_deals priority_deals : list ScoredDeal)
  : option (list ScoredDeal * list ScoredDeal) :=
  match deals with
  | [] => Some (scored_deals, priority_deals)
  | deal :: rest =>
      let deal_eff := _apply_multibuy_overrides deal in
      if should_exclude self deal_eff then scoring_loop rest scored_deals priority_deals
      else
        match scored_copy deal with
        | None => None
        | Some deal_copy =>
            if is_priority deal_copy
            then scoring_loop rest scored_deals (priority_deals ++ [deal_copy])
            else scoring_loop rest (scored_deals ++ [deal_copy]) priority_deals
        end
  end.

(** [analyze_deals]; [None] when scoring raises. *)
Definition analyze_deals (deals : list Deal.t) (top_n : Z)
    (balance_override : option bool) : option (list ScoredDeal) :=
  let deals := _dedupe_deals deals in
  match deals with
  | [] => Some []
  | _ =>
      let balance := default (balance_categories (config self)) balance_override in
      let deals := _dedupe_deals deals in
      match scoring_loop deals [] [] with
      | None => None
      | Some (scored_deals, priority_deals) =>
          Some (select tie_break_key category_group (fun d => Deal.deal_id (base d))
                  top_n balance scored_deals priority_deals)
      end
  end.

(** [for d in deals] of [analyze_deals_debug]. *)
Fixpoint debug_loop (deals : list Deal.t) (kept : list Deal.t)
    (excluded : list (Deal.t * string)) : list Deal.t * list (Deal.t * string) :=
  match deals with
  | [] => (kept, excluded)
  | d :: rest =>
      match get_exclusion_reason self d with
      | Some reason =>
          if negb (String.eqb reason "")
          then debug_loop rest kept (excluded ++ [(d, reason)])
          else debug_loop rest (kept ++ [d]) excluded
      | None => debug_loop rest (kept ++ [d]) excluded
      end
  end.

(** [analyze_deals_debug]: (top_deals, excluded_deals_with_reason). *)
Definition analyze_deals_debug (deals : list Deal.t) (top_n : Z)
    (balance_override : option bool)
  : option (list ScoredDeal * list (Deal.t * string)) :=
  let deals := _dedupe_deals deals in
  let '(kept, excluded) := debug_loop deals [] [] in
  match analyze_deals kept top_n balance_override with
  | None => None
  | Some top => Some (top, excluded)
  end.

End Analysis.

(** ** Helpers of the HTML email *)

Module Html.

(** The five characters that [html.escape] replaces. *)
Definition amp : ascii := ascii_of_nat 38.
Definition lt : ascii := ascii_of_nat 60.
Definition gt : ascii := ascii_of_nat 62.
Definition dquote : ascii := ascii_of_nat 34.
Definition squote : ascii := ascii_of_nat 39.

Definition is_special (c : ascii) : bool :=
  Ascii.eqb c amp || Ascii.eqb c lt || Ascii.eqb c gt
  || Ascii.eqb c dquote || Ascii.eqb c squote.

Definition entity (c : ascii) : string :=
  if Ascii.eqb c amp then "&amp;"
  else if Ascii.eqb c lt then "&lt;"
  else if Ascii.eqb c gt then "&gt;"
  else if Ascii.eqb c dquote then "&quot;"
  else if Ascii.eqb c squote then "&#x27;"
  else String c EmptyString.

(** [html.escape(s)] with its default [quote=True]: the ampersand is
    replaced first, and no replacement text holds a character that a later
    replacement looks for, so the chain of [str.replace] is a map over the
    characters. *)
Fixpoint escape (s : string) : string :=
  match s with
  | EmptyString => EmptyString
  | String c s' => (entity c +:+ escape s')%string
  end.

(** [c in s] for a character. *)
Fixpoint has_char (c : ascii) (s : string) : bool :=
  match s with
  | EmptyString => false
  | String c' s' => Ascii.eqb c c' || has_char c s'
  end.

(** The characters that open or close a tag or an attribute value. *)
Definition markup : list ascii := [lt; gt; dquote; squote].

(** [s] holds none of them. *)
Definition inert (s : string) : Prop :=
  Forall (fun c => has_char c s = false) markup.

End Html.

(** [_html_escape]. *)
Definition _html_escape (s : pyval) : string :=
  Html.escape (match s with VNone => "" | _ => py_str s end).

(** [_format_save_line]. *)
Definition _format_save_line (deal : Deal.t) : string :=
  let price := price_of deal in
  let savings_amount := Price.savings_amount price in
  let savings_percent := Price.savings_percent price in
  if is_number savings_amount && Qltb 0 (num savings_amount)
  then "Save $" +:+ format_2f (num savings_amount)
  else if is_number savings_percent && Qltb 0 (num savings_percent)
  then "Save " +:+ Text.of_Z (round_half_even (num savings_percent)) +:+ "%"
  else if (truthy (Price.is_multibuy price) || truthy (Deal.multibuy_format deal))
          && truthy (Deal.multibuy_format deal)
  then _html_escape (Deal.multibuy_format deal)
  else "".

(** [_format_regular_price]. *)
Definition _format_regular_price (deal : Deal.t) : option string :=
  let price := price_of deal in
  let orig := Price.original_price price in
  if is_number orig && Qltb 0 (num orig)
  then Some ("$" +:+ format_2f (num orig))
  else None.

(** [_format_sale_price]. *)
Definition _format_sale_price (deal : Deal.t) : string :=
  let disp := Price.display (price_of deal) in
  if negb (String.eqb (or_empty disp) "")
  then _html_escape (opt_str disp)
  else
    let amt := Price.amount (price_of deal) in
    if is_number amt then "$" +:+ format_2f (num amt)
    else "Price N/A".




(** [_deal_size_text], on a scored copy. *)
Definition _deal_size_text (d : ScoredDeal) : string :=
  let sq := Deal.size_quantity (base d) in
  if negb (String.eqb (or_empty sq) "") then _html_escape (opt_str sq)
  else
    let upd := unit_price_display d in
    if negb (String.eqb (or_empty upd) "") then _html_escape (opt_str upd)
    else "".

(** * Dictionaries and lists as objects of a store

    The functions above compute on values.  To state which objects
    [analyze_deals] writes to, this part runs the same statements on a
    store: a deal dictionary, its price dictionary, the multibuy details
    and the lists of deals are objects named by locations, [dict(x)] and
    [list.copy()] allocate, and an item assignment, [append], [extend] or
    [sort] updates the object in place.  The numbers and texts that a
    statement computes come from the value-level functions, applied to the
    view of the object at the time it is read.  The per-category lists and
    counters of the balanced branch, which only hold indices into
    [scored_deals], are values. *)

Module Store.

Definition loc : Type := nat.

(** What a dictionary key is bound to: a scalar or another object. *)
Inductive hval : Type :=
  | HVal (v : pyval)
  | HRef (l : loc).

Inductive obj : Type :=
  | ODict (d : gmap string hval)
  | OList (l : list loc).

Abbreviation heap := (gmap loc obj).

(** A computation on the store; [None] is a raised exception. *)
Definition M (A : Type) : Type := heap -> option (A * heap).

#[global] Instance M_ret : MRet M := fun A a h => Some (a, h).
#[global] Instance M_bind : MBind M := fun A B f m h =>
  match m h with
  | Some (a, h') => f a h'
  | None => None
  end.

Definition raise {A : Type} : M A := fun _ => None.
Definition get_heap : M heap := fun h => Some (h, h).

(** A new object, at a location that names no object yet. *)
Definition alloc (o : obj) : M loc := fun h =>
  let l := fresh (dom h) in Some (l, <[l := o]> h).

Definition read (l : loc) : M obj := fun h =>
  match h !! l with
  | Some o => Some (o, h)
  | None => None
  end.

(** In-place update of the object at [l]. *)
Definition write (l : loc) (o : obj) : M unit := fun h =>
  match h !! l with
  | Some _ => Some (tt, <[l := o]> h)
  | None => None
  end.

Definition read_dict (l : loc) : M (gmap string hval) :=
  o ← read l; match o with ODict d => mret d | OList _ => raise end.

Definition read_list (l : loc) : M (list loc) :=
  o ← read l; match o with OList x => mret x | ODict _ => raise end.

(** [d[k] = v]. *)
Definition dict_set (l : loc) (k : string) (v : hval) : M unit :=
  d ← read_dict l; write l (ODict (<[k := v]> d)).

(** [dict(x)]: a shallow copy. *)
Definition dict_copy (l : loc) : M loc :=
  d ← read_dict l; alloc (ODict d).

(** [x.append(v)]. *)
Definition list_append (l : loc) (v : loc) : M unit :=
  x ← read_list l; write l (OList (x ++ [v])).

(** [x.extend(vs)]. *)
Definition list_extend (l : loc) (vs : list loc) : M unit :=
  x ← read_list l; write l (OList (x ++ vs)).

(** [x.copy()]. *)
Definition list_copy (l : loc) : M loc :=
  x ← read_list l; alloc (OList x).

(** ** Views: the record that a dictionary object holds *)

(** [d.get(k)] for a scalar key. *)
Definition field (d : gmap string hval) (k : string) : pyval :=
  match d !! k with
  | Some (HVal v) => v
  | _ => VNone
  end.

(** [d.get(k)] for a key declared [Optional[str]]. *)
Definition text_field (d : gmap string hval) (k : string) : option string :=
  match field d k with
  | VStr s => Some s
  | _ => None
  end.

(** [d.get(k)] when it is a dictionary object. *)
Definition dict_field (h : heap) (d : gmap string hval) (k : string)
  : option (gmap string hval) :=
  match d !! k with
  | Some (HRef l) =>
      match h !! l with
      | Some (ODict m) => Some m
      | _ => None
      end
  | _ => None
  end.

Definition view_details (m : gmap string hval) : Multibuy.t :=
  Multibuy.mk (field m "per_unit_cost") (field m "quantity_required")
    (field m "total_cost") (field m "format").

Definition view_price (h : heap) (p : gmap string hval) : Price.t :=
  Price.mk (field p "amount") (text_field p "unit") (text_field p "display")
    (field p "is_multibuy")
    (option_map view_details (dict_field h p "multibuy_details"))
    (field p "original_price") (field p "savings_amount")
    (field p "savings_percent").

Definition view_deal (h : heap) (d : gmap string hval) : Deal.t :=
  Deal.mk (field d "deal_id") (field d "page") (text_field d "retailer")
    (text_field d "product_name") (text_field d "brand") (text_field d "category")
    (option_map (view_price h) (dict_field h d "price"))
    (text_field d "size_quantity") (text_field d "container_type")
    (text_field d "special_notes")
    (field d "quantity_required") (field d "format")
    (field d "multibuy_total_cost") (field d "multibuy_format").

(** The deal record read off the object at [l]. *)
Definition view (l : loc) : M Deal.t :=
  d ← read_dict l; h ← get_heap; mret (view_deal h d).

Definition group_of_name (s : string) : CategoryGroup :=
  if String.eqb s (group_name MeatSeafood) then MeatSeafood
  else if String.eqb s (group_name Produce) then Produce
  else SnacksOther.

Definition unit_price_field (d : gmap string hval) : option Q :=
  let up := field d "unit_price_amount" in
  if is_number up then Some (num up) else None.

(** The scored copy read off a dictionary of the result. *)
Definition view_scored (h : heap) (d : gmap string hval) : ScoredDeal :=
  {| base := view_deal h d;
     engagement_score := default 0 (py_int (field d "engagement_score"));
     category_group := group_of_name (py_str (field d "category_group"));
     is_priority := truthy (field d "is_priority");
     unit_price_amount := unit_price_field d;
     unit_price_unit := text_field d "unit_price_unit";
     unit_price_display := text_field d "unit_price_display" |}.

(** The scored copy at [l] in [h]; a location that holds no dictionary
    reads as the empty one. *)
Definition scored_at (h : heap) (l : loc) : ScoredDeal :=
  match h !! l with
  | Some (ODict d) => view_scored h d
  | _ => view_scored h ∅
  end.

(** ** The analyzer on the store *)

Section Analyzer.

Variable self : DealAnalyzer.

(** [_apply_multibuy_overrides]: returns [deal] itself, or a new dictionary
    with a new price dictionary. *)
Definition _apply_multibuy_overrides (deal : loc) : M loc :=
  d ← read_dict deal;
  h ← get_heap;
  let record := view_deal h d in
  match _extract_multibuy_details record with
  | (Some per_unit, Some qty_req, total, fmt) =>
      deal_copy ← dict_copy deal;
      price ← alloc (ODict (default ∅ (dict_field h d "price")));
      let unit := match text_field (default ∅ (dict_field h d "price")) "unit" with
                  | Some u => if String.eqb u "" then "ea" else u
                  | None => "ea"
                  end in
      let unit_disp := if Text.mem (Text.lower unit) ["ea"; "each"] then "ea" else unit in
      dict_set price "amount" (HVal (VFloat per_unit));;
      dict_set price "display"
        (HVal (VStr ("$" +:+ format_2f per_unit +:+ " " +:+ unit_disp)));;
      dict_set deal_copy "price" (HRef price);;
      dict_set deal_copy "quantity_required" (HVal (VInt qty_req));;
      (if match fmt with Some s => negb (String.eqb s "") | None => false end
          && negb (truthy (field d "format"))
       then dict_set deal_copy "format" (HVal (opt_str fmt))
       else mret tt);;
      dict_set deal_copy "multibuy_total_cost" (HVal (opt_float total));;
      dict_set deal_copy "multibuy_format" (HVal (opt_str fmt));;
      mret deal_copy
  | _ => mret deal
  end.

(** [compute_unit_price]. *)
Definition compute_unit_price (deal : loc) : M (option Q * option string * option string) :=
  deal ← _apply_multibuy_overrides deal;
  record ← view deal;
  mret (unit_price_of record).

(** [get_exclusion_reason] and [should_exclude] only read. *)
Definition should_exclude (deal : loc) : M bool :=
  record ← view deal; mret (should_exclude self record).

(** [is_priority_deal]. *)
Definition is_priority_deal (deal : loc) : M bool :=
  record ← view deal;
  let product_name := Text.lower (or_empty (Deal.product_name record)) in
  let category := or_empty (Deal.category record) in
  up ← compute_unit_price deal;
  match up with
  | (Some unit_price_amount, Some unit_price_unit, _) =>
      if negb (String.eqb unit_price_unit "lb") then mret false
      else mret (existsb (fun entry => rule_admits category unit_price_amount
                                         product_name (snd entry))
                   (priority_deals (config self)))
  | _ => mret false
  end.

(** [get_priority_bonus]. *)
Definition get_priority_bonus (deal : loc) : M Z :=
  p ← is_priority_deal deal;
  if negb p then mret 0
  else
    record ← view deal;
    let product_name := Text.lower (or_empty (Deal.product_name record)) in
    mret match
        find (fun entry =>
                let criteria := snd entry in
                Text.any_in (Rule.keywords criteria) product_name
                && negb (Text.any_in (Rule.exclude_keywords criteria) product_name))
          (priority_deals (config self))
      with
      | Some entry => Rule.bonus_score (snd entry)
      | None => 0
      end.

(** [_effective_price_for_scoring]. *)
Definition _effective_price_for_scoring (deal : loc) : M Q :=
  deal_eff ← _apply_multibuy_overrides deal;
  record ← view deal_eff;
  let amount := Price.amount (price_of record) in
  match (if truthy amount then py_float amount else Some 0%Q) with
  | None => raise
  | Some price_amount =>
      up ← compute_unit_price deal_eff;
      match up with
      | (Some up, Some _, _) => mret up
      | _ => mret price_amount
      end
  end.

(** [calculate_viral_pricing_score]. *)
Definition calculate_viral_pricing_score (deal : loc) : M Z :=
  price_eff ← _effective_price_for_scoring deal;
  record ← view deal;
  mret (Z.min (0 + price_band_points price_eff + round_number_points record
               + multibuy_points record + savings_points record) 30).

(** [calculate_total_score]; the five components in the middle only read
    the deal. *)
Definition calculate_total_score (deal : loc) : M Z :=
  viral ← calculate_viral_pricing_score deal;
  record ← view deal;
  bonus ← get_priority_bonus deal;
  mret (0 + viral + calculate_discount_depth record
        + calculate_category_weight self record
        + calculate_premium_value self record
        + calculate_social_appeal self record
        + calculate_brand_recognition self record
        + bonus).

Definition categorize_deal (deal : loc) : M CategoryGroup :=
  record ← view deal; mret (categorize_deal record).

(** The loop of [_dedupe_deals], appending to the list object [out]. *)
Fixpoint dedupe_loop (deals : list loc) (seen : list DedupeKey) (out : loc) : M unit :=
  match deals with
  | [] => mret tt
  | d :: rest =>
      record ← view d;
      let key := dedupe_key record in
      if bool_decide (key ∈ seen) then dedupe_loop rest seen out
      else list_append out d;; dedupe_loop rest (key :: seen) out
  end.

(** [_dedupe_deals]: the list object it was given when the toggle is off,
    a new list otherwise. *)
Definition _dedupe_deals (deals : loc) : M loc :=
  if negb (dedupe (config self)) then mret deals
  else
    out ← alloc (OList []);
    items ← read_list deals;
    dedupe_loop items [] out;;
    mret out.

(** The body of [for deal in deals] in [analyze_deals]. *)
Definition scoring_step (scored_deals priority_deals : loc) (deal : loc) : M unit :=
  deal_eff ← _apply_multibuy_overrides deal;
  excluded ← should_exclude deal_eff;
  if excluded : bool then mret tt
  else
    score ← calculate_total_score deal_eff;
    deal_copy ← dict_copy deal_eff;
    copy ← read_dict deal_copy;
    h ← get_heap;
    (match copy !! "price" with
     | Some (HRef p) =>
         match h !! p with
         | Some (ODict pd) =>
             if bool_decide (pd = ∅) then mret tt
             else price_copy ← dict_copy p;
                  dict_set deal_copy "price" (HRef price_copy)
         | _ => raise
         end
     | _ => mret tt
     end);;
    dict_set deal_copy "engagement_score" (HVal (VInt score));;
    group ← categorize_deal deal;
    dict_set deal_copy "category_group" (HVal (VStr (group_name group)));;
    priority ← is_priority_deal deal;
    dict_set deal_copy "is_priority" (HVal (VBool priority));;
    '(up_amt, up_unit, up_disp) ← compute_unit_price deal;
    dict_set deal_copy "unit_price_amount" (HVal (opt_float up_amt));;
    dict_set deal_copy "unit_price_unit" (HVal (opt_str up_unit));;
    dict_set deal_copy "unit_price_display" (HVal (opt_str up_disp));;
    if priority : bool then list_append priority_deals deal_copy
    else list_append scored_deals deal_copy.

Fixpoint scoring_loop (deals : list loc) (scored_deals priority_deals : loc) : M unit :=
  match deals with
  | [] => mret tt
  | deal :: rest =>
      scoring_step scored_deals priority_deals deal;;
      scoring_loop rest scored_deals priority_deals
  end.

(** [x.sort(key=tie_break_key)], the keys being read off the store. *)
Definition list_sort (l : loc) : M unit :=
  x ← read_list l;
  h ← get_heap;
  write l (OList (sort_by_key (fun d => tie_break_key (scored_at h d)) x)).

(** [x[:n]]: a new list. *)
Definition list_slice (l : loc) (n : Z) : M loc :=
  x ← read_list l; alloc (OList (py_take n x)).

(** [analyze_deals]; returns the location of the result list. *)
Definition analyze_deals (deals : loc) (top_n : Z) (balance_override : option bool)
  : M loc :=
  deals ← _dedupe_deals deals;
  items ← read_list deals;
  match items with
  | [] => alloc (OList [])
  | _ =>
      let balance := default (balance_categories (config self)) balance_override in
      deals ← _dedupe_deals deals;
      items ← read_list deals;
      scored_deals ← alloc (OList []);
      priority_deals ← alloc (OList []);
      scoring_loop items scored_deals priority_deals;;
      scored ← read_list scored_deals;
      priority ← read_list priority_deals;
      match scored, priority with
      | [], [] => alloc (OList [])
      | _, _ =>
          list_sort scored_deals;;
          list_sort priority_deals;;
          top_deals ← list_copy priority_deals;
          top ← read_list top_deals;
          let remaining_slots := Z.max 0 (top_n - len top) in
          if remaining_slots <=? 0 then list_slice top_deals top_n
          else if negb balance
          then
            scored ← read_list scored_deals;
            list_extend top_deals (py_take remaining_slots scored);;
            list_slice top_deals top_n
          else
            scored ← read_list scored_deals;
            h ← get_heap;
            added ← alloc (OList
              (balanced_added (fun d => tie_break_key (scored_at h d))
                 (fun d => category_group (scored_at h d))
                 (fun d => Deal.deal_id (base (scored_at h d)))
                 remaining_slots scored));
            extra ← read_list added;
            list_extend top_deals extra;;
            list_sort top_deals;;
            list_slice top_deals top_n
      end
  end.

End Analyzer.

(** ** Which objects a computation leaves alone *)

(** [l] names no object of [h0]. *)
Definition fresh_for (h0 : heap) (l : loc) : Prop := h0 !! l = None.

(** Run from any store that extends [h0], the computation [m] ends in a
    store that still extends [h0]: every object of [h0] is where it was,
    with the content it had.  [post] is what is known of the result. *)
Definition preserves {A : Type} (h0 : heap) (m : M A) (post : A -> Prop) : Prop :=
  forall h a h', h0 ⊆ h -> m h = Some (a, h') -> h0 ⊆ h' /\ post a.

(** Whatever [m] returns, every object of the store it started from is
    still there, with the same content. *)
Definition leaves_input_unchanged {A : Type} (m : M A) : Prop :=
  forall h a h', m h = Some (a, h') ->
  forall l o, h !! l = Some o -> h' !! l = Some o.

End Store.

(** * Statements of the specification

    Definitions that follow the words of the specification, to be compared
    with the definitions above, and the sample records used as instances. *)

Module Spec.

(** The seven numbered checks of [reasonFor], in the order of the
    specification, each with its reason code. *)
Definition reason_checks (self : DealAnalyzer) (deal : Deal.t) : list (bool * string) :=
  let amount := Price.amount (price_of deal) in
  let category := or_empty (Deal.category deal) in
  let cat_u := Text.upper category in
  let name := or_empty (Deal.product_name deal) in
  let brand := or_empty (Deal.brand deal) in
  let cfg := config self in
  [ (negb (is_number amount), "missing_price_amount");
    (is_number amount && Qltb (num amount) 0, "invalid_negative_price");
    (Text.mem category (excluded_categories cfg)
     || Text.any_in ["ALCOHOL"; "BEER"; "WINE"; "SPIRITS"] cat_u,
     "excluded_category_alcohol");
    ((Text.contains "HEALTH" cat_u || Text.contains "BEAUTY" cat_u)
     && Text.any_in (supplement_keywords cfg) (Text.lower name),
     "excluded_supplement");
    (existsb (fun b => negb (String.eqb (Text.strip (Text.lower brand)) "")
                       && String.eqb (Text.strip (Text.lower brand)) (Text.lower b))
       (store_brands cfg)
     || existsb (fun pat => Text.phrase_search pat (Text.lower (name +:+ " " +:+ brand)))
          (_store_brand_patterns self),
     "excluded_store_brand");
    (Text.any_in (excluded_products cfg) (Text.lower name)
     && Text.any_in ["MEAT"; "DELI"; "SEAFOOD"] cat_u,
     "excluded_product_keyword");
    (match retailer_filter self with
     | Some f => negb (String.eqb f "") && negb (bool_decide (Deal.retailer deal = Some f))
     | None => false
     end,
     "filtered_out_by_retailer") ].

(** First match wins. *)
Definition reasonFor (self : DealAnalyzer) (deal : Deal.t) : option string :=
  option_map snd (find fst (reason_checks self deal)).

Definition clamp (z lo hi : Z) : Z := Z.max lo (Z.min z hi).

(** DiscountDepth as the specification words it:
    [clamp(round((percent - 5) * 20 / 55), 0, 20)]. *)
Definition discount_depth_rounded (percent : Q) : Z :=
  clamp (round_half_even ((percent - 5) * 20 / 55)) 0 20.

(** The same with the fractional part dropped instead of rounded. *)
Definition discount_depth_truncated (percent : Q) : Z :=
  clamp (trunc ((percent - 5) * 20 / 55)) 0 20.

(** The endings of the round-number bonus as the specification lists them. *)
Definition listed_endings : list string :=
  [".99"; "1.99"; "2.49"; "2.99"; "4.99"; "9.99"].

(** The bonus of the first rule, in configured order, that the deal fully
    matches: category, price per pound, keyword and no exclude-keyword. *)
Definition first_matching_bonus (self : DealAnalyzer) (deal : Deal.t) : Z :=
  let name := Text.lower (or_empty (Deal.product_name deal)) in
  let category := or_empty (Deal.category deal) in
  match compute_unit_price deal with
  | (Some amount, Some unit_label, _) =>
      if String.eqb unit_label "lb"
      then match find (fun entry => rule_admits category amount name (snd entry))
                   (priority_deals (config self)) with
           | Some entry => Rule.bonus_score (snd entry)
           | None => 0
           end
      else 0
  | _ => 0
  end.

(** Deduplication: the first occurrence of each key, in input order. *)
Fixpoint first_occurrences (seen : list DedupeKey) (deals : list Deal.t) : list Deal.t :=
  match deals with
  | [] => []
  | d :: rest =>
      if bool_decide (dedupe_key d ∈ seen) then first_occurrences seen rest
      else d :: first_occurrences (dedupe_key d :: seen) rest
  end.

(** A deal is kept when its multibuy-override copy has no exclusion reason. *)
Definition kept (self : DealAnalyzer) (d : Deal.t) : bool :=
  negb (should_exclude self (_apply_multibuy_overrides d)).

(** The deals of the input that survive deduplication and exclusion. *)
Definition survivors (self : DealAnalyzer) (deals : list Deal.t) : list Deal.t :=
  List.filter (kept self) (_dedupe_deals self deals).

(** Those of them that qualify as priority deals, and the others. *)
Definition qualifying (self : DealAnalyzer) (deals : list Deal.t) : list Deal.t :=
  List.filter (is_priority_deal self) (survivors self deals).
Definition others (self : DealAnalyzer) (deals : list Deal.t) : list Deal.t :=
  List.filter (fun d => negb (is_priority_deal self d)) (survivors self deals).


End Spec.

(** The two halves of the loop of [analyze_deals_debug]: a record with no
    exclusion reason is kept, another is paired with its reason. *)
Definition no_reason (self : DealAnalyzer) (d : Deal.t) : bool :=
  negb (should_exclude self d).

Definition with_reason (self : DealAnalyzer) (d : Deal.t) : option (Deal.t * string) :=
  option_map (pair d) (get_exclusion_reason self d).

(** [a] may stand before [b] in a list ranked by score: the score of [b]
    is not the higher one, and at equal scores [b] is a priority deal only
    if [a] is. *)
Definition ranked_before (a b : ScoredDeal) : Prop :=
  engagement_score b <= engagement_score a
  /\ (engagement_score b = engagement_score a ->
      is_priority b = true -> is_priority a = true).

(** Sample records. *)
Module Samples.

(** [DealAnalyzer()]. *)
Definition analyzer : DealAnalyzer :=
  {| retailer_filter := None; config := default_config |}.

(** A price with an amount, a unit and a savings percent only. *)
Definition price (amount : pyval) (unit : option string) (savings_percent : pyval)
  : Price.t :=
  Price.mk amount unit None VNone None VNone VNone savings_percent.

(** A deal of retailer HEB with the given identifier, name, category and price. *)
Definition deal_of (id : Z) (name category : string) (p : Price.t) : Deal.t :=
  Deal.mk (VInt id) VNone (Some "HEB") (Some name) None (Some category)
    (Some p) None None None VNone VNone VNone VNone.

Definition chicken : Deal.t :=
  deal_of 1 "Chicken Breast" "MEAT" (price (VFloat 0.99) (Some "lb") (VInt 55)).
Definition ribeye : Deal.t :=
  deal_of 2 "Ribeye Steak" "MEAT" (price (VFloat 8.99) (Some "lb") VNone).
Definition apples : Deal.t :=
  deal_of 3 "Gala Apples" "Produce" (price (VFloat 1.99) (Some "lb") VNone).
Definition chips : Deal.t :=
  deal_of 4 "Tortilla Chips" "Snacks" (price (VFloat 2.99) None VNone).
Definition bananas : Deal.t :=
  deal_of 5 "Bananas" "Produce" (price (VFloat 0.59) (Some "lb") VNone).
Definition pork : Deal.t :=
  deal_of 6 "Pork Chops" "MEAT" (price (VFloat 3.99) (Some "lb") VNone).

Definition week : list Deal.t := [chicken; ribeye; apples; chips; bananas; pork; chicken].

(** 4.99 for a 3 lb bag. *)
Definition three_pound_bag : Deal.t :=
  deal_of 7 "Russet Potatoes" "Produce" (price (VFloat 4.99) (Some "3lb") VNone).

(** No amount, category "Beer & Wine". *)
Definition beer_without_price : Deal.t :=
  deal_of 8 "Lager 6 pack" "Beer & Wine" (price VNone None VNone).

(** Savings of 10 percent. *)
Definition ten_percent_off : Deal.t :=
  deal_of 9 "Oat Cereal" "Pantry" (price (VFloat 4.5) None (VInt 10)).

(** An amount of 3.99 with no unit. *)
Definition three_ninety_nine : Deal.t :=
  deal_of 13 "Oat Cereal" "Pantry" (price (VFloat 3.99) None VNone).

(** An amount of 10.99 with no unit. *)
Definition ten_ninety_nine : Deal.t :=
  deal_of 14 "Oat Cereal" "Pantry" (price (VFloat 10.99) None VNone).

(** Keywords of the chicken_breast and of the steak rule, at 5.00 per lb:
    above the 3.00 of the first rule, below the 10.00 of the second. *)
Definition chicken_steak : Deal.t :=
  deal_of 15 "Chicken Breast Steak" "MEAT" (price (VFloat 5) (Some "lb") VNone).

(** "2 for $5": no amount of its own, the per-unit cost in the details. *)
Definition two_for_five : Deal.t :=
  deal_of 16 "Sparkling Water" "Beverages"
    (Price.mk VNone None (Some "2 for $5") (VBool true)
       (Some (Multibuy.mk (VFloat 2.5) (VInt 2) (VInt 5) (VStr "2 for $5")))
       VNone VNone VNone).

(** A configuration whose weight table gives MEAT the weight 0. *)
Definition flat_meat_config : DealAnalyzerConfig := {|
  store_brands := default_store_brands;
  excluded_categories := default_excluded_categories;
  supplement_keywords := default_supplement_keywords;
  excluded_products := default_excluded_products;
  priority_deals := default_priority_deals;
  premium_keywords := default_premium_keywords;
  viral_keywords := default_viral_keywords;
  major_brands := default_major_brands;
  category_weights := {[ "MEAT" := 0 ]};
  dedupe := true;
  balance_categories := true
|}.

Definition flat_meat_analyzer : DealAnalyzer :=
  {| retailer_filter := None; config := flat_meat_config |}.

(** Pork roast at 7.50 per lb. *)
Definition pork_roast : Deal.t :=
  deal_of 17 "Pork Roast" "MEAT" (price (VFloat 7.5) (Some "lb") VNone).

(** A store with the "2 for $5" record and the chicken record, as a JSON
    loader leaves them: the details at 0, the two price dictionaries at 1
    and 3, the two deal dictionaries at 2 and 4, the input list at 5. *)
Definition loaded : gmap nat Store.obj :=
  list_to_map
    [ (0%nat, Store.ODict (list_to_map
         [ ("per_unit_cost", Store.HVal (VFloat 2.5));
           ("quantity_required", Store.HVal (VInt 2));
           ("total_cost", Store.HVal (VInt 5));
           ("format", Store.HVal (VStr "2 for $5")) ]));
      (1%nat, Store.ODict (list_to_map
         [ ("amount", Store.HVal VNone);
           ("display", Store.HVal (VStr "2 for $5"));
           ("is_multibuy", Store.HVal (VBool true));
           ("multibuy_details", Store.HRef 0%nat) ]));
      (2%nat, Store.ODict (list_to_map
         [ ("deal_id", Store.HVal (VInt 16));
           ("retailer", Store.HVal (VStr "HEB"));
           ("product_name", Store.HVal (VStr "Sparkling Water"));
           ("category", Store.HVal (VStr "Beverages"));
           ("price", Store.HRef 1%nat) ]));
      (3%nat, Store.ODict (list_to_map
         [ ("amount", Store.HVal (VFloat 0.99));
           ("unit", Store.HVal (VStr "lb"));
           ("savings_percent", Store.HVal (VInt 55)) ]));
      (4%nat, Store.ODict (list_to_map
         [ ("deal_id", Store.HVal (VInt 1));
           ("retailer", Store.HVal (VStr "HEB"));
           ("product_name", Store.HVal (VStr "Chicken Breast"));
           ("category", Store.HVal (VStr "MEAT"));
           ("price", Store.HRef 3%nat) ]));
      (5%nat, Store.OList [2%nat; 4%nat]) ].

End Samples.

(** * Properties *)

Import Samples.

(** ** Arithmetic of the scalar helpers *)

Lemma trunc_nonneg (q : Q) : (0 <= q)%Q -> trunc q = Qfloor q.
Proof.
  destruct q as [n d]. unfold Qle, trunc, Qfloor. simpl. intros H.
  apply Z.quot_div_nonneg; lia.
Qed.

Lemma trunc_opp (q : Q) : trunc (- q) = - trunc q.
Proof. destruct q as [n d]. unfold trunc. simpl. apply Z.quot_opp_l. lia. Qed.

Lemma trunc_nonpos (q : Q) : (q <= 0)%Q -> trunc q = - Qfloor (- q).
Proof.
  intros H. rewrite <- trunc_nonneg.
  - rewrite trunc_opp. lia.
  - apply (Qopp_le_compat q 0) in H. exact H.
Qed.

(** [trunc] depends on the value of the rational only. *)
Lemma trunc_comp (p q : Q) : (p == q)%Q -> trunc p = trunc q.
Proof.
  intros E. destruct (Qlt_le_dec p 0) as [Hn | Hp].
  - rewrite (trunc_nonpos p), (trunc_nonpos q).
    + f_equal. apply Qfloor_comp. rewrite E. reflexivity.
    + rewrite <- E. apply Qlt_le_weak, Hn.
    + apply Qlt_le_weak, Hn.
  - rewrite (trunc_nonneg p), (trunc_nonneg q).
    + apply Qfloor_comp, E.
    + rewrite <- E. exact Hp.
    + exact Hp.
Qed.

Lemma trunc_sign_nonpos (q : Q) : (q <= 0)%Q -> trunc q <= 0.
Proof.
  intros H. rewrite (trunc_nonpos q H).
  assert (0 <= Qfloor (- q)); [| lia].
  change 0 with (Qfloor 0). apply Qfloor_resp_le.
  apply (Qopp_le_compat q 0) in H. exact H.
Qed.

Lemma Qfloor_lt_bound (q : Q) (n : Z) : (q < inject_Z n)%Q -> Qfloor q < n.
Proof.
  intros H. apply Z.lt_nge. intros Hge.
  apply (Qlt_not_le _ _ H).
  apply Qle_trans with (inject_Z (Qfloor q)).
  - rewrite <- Zle_Qle. exact Hge.
  - apply Qfloor_le.
Qed.

(** Truncating after the clamp of the code, or clamping after truncating. *)
Lemma trunc_clamp (x : Q) :
  trunc (py_min 20 (py_max 0 x)) = Spec.clamp (trunc x) 0 20.
Proof.
  unfold py_min, py_max, Spec.clamp.
  destruct (Qlt_le_dec 0 x) as [Hpos | Hle].
  - assert (Hx : (0 <= x)%Q) by apply Qlt_le_weak, Hpos.
    assert (H0 : 0 <= Qfloor x).
    { change 0 with (Qfloor 0). apply Qfloor_resp_le, Hx. }
    destruct (Qlt_le_dec x 20) as [Hlt | Hge].
    + rewrite (trunc_nonneg x Hx).
      pose proof (Qfloor_lt_bound x 20 Hlt). lia.
    + rewrite (trunc_nonneg x Hx).
      assert (20 <= Qfloor x).
      { change 20 with (Qfloor 20). apply Qfloor_resp_le, Hge. }
      change (trunc 20) with 20. lia.
  - destruct (Qlt_le_dec 0 20) as [_ | Habs].
    + pose proof (trunc_sign_nonpos x Hle). change (trunc 0) with 0. lia.
    + exfalso. apply (Qle_not_lt _ _ Habs). reflexivity.
Qed.

Lemma depth_of_percent_truncated (pct : Q) :
  depth_of_percent pct = Spec.discount_depth_truncated pct.
Proof.
  unfold depth_of_percent, Spec.discount_depth_truncated.
  rewrite trunc_clamp. f_equal. apply trunc_comp. field.
Qed.

Lemma depth_of_percent_range (pct : Q) : 0 <= depth_of_percent pct <= 20.
Proof.
  rewrite depth_of_percent_truncated.
  unfold Spec.discount_depth_truncated, Spec.clamp. lia.
Qed.

(** ** Multibuy override *)

Lemma override_not_multibuy (d : Deal.t) :
  truthy (Price.is_multibuy (price_of d)) = false -> _apply_multibuy_overrides d = d.
Proof.
  intros H. unfold _apply_multibuy_overrides, _extract_multibuy_details.
  rewrite H. reflexivity.
Qed.

(** ** Unit price *)

Lemma normalize_unit_3lb (display : option string) :
  normalize_unit (Some "3lb") display = ("lb", Some 3%Q, "lb").
Proof. reflexivity. Qed.

(** C8. [compute_unit_price] on a deal priced 4.99 for the unit "3lb" (and
    not a multibuy) returns the amount 4.99/3, about 1.6633, the unit
    label "lb" and the display text "$1.66/lb". *)
Theorem compute_unit_price_three_pounds (d : Deal.t) (p : Price.t) :
  Deal.price d = Some p ->
  Price.amount p = VFloat 4.99 ->
  Price.unit p = Some "3lb" ->
  truthy (Price.is_multibuy p) = false ->
  exists up : Q,
    compute_unit_price d = (Some up, Some "lb", Some "$1.66/lb")
    /\ (up == 4.99 / 3)%Q
    /\ (Qabs (up - 1.6633) < 0.0001)%Q.
Proof.
  intros Hp Ha Hu Hm. exists (4.99 / 3)%Q.
  split; [| split; [reflexivity | reflexivity]].
  assert (Hprice : price_of d = p) by (unfold price_of; rewrite Hp; reflexivity).
  unfold compute_unit_price.
  rewrite override_not_multibuy by (rewrite Hprice; exact Hm).
  unfold unit_price_of.
  rewrite Hprice, Ha, Hu, normalize_unit_3lb. reflexivity.
Qed.

Lemma compute_unit_price_three_pounds_witness :
  exists up : Q,
    compute_unit_price three_pound_bag = (Some up, Some "lb", Some "$1.66/lb")
    /\ (up == 4.99 / 3)%Q
    /\ (Qabs (up - 1.6633) < 0.0001)%Q.
Proof.
  apply (compute_unit_price_three_pounds three_pound_bag
           (price (VFloat 4.99) (Some "3lb") VNone));
    reflexivity.
Defined.

(** ** Exclusion reasons *)

Lemma retailer_differs (r : option string) (f : string) :
  negb (match r with Some x => String.eqb x f | None => false end)
  = negb (bool_decide (r = Some f)).
Proof.
  f_equal. destruct r as [x |].
  - destruct (String.eqb_spec x f) as [-> | Hne].
    + symmetry. apply bool_decide_eq_true. reflexivity.
    + symmetry. apply bool_decide_eq_false. intros E. apply Hne. congruence.
  - symmetry. apply bool_decide_eq_false. discriminate.
Qed.

Lemma missing_amount_reason (self : DealAnalyzer) (d : Deal.t) :
  is_number (Price.amount (price_of d)) = false ->
  get_exclusion_reason self d = Some "missing_price_amount".
Proof. intros H. unfold get_exclusion_reason. rewrite H. reflexivity. Qed.

(** C6. A deal whose price amount is missing or not a number is excluded
    with the reason [missing_price_amount], whatever a later check would
    say; and the reason is always that of the first of the seven checks,
    in the order of the specification, that matches. *)
Theorem exclusion_reason_precedence (self : DealAnalyzer) (d : Deal.t) :
  (is_number (Price.amount (price_of d)) = false ->
   get_exclusion_reason self d = Some "missing_price_amount")
  /\ get_exclusion_reason self d = Spec.reasonFor self d.
Proof.
  split; [apply missing_amount_reason |].
  unfold get_exclusion_reason, Spec.reasonFor, Spec.reason_checks, any_token.
  cbn [find fst snd option_map].
  destruct (is_number (Price.amount (price_of d))); cbn [negb andb]; [| reflexivity].
  destruct (Qltb (num (Price.amount (price_of d))) 0); [reflexivity |].
  destruct (Text.mem (or_empty (Deal.category d)) (excluded_categories (config self)));
    cbn [orb]; [reflexivity |].
  destruct (Text.any_in ["ALCOHOL"; "BEER"; "WINE"; "SPIRITS"]
              (Text.upper (or_empty (Deal.category d)))); [reflexivity |].
  match goal with |- context [if ?b then Some "excluded_supplement" else _] =>
    destruct b end; [reflexivity |].
  match goal with |- (if ?b then _ else _) = _ => destruct b end;
    cbn [orb]; [reflexivity |].
  match goal with |- (if ?b then _ else _) = _ => destruct b end; [reflexivity |].
  match goal with |- (if ?b then _ else _) = _ => destruct b end; [reflexivity |].
  destruct (retailer_filter self) as [f |]; [| reflexivity].
  rewrite retailer_differs.
  match goal with |- (if ?b then _ else _) = _ => destruct b end; reflexivity.
Qed.

Lemma exclusion_reason_precedence_witness :
  (is_number (Price.amount (price_of beer_without_price)) = false ->
   get_exclusion_reason analyzer beer_without_price = Some "missing_price_amount")
  /\ get_exclusion_reason analyzer beer_without_price
     = Spec.reasonFor analyzer beer_without_price.
Proof. apply (exclusion_reason_precedence analyzer beer_without_price). Defined.

(** ** Discount depth *)

(** C4. The code does not round.  At a savings percent of 10 the formula
    [(percent - 5) * 20 / 55] is worth 100/55, between 1 and 2: rounded to
    the nearest integer, as the claim says and as the comment above the
    formula in the code has it ("Map 10%->2"), it is 2; the code converts
    with [int], which drops the fractional part, and returns 1. *)
Theorem discount_depth_of_ten_percent :
  calculate_discount_depth ten_percent_off = 1
  /\ Spec.discount_depth_rounded 10 = 2
  /\ ((10 - 5) * (20 / 55) == 100 # 55)%Q.
Proof. repeat split; reflexivity. Qed.

(** ** Effective price and viral pricing *)

Lemma float_of_number (v : pyval) :
  is_number v = true ->
  (if truthy v then py_float v else Some 0%Q) <> None.
Proof.
  destruct v; simpl; try discriminate; intros _;
    repeat match goal with |- context [if ?b then _ else _] => destruct b end;
    discriminate.
Qed.

Lemma override_amount_number (d : Deal.t) :
  is_number (Price.amount (price_of d)) = true ->
  is_number (Price.amount (price_of (_apply_multibuy_overrides d))) = true.
Proof.
  intros H. unfold _apply_multibuy_overrides.
  destruct (_extract_multibuy_details d) as [[[[pu |] [qr |]] total] fmt];
    first [exact H | reflexivity].
Qed.

Lemma effective_price_defined (d : Deal.t) :
  is_number (Price.amount (price_of d)) = true ->
  exists price_eff, _effective_price_for_scoring d = Some price_eff.
Proof.
  intros H. unfold _effective_price_for_scoring.
  pose proof (float_of_number _ (override_amount_number d H)) as Hf.
  destruct (if truthy _ then _ else _) as [pa |]; [| congruence].
  destruct (compute_unit_price _) as [[[up |] [u |]] disp]; eauto.
Qed.

Lemma price_band_range (q : Q) : 0 <= price_band_points q <= 30.
Proof.
  unfold price_band_points.
  destruct (Qltb q 1); [lia |]. destruct (Qleb q _); [lia |].
  destruct (Qleb q _); lia.
Qed.

Lemma round_number_range (d : Deal.t) : 0 <= round_number_points d <= 8.
Proof.
  unfold round_number_points. destruct (is_number _); [| lia].
  destruct (existsb _ _); lia.
Qed.

Lemma multibuy_points_range (d : Deal.t) : 0 <= multibuy_points d <= 15.
Proof. unfold multibuy_points. destruct (truthy _); lia. Qed.

Lemma savings_points_range (d : Deal.t) : 0 <= savings_points d <= 12.
Proof.
  unfold savings_points. destruct (is_number _); [| lia].
  destruct (Qleb 50 _); [lia |]. destruct (Qleb 30 _); lia.
Qed.

Lemma viral_score_range (d : Deal.t) (s : Z) :
  calculate_viral_pricing_score d = Some s -> 0 <= s <= 30.
Proof.
  unfold calculate_viral_pricing_score.
  destruct (_effective_price_for_scoring d) as [pe |]; [| discriminate].
  intros [= <-].
  pose proof (price_band_range pe). pose proof (round_number_range d).
  pose proof (multibuy_points_range d). pose proof (savings_points_range d). lia.
Qed.

(** C5, as stated, fails. The two-decimal text of 3.99 ends in ".99", yet
    the deal gets no round-number bonus: its viral score is the 10 of its
    price band, not 18. *)
Lemma no_bonus_for_three_ninety_nine :
  existsb (fun ending =>
             Text.endswith ending
               (format_2f (num (Price.amount (price_of three_ninety_nine)))))
    Spec.listed_endings = true
  /\ round_number_points three_ninety_nine = 0
  /\ calculate_viral_pricing_score three_ninety_nine = Some 10.
Proof. repeat split; reflexivity. Qed.

(** C5, amended. When the two-decimal text of the raw amount ends in one
    of "0.99", "1.99", "2.49", "2.99", "4.99", "9.99", the viral score is
    the sum of the price band, the +8 round-number bonus, the multibuy
    bonus and the savings bonus, clamped to 30; and no viral score exceeds
    30. *)
Theorem viral_round_number_bonus (d : Deal.t) :
  (is_number (Price.amount (price_of d)) = true ->
   existsb (fun ending =>
              Text.endswith ending (format_2f (num (Price.amount (price_of d)))))
     ["0.99"; "1.99"; "2.49"; "2.99"; "4.99"; "9.99"] = true ->
   exists price_eff,
     _effective_price_for_scoring d = Some price_eff
     /\ calculate_viral_pricing_score d
        = Some (Z.min (price_band_points price_eff + 8
                       + multibuy_points d + savings_points d) 30))
  /\ (forall s, calculate_viral_pricing_score d = Some s -> s <= 30).
Proof.
  split.
  - intros Hnum Hend. destruct (effective_price_defined d Hnum) as [pe Hpe].
    exists pe. split; [exact Hpe |].
    unfold calculate_viral_pricing_score. rewrite Hpe.
    unfold round_number_points, round_number_endings. rewrite Hnum, Hend.
    reflexivity.
  - intros s Hs. apply (viral_score_range d s Hs).
Qed.

Lemma viral_round_number_bonus_witness :
  exists price_eff,
    _effective_price_for_scoring ten_ninety_nine = Some price_eff
    /\ calculate_viral_pricing_score ten_ninety_nine
       = Some (Z.min (price_band_points price_eff + 8
                      + multibuy_points ten_ninety_nine
                      + savings_points ten_ninety_nine) 30).
Proof.
  apply (proj1 (viral_round_number_bonus ten_ninety_nine)); reflexivity.
Defined.

(** ** Priority bonus *)

(** C2 on a deal named with keywords of two rules. "Chicken Breast Steak"
    at 5.00 per lb in MEAT is a priority deal through the steak rule alone
    (5.00 exceeds the 3.00 of the chicken_breast rule), so the first rule
    it fully matches has the bonus 25; [get_priority_bonus] returns the 30
    of the chicken_breast rule. *)
Theorem priority_bonus_of_unmatched_rule :
  is_priority_deal analyzer chicken_steak = true
  /\ Spec.first_matching_bonus analyzer chicken_steak = 25
  /\ get_priority_bonus analyzer chicken_steak = 30.
Proof. repeat split; reflexivity. Qed.

(** ** The debug variant *)

(** C7 on a "2 for $5" record with no amount of its own. [analyze_deals]
    applies the multibuy override before the exclusion check and returns
    the deal; [analyze_deals_debug] checks the record as given, excludes it
    for [missing_price_amount] and returns no deal. *)
Theorem debug_variant_drops_multibuy :
  (exists sd, analyze_deals analyzer [two_for_five] 6 None = Some [sd]
              /\ Deal.deal_id (base sd) = VInt 16)
  /\ analyze_deals_debug analyzer [two_for_five] 6 None
     = Some ([], [(two_for_five, "missing_price_amount")]).
Proof.
  split.
  - eexists. split; [vm_compute; reflexivity | reflexivity].
  - vm_compute. reflexivity.
Qed.

(** ** The tie-break order *)

(** What a three-way comparison must satisfy to order a sort. *)
Record Ordering {T : Type} (cmp : T -> T -> comparison) : Prop := {
  cmp_sym : forall a b, cmp b a = CompOpp (cmp a b);
  cmp_lt_trans : forall a b c, cmp a b = Lt -> cmp b c = Lt -> cmp a c = Lt;
  cmp_eq_l : forall a b c, cmp a b = Eq -> cmp a c = cmp b c
}.

Section OrderingFacts.

Context {T : Type} (cmp : T -> T -> comparison) (O : Ordering cmp).

Lemma cmp_eq_r a b c : cmp b c = Eq -> cmp a b = cmp a c.
Proof.
  intros H. rewrite (cmp_sym cmp O b a), (cmp_sym cmp O c a). f_equal.
  apply (cmp_eq_l cmp O). exact H.
Qed.

Lemma cmp_le_trans a b c : cmp a b <> Gt -> cmp b c <> Gt -> cmp a c <> Gt.
Proof.
  intros Hab Hbc.
  destruct (cmp a b) eqn:Eab; [| | congruence].
  - rewrite (cmp_eq_l cmp O a b c Eab). exact Hbc.
  - destruct (cmp b c) eqn:Ebc; [| | congruence].
    + rewrite <- (cmp_eq_r a b c Ebc), Eab. discriminate.
    + rewrite (cmp_lt_trans cmp O a b c Eab Ebc). discriminate.
Qed.

Lemma cmp_not_lt a b : cmp a b <> Lt -> cmp b a <> Gt.
Proof. intros H. rewrite (cmp_sym cmp O a b). destruct (cmp a b); simpl; congruence. Qed.

End OrderingFacts.

Definition cmp_pair {S T : Type} (c1 : S -> S -> comparison) (c2 : T -> T -> comparison)
    (x y : S * T) : comparison :=
  lex (c1 (fst x) (fst y)) (c2 (snd x) (snd y)).

Lemma Ordering_pair {S T : Type} (c1 : S -> S -> comparison) (c2 : T -> T -> comparison) :
  Ordering c1 -> Ordering c2 -> Ordering (cmp_pair c1 c2).
Proof.
  intros O1 O2. split; unfold cmp_pair.
  - intros [a1 a2] [b1 b2]. simpl.
    rewrite (cmp_sym c1 O1 a1 b1), (cmp_sym c2 O2 a2 b2).
    destruct (c1 a1 b1); reflexivity.
  - intros [a1 a2] [b1 b2] [c1' c2']. simpl. intros Hab Hbc.
    destruct (c1 a1 b1) eqn:E1; simpl in Hab; [| | discriminate].
    + rewrite (cmp_eq_l c1 O1 a1 b1 c1' E1).
      destruct (c1 b1 c1') eqn:E2; simpl in *; [| reflexivity | discriminate].
      apply (cmp_lt_trans c2 O2 a2 b2 c2' Hab Hbc).
    + destruct (c1 b1 c1') eqn:E2; simpl in Hbc; [| | discriminate].
      * rewrite <- (cmp_eq_r c1 O1 a1 b1 c1' E2), E1. reflexivity.
      * rewrite (cmp_lt_trans c1 O1 a1 b1 c1' E1 E2). reflexivity.
  - intros [a1 a2] [b1 b2] [c1' c2']. simpl. intros Hab.
    destruct (c1 a1 b1) eqn:E1; simpl in Hab; try discriminate.
    rewrite (cmp_eq_l c1 O1 a1 b1 c1' E1), (cmp_eq_l c2 O2 a2 b2 c2' Hab).
    reflexivity.
Qed.

Lemma Ordering_Z : Ordering Z.compare.
Proof.
  split.
  - intros a b. apply Z.compare_antisym.
  - intros a b c. rewrite !Z.compare_lt_iff. lia.
  - intros a b c H. apply Z.compare_eq in H. subst. reflexivity.
Qed.

Lemma Ordering_Q : Ordering Qcompare.
Proof.
  split.
  - intros a b. symmetry. apply Qcompare_antisym.
  - intros a b c. rewrite <- !Qlt_alt. apply Qlt_trans.
  - intros a b c H. apply Qeq_alt in H. rewrite H. reflexivity.
Qed.

Lemma Ordering_inf : Ordering compare_inf.
Proof.
  destruct Ordering_Q as [Hs Ht He]. split.
  - intros [a |] [b |]; simpl; auto.
  - intros [a |] [b |] [c |]; simpl; try discriminate; auto. apply Ht.
  - intros [a |] [b |] [c |]; simpl; try discriminate; auto.
Qed.

Lemma lex_assoc (a b c : comparison) : lex (lex a b) c = lex a (lex b c).
Proof. destruct a; reflexivity. Qed.

Lemma key_compare_pairs (k1 k2 : Key) :
  key_compare k1 k2
  = cmp_pair (cmp_pair (cmp_pair (cmp_pair Z.compare Z.compare) Qcompare) compare_inf)
      compare_inf k1 k2.
Proof.
  destruct k1 as [[[[s1 p1] v1] u1] a1], k2 as [[[[s2 p2] v2] u2] a2].
  unfold key_compare, cmp_pair. simpl. rewrite !lex_assoc. reflexivity.
Qed.

Lemma Ordering_key : Ordering key_compare.
Proof.
  pose proof (Ordering_pair _ _
    (Ordering_pair _ _
       (Ordering_pair _ _ (Ordering_pair _ _ Ordering_Z Ordering_Z) Ordering_Q)
       Ordering_inf) Ordering_inf) as [Hs Ht He].
  split; intros *; rewrite !key_compare_pairs; [apply Hs | apply Ht | apply He].
Qed.

Lemma key_le_trans (a b c : Key) : key_le a b -> key_le b c -> key_le a c.
Proof. apply (cmp_le_trans key_compare Ordering_key). Qed.

Lemma key_not_lt (a b : Key) : key_lt a b = false -> key_le b a.
Proof.
  unfold key_lt, key_le. intros H.
  apply (cmp_not_lt key_compare Ordering_key).
  destruct (key_compare a b); congruence.
Qed.

Lemma key_lt_le (a b : Key) : key_lt a b = true -> key_le a b.
Proof. unfold key_lt, key_le. destruct (key_compare a b); congruence. Qed.

(** ** Slices and the sort *)

Section ListFacts.

Context {A : Type}.

Lemma py_take_length (n : Z) (l : list A) : 0 <= n -> len (py_take n l) <= n.
Proof.
  intros H. unfold py_take, len.
  destruct (0 <=? n) eqn:E; [| lia].
  rewrite length_firstn. lia.
Qed.

Lemma In_firstn (n : nat) (l : list A) (x : A) : In x (firstn n l) -> In x l.
Proof.
  intros H. rewrite <- (firstn_skipn n l). apply in_or_app. left. exact H.
Qed.

Lemma py_take_In (n : Z) (l : list A) (x : A) : In x (py_take n l) -> In x l.
Proof. unfold py_take. destruct (0 <=? n); apply In_firstn. Qed.

Lemma py_take_all (n : Z) (l : list A) : len l <= n -> py_take n l = l.
Proof.
  unfold py_take, len. intros H.
  destruct (0 <=? n) eqn:E; [| lia].
  apply firstn_all2. lia.
Qed.

Lemma py_take_firstn (n : Z) (l : list A) : 0 <= n -> py_take n l = firstn (Z.to_nat n) l.
Proof. unfold py_take. intros H. destruct (0 <=? n) eqn:E; [reflexivity | lia]. Qed.


Variable key : A -> Key.

Lemma insert_by_key_perm (x : A) (l : list A) :
  Permutation (insert_by_key key x l) (x :: l).
Proof.
  induction l as [| y l IH]; simpl; [reflexivity |].
  destruct (key_lt (key y) (key x)); [| reflexivity].
  rewrite IH. apply perm_swap.
Qed.

Lemma sort_by_key_perm (l : list A) : Permutation (sort_by_key key l) l.
Proof.
  induction l as [| x l IH]; simpl; [reflexivity |].
  rewrite insert_by_key_perm. apply perm_skip, IH.
Qed.

Lemma sort_by_key_In (l : list A) (x : A) : In x (sort_by_key key l) <-> In x l.
Proof.
  split; apply Permutation_in; [| symmetry]; apply sort_by_key_perm.
Qed.

Lemma sort_by_key_length (l : list A) : length (sort_by_key key l) = length l.
Proof. apply Permutation_length, sort_by_key_perm. Qed.

Definition key_ordered (a b : A) : Prop := key_le (key a) (key b).

Lemma insert_by_key_sorted (x : A) (l : list A) :
  StronglySorted key_ordered l -> StronglySorted key_ordered (insert_by_key key x l).
Proof.
  induction 1 as [| y l Hs IH Hy]; simpl.
  - constructor; constructor.
  - destruct (key_lt (key y) (key x)) eqn:E.
    + constructor; [exact IH |].
      apply List.Forall_forall. intros z Hz.
      apply (Permutation_in _ (insert_by_key_perm x l)) in Hz.
      destruct Hz as [<- | Hz].
      * apply key_lt_le, E.
      * rewrite List.Forall_forall in Hy. apply Hy, Hz.
    + assert (Hxy : key_ordered x y) by apply key_not_lt, E.
      constructor; [constructor; assumption |].
      constructor; [exact Hxy |].
      apply List.Forall_forall. intros z Hz. rewrite List.Forall_forall in Hy.
      apply key_le_trans with (key y); [exact Hxy | apply Hy, Hz].
Qed.

Lemma sort_by_key_sorted (l : list A) : StronglySorted key_ordered (sort_by_key key l).
Proof.
  induction l as [| x l IH]; simpl; [constructor |].
  apply insert_by_key_sorted, IH.
Qed.

End ListFacts.

(** ** The allocation loops *)

Lemma round_half_even_nonneg (q : Q) : (0 <= q)%Q -> 0 <= round_half_even q.
Proof.
  intros H. unfold round_half_even.
  assert (0 <= Qfloor q).
  { change 0 with (Qfloor 0). apply Qfloor_resp_le, H. }
  destruct (Qcompare _ _); [destruct (Z.even _) | |]; lia.
Qed.

Lemma sum_counts_unfold (m : Counts) :
  sum_counts m = m MeatSeafood + m Produce + m SnacksOther.
Proof. unfold sum_counts. simpl. lia. Qed.

Lemma sum_counts_set (m : Counts) (c : CategoryGroup) (v : Z) :
  sum_counts (set_count m c v) = sum_counts m - m c + v.
Proof. rewrite !sum_counts_unfold. unfold set_count. destruct c; simpl; lia. Qed.

Lemma set_count_same (m : Counts) (c : CategoryGroup) (v : Z) : set_count m c v c = v.
Proof. unfold set_count. destruct c; reflexivity. Qed.

Lemma set_count_other (m : Counts) (c c' : CategoryGroup) (v : Z) :
  c <> c' -> set_count m c v c' = m c'.
Proof. unfold set_count. destruct c, c'; simpl; congruence. Qed.

Lemma In_categories (c : CategoryGroup) : In c categories.
Proof. destruct c; simpl; auto. Qed.

Section AllocationFacts.

Context {A : Type}.
Variable key : A -> Key.
Variable groups : CategoryGroup -> list A.
Variable remaining_slots : Z.
Hypothesis remaining_nonneg : 0 <= remaining_slots.

(** Every allocation stays within the inventory of its category. *)
Definition within_inventory (a : Counts) : Prop :=
  forall c, 0 <= a c <= available_counts groups c.

Lemma available_nonneg (c : CategoryGroup) : 0 <= available_counts groups c.
Proof. unfold available_counts, len. lia. Qed.

Lemma base_within (total : Z) :
  0 < total -> within_inventory (base_allocations groups remaining_slots total).
Proof.
  intros Ht c. unfold base_allocations.
  pose proof (available_nonneg c) as Ha.
  destruct (available_counts groups c =? 0) eqn:E; [lia |].
  assert (0 <= round_half_even
                 (inject_Z remaining_slots
                  * (inject_Z (available_counts groups c) / inject_Z total))).
  { apply round_half_even_nonneg. apply Qmult_le_0_compat.
    - change 0%Q with (inject_Z 0). rewrite <- Zle_Qle. exact remaining_nonneg.
    - apply Qle_shift_div_l.
      + change 0%Q with (inject_Z 0). rewrite <- Zlt_Qlt. exact Ht.
      + rewrite Qmult_0_l. change 0%Q with (inject_Z 0). rewrite <- Zle_Qle. exact Ha. }
  lia.
Qed.

Lemma best_next_fold (a : Counts) (l : list CategoryGroup)
    (init : option (CategoryGroup * A)) (c : CategoryGroup) (x : A) :
  fold_left (best_next_step key groups a) l init = Some (c, x) ->
  init = Some (c, x) \/ a c < available_counts groups c.
Proof.
  revert init. induction l as [| c' l IH]; intros init H; simpl in H; [auto |].
  apply IH in H. destruct H as [H | H]; [| auto].
  unfold best_next_step in H.
  destruct (a c' <? available_counts groups c') eqn:E; [| auto].
  apply Z.ltb_lt in E.
  destruct (nth_error _ _) as [cand |]; [| auto].
  destruct init as [[c0 b0] |].
  - destruct (key_lt _ _); [| auto]. injection H as <- <-. auto.
  - injection H as <- <-. auto.
Qed.

Lemma best_cat_spare (a : Counts) (c : CategoryGroup) :
  best_cat key groups a = Some c -> a c < available_counts groups c.
Proof.
  unfold best_cat. intros H.
  destruct (fold_left _ _ _) as [[c' x] |] eqn:E; [| discriminate].
  injection H as ->. apply best_next_fold in E. destruct E as [E | E]; [discriminate | exact E].
Qed.

Lemma add_slots_within (rounds : nat) (a : Counts) :
  within_inventory a -> within_inventory (add_slots key groups remaining_slots rounds a).
Proof.
  revert a. induction rounds as [| n IH]; intros a Ha; simpl; [exact Ha |].
  destruct (sum_counts a <? remaining_slots); [| exact Ha].
  destruct (best_cat key groups a) as [c |] eqn:E; [| exact Ha].
  apply IH. intros c'. apply best_cat_spare in E.
  destruct (decide (c = c')) as [<- | Hne].
  - rewrite set_count_same. pose proof (Ha c). lia.
  - rewrite set_count_other by exact Hne. apply Ha.
Qed.

Lemma add_slots_bound (rounds : nat) (a : Counts) :
  sum_counts a <= remaining_slots ->
  sum_counts (add_slots key groups remaining_slots rounds a) <= remaining_slots.
Proof.
  revert a. induction rounds as [| n IH]; intros a Ha; simpl; [exact Ha |].
  destruct (sum_counts a <? remaining_slots) eqn:E; [| exact Ha].
  apply Z.ltb_lt in E.
  destruct (best_cat key groups a) as [c |]; [| exact Ha].
  apply IH. rewrite sum_counts_set. lia.
Qed.

(** The rounds given to the adding loop are enough: it stops because its
    condition fails or because it breaks, not for want of rounds. *)
Lemma add_slots_exits (rounds : nat) (a : Counts) :
  remaining_slots - sum_counts a <= Z.of_nat rounds ->
  let r := add_slots key groups remaining_slots rounds a in
  remaining_slots <= sum_counts r \/ best_cat key groups r = None.
Proof.
  revert a. induction rounds as [| n IH]; intros a Hr; simpl.
  - left. lia.
  - destruct (sum_counts a <? remaining_slots) eqn:E.
    + destruct (best_cat key groups a) as [c |] eqn:Eb; [| right; exact Eb].
      apply IH. rewrite sum_counts_set. lia.
    + left. apply Z.ltb_ge in E. exact E.
Qed.

Lemma worst_fold_some (a : Counts) (l : list CategoryGroup)
    (init : option (CategoryGroup * A)) :
  init <> None -> fold_left (worst_item_step key groups a) l init <> None.
Proof.
  revert init. induction l as [| c l IH]; intros init H; simpl; [exact H |].
  apply IH. unfold worst_item_step.
  destruct (0 <? a c); [| exact H].
  destruct (nth_error _ _); [| exact H].
  destruct init as [[c0 w] |]; [| congruence].
  destruct (key_gt _ _); discriminate.
Qed.

Lemma worst_fold_found (a : Counts) (l : list CategoryGroup) (c : CategoryGroup)
    (init : option (CategoryGroup * A)) :
  within_inventory a -> In c l -> 0 < a c ->
  fold_left (worst_item_step key groups a) l init <> None.
Proof.
  intros Ha. revert init. induction l as [| c' l IH]; intros init Hin Hpos; [destruct Hin |].
  simpl. destruct Hin as [-> | Hin]; [| apply IH; assumption].
  apply worst_fold_some. unfold worst_item_step.
  assert (E : (0 <? a c) = true) by (apply Z.ltb_lt; exact Hpos). rewrite E.
  destruct (nth_error (groups c) (Z.to_nat (a c - 1))) eqn:En.
  - destruct init as [[c0 w] |]; [destruct (key_gt _ _) |]; discriminate.
  - apply nth_error_None in En. pose proof (Ha c) as Hc.
    unfold available_counts, len in Hc. lia.
Qed.

Lemma worst_fold (a : Counts) (l : list CategoryGroup)
    (init : option (CategoryGroup * A)) (c : CategoryGroup) (x : A) :
  fold_left (worst_item_step key groups a) l init = Some (c, x) ->
  init = Some (c, x) \/ 0 < a c.
Proof.
  revert init. induction l as [| c' l IH]; intros init H; simpl in H; [auto |].
  apply IH in H. destruct H as [H | H]; [| auto].
  unfold worst_item_step in H.
  destruct (0 <? a c') eqn:E; [| auto].
  apply Z.ltb_lt in E.
  destruct (nth_error _ _) as [item |]; [| auto].
  destruct init as [[c0 w0] |].
  - destruct (key_gt _ _); [| auto]. injection H as <- <-. auto.
  - injection H as <- <-. auto.
Qed.

Lemma worst_cat_positive (a : Counts) (c : CategoryGroup) :
  worst_cat key groups a = Some c -> 0 < a c.
Proof.
  unfold worst_cat. intros H.
  destruct (fold_left _ _ _) as [[c' x] |] eqn:E; [| discriminate].
  injection H as ->. apply worst_fold in E. destruct E as [E | E]; [discriminate | exact E].
Qed.

Lemma worst_cat_exists (a : Counts) :
  within_inventory a -> 0 < sum_counts a -> worst_cat key groups a <> None.
Proof.
  intros Ha Hs. unfold worst_cat.
  assert (exists c, 0 < a c) as [c Hc].
  { rewrite sum_counts_unfold in Hs.
    destruct (Z_lt_le_dec 0 (a MeatSeafood)); [eauto |].
    destruct (Z_lt_le_dec 0 (a Produce)); [eauto |].
    exists SnacksOther. lia. }
  pose proof (worst_fold_found a categories c None Ha (In_categories c) Hc) as H.
  destruct (fold_left _ _ _); [discriminate | congruence].
Qed.

Lemma remove_slots_within (rounds : nat) (a : Counts) :
  within_inventory a -> within_inventory (remove_slots key groups remaining_slots rounds a).
Proof.
  revert a. induction rounds as [| n IH]; intros a Ha; simpl; [exact Ha |].
  destruct (remaining_slots <? sum_counts a); [| exact Ha].
  destruct (worst_cat key groups a) as [c |] eqn:E; [| exact Ha].
  apply IH. intros c'. apply worst_cat_positive in E.
  destruct (decide (c = c')) as [<- | Hne].
  - rewrite set_count_same. pose proof (Ha c). lia.
  - rewrite set_count_other by exact Hne. apply Ha.
Qed.

(** The removing loop, given [sum - remaining_slots] rounds, ends with the
    sum equal to [remaining_slots]. *)
Lemma remove_slots_exact (rounds : nat) (a : Counts) :
  within_inventory a ->
  sum_counts a - remaining_slots = Z.of_nat rounds ->
  sum_counts (remove_slots key groups remaining_slots rounds a) = remaining_slots.
Proof.
  revert a. induction rounds as [| n IH]; intros a Ha Hr; simpl; [lia |].
  assert (E : (remaining_slots <? sum_counts a) = true) by (apply Z.ltb_lt; lia).
  rewrite E.
  destruct (worst_cat key groups a) as [c |] eqn:Ew.
  - apply IH.
    + intros c'. pose proof (worst_cat_positive a c Ew).
      destruct (decide (c = c')) as [<- | Hne].
      * rewrite set_count_same. pose proof (Ha c). lia.
      * rewrite set_count_other by exact Hne. apply Ha.
    + rewrite sum_counts_set. lia.
  - exfalso. apply (worst_cat_exists a Ha); [lia | exact Ew].
Qed.

Lemma final_allocations_ok :
  let a := final_allocations key groups remaining_slots in
  within_inventory a /\ sum_counts a <= remaining_slots.
Proof.
  unfold final_allocations.
  destruct (0 <? sum_counts (available_counts groups)) eqn:Et.
  - apply Z.ltb_lt in Et.
    set (a0 := base_allocations groups remaining_slots _).
    assert (H0 : within_inventory a0) by (apply base_within; exact Et).
    destruct (sum_counts a0 <? remaining_slots) eqn:E1.
    + apply Z.ltb_lt in E1.
      set (a1 := add_slots key groups remaining_slots _ a0).
      assert (H1 : within_inventory a1) by (apply add_slots_within; exact H0).
      assert (S1 : sum_counts a1 <= remaining_slots) by (apply add_slots_bound; lia).
      assert (E2 : (remaining_slots <? sum_counts a1) = false) by (apply Z.ltb_ge; lia).
      rewrite E2. split; assumption.
    + apply Z.ltb_ge in E1.
      destruct (remaining_slots <? sum_counts a0) eqn:E2.
      * apply Z.ltb_lt in E2. split.
        -- apply remove_slots_within; exact H0.
        -- rewrite remove_slots_exact; [lia | exact H0 | lia].
      * apply Z.ltb_ge in E2. split; [exact H0 | exact E2].
  - split.
    + intros c. pose proof (available_nonneg c). lia.
    + rewrite sum_counts_unfold. lia.
Qed.

Lemma py_take_len_within (n : Z) (l : list A) :
  0 <= n <= len l -> len (py_take n l) = n.
Proof.
  intros H. rewrite py_take_firstn by lia. unfold len in *.
  rewrite length_firstn. lia.
Qed.

Lemma take_allocated_length (a : Counts) :
  within_inventory a -> len (take_allocated groups a) = sum_counts a.
Proof.
  intros Ha. unfold take_allocated, len. simpl.
  rewrite !length_app. rewrite sum_counts_unfold.
  pose proof (py_take_len_within (a MeatSeafood) (groups MeatSeafood) (Ha _)).
  pose proof (py_take_len_within (a Produce) (groups Produce) (Ha _)).
  pose proof (py_take_len_within (a SnacksOther) (groups SnacksOther) (Ha _)).
  unfold len in *. simpl. lia.
Qed.

End AllocationFacts.

(** ** The selection *)

Section SelectionFacts.

Context {A : Type}.
Variable key : A -> Key.
Variable group : A -> CategoryGroup.
Variable ident : A -> pyval.


Lemma backfill_loop_In (ids : list pyval) (rem : Z) (scored added : list A) (x : A) :
  In x (backfill_loop ident ids rem scored added) -> In x added \/ In x scored.
Proof.
  revert added. induction scored as [| d rest IH]; intros added H; simpl in *; [auto |].
  destruct (rem <=? len added); [auto |].
  destruct (existsb _ _); apply IH in H.
  - tauto.
  - destruct H as [H | H]; [| tauto].
    apply in_app_or in H. simpl in H. tauto.
Qed.

Lemma take_allocated_In (groups : CategoryGroup -> list A) (a : Counts) (x : A) :
  In x (take_allocated groups a) -> exists c, In x (groups c).
Proof.
  unfold take_allocated. intros H. apply in_flat_map in H.
  destruct H as [c [_ H]]. exists c. apply py_take_In in H. exact H.
Qed.


Lemma balanced_added_In (rem : Z) (scored : list A) (x : A) :
  In x (balanced_added key group ident rem scored) -> In x scored.
Proof.
  unfold balanced_added, backfill. intros H.
  assert (Ht : forall y, In y (take_allocated (category_groups group scored)
                                 (final_allocations key (category_groups group scored) rem))
                         -> In y scored).
  { intros y Hy. apply take_allocated_In in Hy. destruct Hy as [c Hy].
    unfold category_groups in Hy. apply List.filter_In in Hy. tauto. }
  destruct (_ <? rem).
  - apply backfill_loop_In in H. destruct H as [H | H]; auto.
  - auto.
Qed.

(** Every return of the selection is a slice [ [:top_n] ]. *)
Lemma select_length (top_n : Z) (balance : bool) (scored priority : list A) :
  0 <= top_n -> len (select key group ident top_n balance scored priority) <= top_n.
Proof.
  intros H. unfold select.
  destruct scored, priority; try (unfold len; simpl; lia);
    (destruct (_ <=? 0); [apply py_take_length, H |]);
    (destruct (negb balance); apply py_take_length, H).
Qed.

Lemma select_In (top_n : Z) (balance : bool) (scored priority : list A) (x : A) :
  In x (select key group ident top_n balance scored priority) ->
  In x scored \/ In x priority.
Proof.
  assert (G : forall s p,
    In x (let scored_deals := sort_by_key key s in
          let priority_deals := sort_by_key key p in
          let remaining_slots := Z.max 0 (top_n - len priority_deals) in
          if remaining_slots <=? 0 then py_take top_n priority_deals
          else if negb balance
          then py_take top_n (priority_deals ++ py_take remaining_slots scored_deals)
          else py_take top_n
                 (sort_by_key key
                    (priority_deals
                     ++ balanced_added key group ident remaining_slots scored_deals))) ->
    In x s \/ In x p).
  { intros s p. cbv zeta. intros H.
    destruct (_ <=? 0).
    - apply py_take_In, sort_by_key_In in H. auto.
    - destruct (negb balance); apply py_take_In in H.
      + apply in_app_or in H. destruct H as [H | H].
        * apply sort_by_key_In in H. auto.
        * apply py_take_In, sort_by_key_In in H. auto.
      + apply sort_by_key_In, in_app_or in H. destruct H as [H | H].
        * apply sort_by_key_In in H. auto.
        * apply balanced_added_In, sort_by_key_In in H. auto. }
  unfold select. destruct scored, priority; [intros [] | apply G ..].
Qed.



End SelectionFacts.

(** ** Deduplication *)

Lemma dedupe_loop_first_occurrences (deals : list Deal.t) (seen : list DedupeKey)
    (out : list Deal.t) :
  dedupe_loop deals seen out = out ++ Spec.first_occurrences seen deals.
Proof.
  revert seen out. induction deals as [| d rest IH]; intros seen out; simpl.
  - rewrite app_nil_r. reflexivity.
  - destruct (bool_decide _); rewrite IH; [reflexivity |].
    rewrite <- app_assoc. reflexivity.
Qed.

Lemma first_occurrences_idem (seen : list DedupeKey) (deals : list Deal.t) :
  Spec.first_occurrences seen (Spec.first_occurrences seen deals)
  = Spec.first_occurrences seen deals.
Proof.
  revert seen. induction deals as [| d rest IH]; intros seen; simpl; [reflexivity |].
  destruct (bool_decide (dedupe_key d ∈ seen)) eqn:E; [apply IH |].
  simpl. rewrite E. f_equal. apply IH.
Qed.

Lemma first_occurrences_In (seen : list DedupeKey) (deals : list Deal.t) (d : Deal.t) :
  In d (Spec.first_occurrences seen deals) -> In d deals.
Proof.
  revert seen. induction deals as [| d' rest IH]; intros seen; simpl; [auto |].
  destruct (bool_decide _); simpl; intros H.
  - right. apply (IH _ H).
  - destruct H as [H | H]; [auto | right; apply (IH _ H)].
Qed.

Section AnalysisFacts.

Variable self : DealAnalyzer.

Lemma dedupe_spec (deals : list Deal.t) :
  _dedupe_deals self deals
  = if dedupe (config self) then Spec.first_occurrences [] deals else deals.
Proof.
  unfold _dedupe_deals. destruct (dedupe (config self)); simpl; [| reflexivity].
  apply dedupe_loop_first_occurrences.
Qed.

(** Deduplicating twice, as [analyze_deals] does, is deduplicating once. *)
Lemma dedupe_idem (deals : list Deal.t) :
  _dedupe_deals self (_dedupe_deals self deals) = _dedupe_deals self deals.
Proof.
  rewrite !dedupe_spec. destruct (dedupe (config self)); [| reflexivity].
  apply first_occurrences_idem.
Qed.

Lemma dedupe_In (deals : list Deal.t) (d : Deal.t) :
  In d (_dedupe_deals self deals) -> In d deals.
Proof.
  rewrite dedupe_spec. destruct (dedupe (config self)); [| auto].
  apply first_occurrences_In.
Qed.

(** ** The scoring loop *)

Lemma kept_amount_number (d : Deal.t) :
  should_exclude self d = false -> is_number (Price.amount (price_of d)) = true.
Proof.
  unfold should_exclude. intros H.
  destruct (is_number (Price.amount (price_of d))) eqn:E; [reflexivity |].
  rewrite (missing_amount_reason self d E) in H. discriminate.
Qed.

Lemma total_score_defined (d : Deal.t) :
  is_number (Price.amount (price_of d)) = true ->
  exists score, calculate_total_score self d = Some score.
Proof.
  intros H. unfold calculate_total_score, calculate_viral_pricing_score.
  destruct (effective_price_defined d H) as [pe ->]. eauto.
Qed.

(** Scoring never raises on a deal that passed the exclusion filter. *)
Lemma scored_copy_defined (d : Deal.t) :
  Spec.kept self d = true -> exists sd, scored_copy self d = Some sd.
Proof.
  unfold Spec.kept. intros H. apply negb_true_iff in H.
  unfold scored_copy.
  destruct (total_score_defined _ (kept_amount_number _ H)) as [score ->].
  destruct (compute_unit_price d) as [[up u] disp]. eauto.
Qed.

Lemma scored_copy_fields (d : Deal.t) (sd : ScoredDeal) :
  scored_copy self d = Some sd ->
  base sd = _apply_multibuy_overrides d
  /\ calculate_total_score self (_apply_multibuy_overrides d) = Some (engagement_score sd)
  /\ category_group sd = categorize_deal d
  /\ is_priority sd = is_priority_deal self d.
Proof.
  unfold scored_copy.
  destruct (calculate_total_score self _) as [score |]; [| discriminate].
  destruct (compute_unit_price d) as [[up u] disp].
  intros [= <-]. simpl. auto.
Qed.

(** The two lists the loop fills: the scored copies of the kept deals,
    split by priority, in input order. *)
Lemma scoring_loop_spec (deals : list Deal.t) (scored priority : list ScoredDeal) :
  let kept := List.filter (Spec.kept self) deals in
  scoring_loop self deals scored priority
  = Some (scored ++ omap (scored_copy self)
                      (List.filter (fun d => negb (is_priority_deal self d)) kept),
          priority ++ omap (scored_copy self)
                        (List.filter (is_priority_deal self) kept)).
Proof.
  revert scored priority. induction deals as [| d rest IH]; intros scored priority; simpl.
  - rewrite !app_nil_r. reflexivity.
  - assert (Hk : Spec.kept self d
                 = negb (should_exclude self (_apply_multibuy_overrides d)))
      by reflexivity.
    rewrite Hk.
    destruct (should_exclude self (_apply_multibuy_overrides d)) eqn:Ex; simpl.
    + apply IH.
    + destruct (scored_copy_defined d) as [sd Hsd]; [exact Hk |].
      rewrite Hsd.
      destruct (scored_copy_fields d sd Hsd) as (_ & _ & _ & Hp). rewrite Hp.
      destruct (is_priority_deal self d); simpl; rewrite IH, ?Hsd, <- app_assoc; reflexivity.
Qed.

(** [analyze_deals] always returns: the selection over the scored copies of
    the survivors. *)
Lemma analyze_deals_spec (deals : list Deal.t) (top_n : Z) (balance_override : option bool) :
  analyze_deals self deals top_n balance_override
  = Some (select tie_break_key category_group (fun d => Deal.deal_id (base d))
            top_n (default (balance_categories (config self)) balance_override)
            (omap (scored_copy self) (Spec.others self deals))
            (omap (scored_copy self) (Spec.qualifying self deals))).
Proof.
  unfold analyze_deals, Spec.others, Spec.qualifying, Spec.survivors.
  destruct (_dedupe_deals self deals) as [| d rest] eqn:E; [reflexivity |].
  rewrite <- E, dedupe_idem, scoring_loop_spec. reflexivity.
Qed.

End AnalysisFacts.

(** ** Length of the result *)

(** C3, as stated, fails for a negative [top_n]: with two priority deals
    and [top_n = -1] the slice [ [:-1] ] returns one deal. *)
Lemma negative_top_n_returns_a_deal :
  exists r, analyze_deals analyzer [chicken; ribeye] (-1) None = Some r
            /\ len r = 1 /\ ~ len r <= -1.
Proof. eexists. split; [vm_compute; reflexivity |]. split; [reflexivity | unfold len; simpl; lia]. Qed.

(** C3, amended. For every input list, every [top_n >= 0] and either
    balance setting, [analyze_deals] returns a list of length at most
    [top_n]. *)
Theorem analyze_length_bound (self : DealAnalyzer) (deals : list Deal.t) (top_n : Z)
    (balance_override : option bool) :
  0 <= top_n ->
  exists r, analyze_deals self deals top_n balance_override = Some r
            /\ len r <= top_n.
Proof.
  intros H. eexists. split; [apply analyze_deals_spec |].
  apply select_length, H.
Qed.

Lemma analyze_length_bound_witness :
  exists r, analyze_deals analyzer week 3 (Some false) = Some r /\ len r <= 3.
Proof. apply (analyze_length_bound analyzer week 3 (Some false)). lia. Defined.

(** ** Lower bound of the engagement score *)

Section ScoreFacts.

Variable self : DealAnalyzer.

Lemma premium_value_min (d : Deal.t) : 5 <= calculate_premium_value self d.
Proof.
  unfold calculate_premium_value.
  repeat match goal with |- context [if ?b then _ else _] => destruct b end; lia.
Qed.

Lemma social_appeal_min (d : Deal.t) : 5 <= calculate_social_appeal self d.
Proof.
  unfold calculate_social_appeal.
  repeat match goal with |- context [if ?b then _ else _] => destruct b end; lia.
Qed.

Lemma brand_recognition_min (d : Deal.t) : 5 <= calculate_brand_recognition self d.
Proof.
  unfold calculate_brand_recognition.
  repeat match goal with |- context [if ?b then _ else _] => destruct b end; lia.
Qed.

Lemma discount_depth_min (d : Deal.t) : 0 <= calculate_discount_depth d.
Proof.
  unfold calculate_discount_depth.
  destruct (is_number _); [apply depth_of_percent_range |].
  destruct (_ && _); [apply depth_of_percent_range | lia].
Qed.

Hypothesis weights_min : map_Forall (fun _ w => 5 <= w) (category_weights (config self)).
Hypothesis bonus_min :
  Forall (fun entry => 0 <= Rule.bonus_score (snd entry)) (priority_deals (config self)).

Lemma category_weight_min (d : Deal.t) : 5 <= calculate_category_weight self d.
Proof.
  unfold calculate_category_weight.
  destruct (category_weights (config self) !! or_empty (Deal.category d)) as [w |] eqn:E;
    simpl; [| lia].
  apply (weights_min _ _ E).
Qed.

Lemma priority_bonus_min (d : Deal.t) : 0 <= get_priority_bonus self d.
Proof.
  unfold get_priority_bonus. destruct (negb _); [lia |].
  destruct (find _ _) as [entry |] eqn:E; [| lia].
  apply find_some in E. destruct E as [E _].
  rewrite List.Forall_forall in bonus_min. apply bonus_min, E.
Qed.

Lemma total_score_min (d : Deal.t) (score : Z) :
  calculate_total_score self d = Some score -> 20 <= score.
Proof.
  unfold calculate_total_score.
  destruct (calculate_viral_pricing_score d) as [viral |] eqn:E; [| discriminate].
  intros [= <-].
  pose proof (viral_score_range d viral E). pose proof (discount_depth_min d).
  pose proof (category_weight_min d). pose proof (premium_value_min d).
  pose proof (social_appeal_min d). pose proof (brand_recognition_min d).
  pose proof (priority_bonus_min d). lia.
Qed.

End ScoreFacts.

Lemma In_omap {X Y : Type} (f : X -> option Y) (l : list X) (y : Y) :
  In y (omap f l) <-> exists x, In x l /\ f x = Some y.
Proof.
  rewrite <- list_elem_of_In, list_elem_of_omap.
  split; intros [x [H1 H2]]; exists x; split; auto; apply list_elem_of_In; exact H1.
Qed.

(** C10, as stated, fails. The weight table is configuration: with MEAT
    weighted 0 the category weight of a MEAT deal is 0, and
    [analyze_deals] returns it with the engagement score 15. *)
Lemma engagement_score_below_twenty :
  calculate_category_weight flat_meat_analyzer pork_roast = 0
  /\ option_map (map engagement_score)
       (analyze_deals flat_meat_analyzer [pork_roast] 6 None) = Some [15].
Proof. split; vm_compute; reflexivity. Qed.

(** C10, amended. The premium-value, social-appeal and brand-recognition
    components are at least 5 on every deal; when every configured
    category weight is at least 5 and every configured bonus is at least 0,
    as in the default configuration, so is the category weight, and every
    deal returned by [analyze_deals] has an engagement score of at least
    20. *)
Theorem engagement_score_at_least_twenty (self : DealAnalyzer) (deals : list Deal.t)
    (top_n : Z) (balance_override : option bool) :
  (forall d, 5 <= calculate_premium_value self d
             /\ 5 <= calculate_social_appeal self d
             /\ 5 <= calculate_brand_recognition self d)
  /\ (map_Forall (fun _ w => 5 <= w) (category_weights (config self)) ->
      Forall (fun entry => 0 <= Rule.bonus_score (snd entry)) (priority_deals (config self)) ->
      (forall d, 5 <= calculate_category_weight self d)
      /\ exists r, analyze_deals self deals top_n balance_override = Some r
                   /\ forall sd, In sd r -> 20 <= engagement_score sd).
Proof.
  split.
  - intros d. split; [apply premium_value_min |].
    split; [apply social_appeal_min | apply brand_recognition_min].
  - intros Hw Hb. split; [intros d; apply category_weight_min, Hw |].
    eexists. split; [apply analyze_deals_spec |].
    intros sd Hin. apply select_In in Hin.
    assert (exists d, scored_copy self d = Some sd) as [d Hd].
    { destruct Hin as [Hin | Hin]; apply In_omap in Hin;
        destruct Hin as [d [_ Hd]]; eauto. }
    apply scored_copy_fields in Hd. destruct Hd as (_ & Hs & _).
    apply (total_score_min self Hw Hb _ _ Hs).
Qed.

Lemma default_weights_min :
  map_Forall (fun _ w => 5 <= w) (category_weights default_config).
Proof.
  intros k w Hlk.
  change (category_weights default_config)
    with (list_to_map default_category_weights_table : gmap string Z) in Hlk.
  apply elem_of_list_to_map_2 in Hlk.
  assert (F : Forall (fun kw : string * Z => 5 <= snd kw) default_category_weights_table)
    by (repeat constructor; simpl; lia).
  rewrite List.Forall_forall in F. apply (F (k, w)), list_elem_of_In, Hlk.
Qed.

Lemma default_bonus_min :
  Forall (fun entry => 0 <= Rule.bonus_score (snd entry)) (priority_deals default_config).
Proof. repeat constructor; simpl; lia. Qed.

Lemma engagement_score_at_least_twenty_witness :
  exists r, analyze_deals analyzer week 3 None = Some r
            /\ forall sd, In sd r -> 20 <= engagement_score sd.
Proof.
  apply (proj2 (engagement_score_at_least_twenty analyzer week 3 None)
           default_weights_min default_bonus_min).
Defined.

(** ** Priority deals in the result *)

Lemma omap_length_defined {X Y : Type} (f : X -> option Y) (l : list X) :
  (forall x, In x l -> exists y, f x = Some y) -> length (omap f l) = length l.
Proof.
  induction l as [| x l IH]; intros H; [reflexivity |].
  destruct (H x (or_introl eq_refl)) as [y Hy].
  change (omap f (x :: l)) with (match f x with Some y => y :: omap f l | None => omap f l end).
  rewrite Hy. simpl. f_equal. apply IH. intros z Hz. apply H. right. exact Hz.
Qed.

Lemma qualifying_kept (self : DealAnalyzer) (deals : list Deal.t) (d : Deal.t) :
  In d (Spec.qualifying self deals) ->
  In d (_dedupe_deals self deals)
  /\ Spec.kept self d = true
  /\ is_priority_deal self d = true.
Proof.
  unfold Spec.qualifying, Spec.survivors. intros H.
  apply List.filter_In in H. destruct H as [H Hp].
  apply List.filter_In in H. tauto.
Qed.


Lemma ranking_length (self : DealAnalyzer) (deals : list Deal.t) :
  length (omap (scored_copy self) (Spec.qualifying self deals))
  = length (Spec.qualifying self deals).
Proof.
  apply omap_length_defined. intros d Hd.
  apply scored_copy_defined. apply (qualifying_kept self deals d Hd).
Qed.



(** ** The store: what a computation writes to *)

Module StoreFacts.

Import Store.

Section Rules.

Variable h0 : heap.

Lemma preserves_ret {A : Type} (a : A) (post : A -> Prop) :
  post a -> preserves h0 (mret a) post.
Proof. intros Hp h a' h' Hsub [= <- <-]. auto. Qed.

Lemma preserves_bind {A B : Type} (m : M A) (f : A -> M B)
    (mid : A -> Prop) (post : B -> Prop) :
  preserves h0 m mid ->
  (forall a, mid a -> preserves h0 (f a) post) ->
  preserves h0 (m ≫= f) post.
Proof.
  intros Hm Hf h b h' Hsub Hrun. unfold mbind, M_bind in Hrun.
  destruct (m h) as [[a h1] |] eqn:E; [| discriminate].
  destruct (Hm h a h1 Hsub E) as [Hsub1 Ha].
  apply (Hf a Ha h1 b h' Hsub1 Hrun).
Qed.

Lemma preserves_weaken {A : Type} (m : M A) (post post' : A -> Prop) :
  preserves h0 m post -> (forall a, post a -> post' a) -> preserves h0 m post'.
Proof.
  intros Hm Hw h a h' Hsub Hrun. destruct (Hm h a h' Hsub Hrun). auto.
Qed.

Lemma preserves_raise {A : Type} (post : A -> Prop) : preserves h0 raise post.
Proof. intros h a h' _ H. discriminate H. Qed.

Lemma preserves_get_heap : preserves h0 get_heap (fun _ => True).
Proof. intros h a h' Hsub [= <- <-]. auto. Qed.

(** A new object is never one of [h0]. *)
Lemma preserves_alloc (o : obj) : preserves h0 (alloc o) (fresh_for h0).
Proof.
  intros h l h' Hsub [= <- <-].
  assert (Hl : h !! fresh (dom h) = None).
  { apply not_elem_of_dom, is_fresh. }
  assert (Hf : h0 !! fresh (dom h) = None).
  { destruct (h0 !! fresh (dom h)) as [o' |] eqn:E; [| reflexivity].
    rewrite (lookup_weaken _ _ _ _ E Hsub) in Hl. discriminate. }
  split; [| exact Hf].
  apply insert_subseteq_r; assumption.
Qed.

Lemma preserves_read (l : loc) : preserves h0 (read l) (fun _ => True).
Proof.
  intros h o h' Hsub Hrun. unfold read in Hrun.
  destruct (h !! l); [| discriminate]. injection Hrun as <- <-. auto.
Qed.

(** An update in place is harmless when its target is not an object of [h0]. *)
Lemma preserves_write (l : loc) (o : obj) :
  fresh_for h0 l -> preserves h0 (write l o) (fun _ => True).
Proof.
  intros Hl h u h' Hsub Hrun. unfold write in Hrun.
  destruct (h !! l); [| discriminate]. injection Hrun as <- <-.
  split; [| exact I]. apply insert_subseteq_r; assumption.
Qed.

Lemma preserves_read_dict (l : loc) : preserves h0 (read_dict l) (fun _ => True).
Proof.
  apply preserves_bind with (mid := fun _ => True); [apply preserves_read |].
  intros [d | x] _; [apply preserves_ret; exact I | apply preserves_raise].
Qed.

Lemma preserves_read_list (l : loc) : preserves h0 (read_list l) (fun _ => True).
Proof.
  apply preserves_bind with (mid := fun _ => True); [apply preserves_read |].
  intros [d | x] _; [apply preserves_raise | apply preserves_ret; exact I].
Qed.

Lemma preserves_dict_set (l : loc) (k : string) (v : hval) :
  fresh_for h0 l -> preserves h0 (dict_set l k v) (fun _ => True).
Proof.
  intros Hl. apply preserves_bind with (mid := fun _ => True);
    [apply preserves_read_dict |].
  intros d _. apply preserves_write, Hl.
Qed.

Lemma preserves_dict_copy (l : loc) : preserves h0 (dict_copy l) (fresh_for h0).
Proof.
  apply preserves_bind with (mid := fun _ => True); [apply preserves_read_dict |].
  intros d _. apply preserves_alloc.
Qed.

Lemma preserves_list_append (l v : loc) :
  fresh_for h0 l -> preserves h0 (list_append l v) (fun _ => True).
Proof.
  intros Hl. apply preserves_bind with (mid := fun _ => True);
    [apply preserves_read_list |].
  intros x _. apply preserves_write, Hl.
Qed.

Lemma preserves_list_extend (l : loc) (vs : list loc) :
  fresh_for h0 l -> preserves h0 (list_extend l vs) (fun _ => True).
Proof.
  intros Hl. apply preserves_bind with (mid := fun _ => True);
    [apply preserves_read_list |].
  intros x _. apply preserves_write, Hl.
Qed.

Lemma preserves_list_copy (l : loc) : preserves h0 (list_copy l) (fresh_for h0).
Proof.
  apply preserves_bind with (mid := fun _ => True); [apply preserves_read_list |].
  intros x _. apply preserves_alloc.
Qed.

Lemma preserves_view (l : loc) : preserves h0 (view l) (fun _ => True).
Proof.
  apply preserves_bind with (mid := fun _ => True); [apply preserves_read_dict |].
  intros d _. apply preserves_bind with (mid := fun _ => True);
    [apply preserves_get_heap |].
  intros h _. apply preserves_ret. exact I.
Qed.

Lemma preserves_ret_any {A : Type} (a : A) : preserves h0 (mret a) (fun _ => True).
Proof. apply preserves_ret. exact I. Qed.

End Rules.

Create HintDb frame.

#[local] Hint Resolve preserves_ret_any preserves_raise preserves_get_heap
  preserves_alloc preserves_read preserves_write preserves_read_dict
  preserves_read_list preserves_dict_set preserves_dict_copy
  preserves_list_append preserves_list_extend preserves_list_copy
  preserves_view : frame.

(** One statement of a computation after the other: a call whose result
    is a new object, a call of which nothing is kept, or a branch. *)
Ltac frame :=
  repeat first
    [ solve [auto with frame]
    | match goal with
      | |- preserves ?h _ _ =>
          apply preserves_bind with (mid := fresh_for h);
          [solve [auto with frame] | intros ? ?]
      end
    | apply preserves_bind with (mid := fun _ => True);
        [solve [auto with frame | frame] | intros ? _]
    | match goal with
      | |- preserves _ (match ?x with _ => _ end) _ => destruct x
      | |- preserves _ (match ?x with _ => _ end ≫= _) _ => destruct x
      | |- preserves _ (match ?x with _ => _ end _) _ => destruct x
      end ].

Section Functions.

Variable self : DealAnalyzer.
Variable h0 : heap.

Lemma preserves_override (deal : loc) :
  preserves h0 (_apply_multibuy_overrides deal) (fun _ => True).
Proof. unfold _apply_multibuy_overrides. frame. Qed.

#[local] Hint Resolve preserves_override : frame.

Lemma preserves_compute_unit_price (deal : loc) :
  preserves h0 (compute_unit_price deal) (fun _ => True).
Proof. unfold compute_unit_price. frame. Qed.

#[local] Hint Resolve preserves_compute_unit_price : frame.

Lemma preserves_should_exclude (deal : loc) :
  preserves h0 (should_exclude self deal) (fun _ => True).
Proof. unfold should_exclude. frame. Qed.

Lemma preserves_categorize_deal (deal : loc) :
  preserves h0 (categorize_deal deal) (fun _ => True).
Proof. unfold categorize_deal. frame. Qed.

Lemma preserves_is_priority_deal (deal : loc) :
  preserves h0 (is_priority_deal self deal) (fun _ => True).
Proof. unfold is_priority_deal. frame. Qed.

#[local] Hint Resolve preserves_should_exclude preserves_categorize_deal
  preserves_is_priority_deal : frame.

Lemma preserves_get_priority_bonus (deal : loc) :
  preserves h0 (get_priority_bonus self deal) (fun _ => True).
Proof. unfold get_priority_bonus. frame. Qed.

Lemma preserves_effective_price (deal : loc) :
  preserves h0 (_effective_price_for_scoring deal) (fun _ => True).
Proof. unfold _effective_price_for_scoring. frame. Qed.

#[local] Hint Resolve preserves_get_priority_bonus preserves_effective_price : frame.

Lemma preserves_viral (deal : loc) :
  preserves h0 (calculate_viral_pricing_score deal) (fun _ => True).
Proof. unfold calculate_viral_pricing_score. frame. Qed.

#[local] Hint Resolve preserves_viral : frame.

Lemma preserves_total_score (deal : loc) :
  preserves h0 (calculate_total_score self deal) (fun _ => True).
Proof. unfold calculate_total_score. frame. Qed.

#[local] Hint Resolve preserves_total_score : frame.

Lemma preserves_dedupe_loop (deals : list loc) (seen : list DedupeKey) (out : loc) :
  fresh_for h0 out -> preserves h0 (dedupe_loop deals seen out) (fun _ => True).
Proof.
  intros Hout. revert seen. induction deals as [| d rest IH]; intros seen; simpl.
  - frame.
  - frame; try apply IH.
Qed.

#[local] Hint Resolve preserves_dedupe_loop : frame.

Lemma preserves_dedupe_deals (deals : loc) :
  preserves h0 (_dedupe_deals self deals) (fun _ => True).
Proof. unfold _dedupe_deals. frame. Qed.

Lemma preserves_scoring_step (scored_deals priority_deals deal : loc) :
  fresh_for h0 scored_deals -> fresh_for h0 priority_deals ->
  preserves h0 (scoring_step self scored_deals priority_deals deal) (fun _ => True).
Proof. intros Hs Hp. unfold scoring_step. frame. Qed.

#[local] Hint Resolve preserves_dedupe_deals preserves_scoring_step : frame.

Lemma preserves_scoring_loop (deals : list loc) (scored_deals priority_deals : loc) :
  fresh_for h0 scored_deals -> fresh_for h0 priority_deals ->
  preserves h0 (scoring_loop self deals scored_deals priority_deals) (fun _ => True).
Proof.
  intros Hs Hp. induction deals as [| d rest IH]; simpl.
  - frame.
  - frame; try apply IH.
Qed.

Lemma preserves_list_sort (l : loc) :
  fresh_for h0 l -> preserves h0 (list_sort l) (fun _ => True).
Proof. intros Hl. unfold list_sort. frame. Qed.

Lemma preserves_list_slice (l : loc) (n : Z) :
  preserves h0 (list_slice l n) (fun _ => True).
Proof.
  unfold list_slice. frame.
  apply preserves_weaken with (post := fresh_for h0); [frame | auto].
Qed.

#[local] Hint Resolve preserves_scoring_loop preserves_list_sort
  preserves_list_slice : frame.

Lemma preserves_alloc_any (o : obj) : preserves h0 (alloc o) (fun _ => True).
Proof. apply preserves_weaken with (post := fresh_for h0); [frame | auto]. Qed.

#[local] Hint Resolve preserves_alloc_any : frame.

Lemma preserves_analyze_deals (deals : loc) (top_n : Z) (balance_override : option bool) :
  preserves h0 (analyze_deals self deals top_n balance_override) (fun _ => True).
Proof. unfold analyze_deals. frame. Qed.

End Functions.

Lemma preserves_unchanged {A : Type} (m : M A) :
  (forall h0, preserves h0 m (fun _ => True)) -> leaves_input_unchanged m.
Proof.
  intros Hm h a h' Hrun l o Hl.
  destruct (Hm h h a h' (reflexivity h) Hrun) as [Hsub _].
  apply (lookup_weaken _ _ _ _ Hl Hsub).
Qed.

End StoreFacts.

(** C9. A call to [analyze_deals] leaves every object of the store it was
    called in as it was: the input list, each deal dictionary and each
    nested price dictionary keep their content; what the call writes to
    are the copies and lists it allocated.  The same holds of the multibuy
    override, of the unit price and of the scoring of one deal. *)
Theorem analyze_deals_leaves_input_unchanged (self : DealAnalyzer) (deals deal : Store.loc)
    (top_n : Z) (balance_override : option bool) :
  Store.leaves_input_unchanged (Store.analyze_deals self deals top_n balance_override)
  /\ Store.leaves_input_unchanged (Store._apply_multibuy_overrides deal)
  /\ Store.leaves_input_unchanged (Store.compute_unit_price deal)
  /\ Store.leaves_input_unchanged (Store.calculate_total_score self deal).
Proof.
  repeat split; apply StoreFacts.preserves_unchanged; intros h0.
  - apply StoreFacts.preserves_analyze_deals.
  - apply StoreFacts.preserves_override.
  - apply StoreFacts.preserves_compute_unit_price.
  - apply StoreFacts.preserves_total_score.
Qed.

(** On the sample store the call returns, and the six loaded objects are
    unchanged in the store it ends in. *)
Lemma analyze_deals_leaves_input_unchanged_witness :
  exists result h',
    Store.analyze_deals analyzer 5%nat 6 None loaded = Some (result, h')
    /\ forall l o, loaded !! l = Some o -> h' !! l = Some o.
Proof.
  destruct (Store.analyze_deals analyzer 5%nat 6 None loaded) as [[result h'] |] eqn:E.
  - exists result, h'. split; [reflexivity |].
    apply (proj1 (analyze_deals_leaves_input_unchanged analyzer 5%nat 0%nat 6 None)
             loaded result h' E).
  - vm_compute in E. discriminate E.
Defined.

(** * Further properties of the analyzer *)

(** ** Deduplication keeps first occurrences *)

Lemma first_occurrences_sublist (seen : list DedupeKey) (deals : list Deal.t) :
  sublist (Spec.first_occurrences seen deals) deals.
Proof.
  revert seen. induction deals as [| d rest IH]; intros seen; simpl.
  - constructor.
  - destruct (bool_decide _).
    + apply sublist_cons, IH.
    + apply sublist_skip, IH.
Qed.

Lemma first_occurrences_keys (seen : list DedupeKey) (deals : list Deal.t) :
  NoDup (map dedupe_key (Spec.first_occurrences seen deals))
  /\ forall d, In d (Spec.first_occurrences seen deals) -> dedupe_key d ∉ seen.
Proof.
  revert seen. induction deals as [| d rest IH]; intros seen; simpl.
  - split; [constructor | intros d []].
  - destruct (bool_decide (dedupe_key d ∈ seen)) eqn:E.
    + apply IH.
    + apply bool_decide_eq_false in E.
      destruct (IH (dedupe_key d :: seen)) as [Hnd Hfresh]. split.
      * simpl. apply NoDup_cons. split; [| exact Hnd].
        intros Hin. apply list_elem_of_In, in_map_iff in Hin.
        destruct Hin as [x [Hk Hx]]. apply (Hfresh x Hx).
        rewrite Hk. apply list_elem_of_here.
      * intros x [<- | Hx]; [exact E |].
        intros Hin. apply (Hfresh x Hx). apply list_elem_of_further, Hin.
Qed.

Lemma first_occurrences_covers (seen : list DedupeKey) (deals : list Deal.t) (d : Deal.t) :
  In d deals ->
  dedupe_key d ∈ seen
  \/ exists d', In d' (Spec.first_occurrences seen deals) /\ dedupe_key d' = dedupe_key d.
Proof.
  revert seen. induction deals as [| x rest IH]; intros seen Hin; [destruct Hin |].
  simpl. destruct (bool_decide (dedupe_key x ∈ seen)) eqn:E.
  - apply bool_decide_eq_true in E. destruct Hin as [<- | Hin]; [auto | apply IH, Hin].
  - destruct Hin as [<- | Hin].
    + right. exists x. simpl. auto.
    + destruct (IH (dedupe_key x :: seen) Hin) as [Hs | [d' [Hd' Hk]]].
      * apply list_elem_of_In in Hs. destruct Hs as [Hs | Hs].
        -- right. exists x. simpl. auto.
        -- left. apply list_elem_of_In, Hs.
      * right. exists d'. simpl. auto.
Qed.

Lemma first_occurrences_first (seen : list DedupeKey) (deals : list Deal.t) (d : Deal.t) :
  In d (Spec.first_occurrences seen deals) ->
  exists before after,
    deals = before ++ d :: after
    /\ forall x, In x before -> dedupe_key x <> dedupe_key d.
Proof.
  revert seen. induction deals as [| x rest IH]; intros seen Hin; [destruct Hin |].
  simpl in Hin. destruct (bool_decide (dedupe_key x ∈ seen)) eqn:E.
  - apply bool_decide_eq_true in E.
    pose proof (proj2 (first_occurrences_keys seen rest) d Hin) as Hfresh.
    destruct (IH seen Hin) as (before & after & -> & Hb).
    exists (x :: before), after. split; [reflexivity |].
    intros y [<- | Hy]; [| apply Hb, Hy]. intros Heq. apply Hfresh. rewrite <- Heq. exact E.
  - destruct Hin as [<- | Hin].
    + exists [], rest. split; [reflexivity | intros y []].
    + pose proof (proj2 (first_occurrences_keys _ rest) d Hin) as Hfresh.
      destruct (IH _ Hin) as (before & after & -> & Hb).
      exists (x :: before), after. split; [reflexivity |].
      intros y [<- | Hy]; [| apply Hb, Hy]. intros Heq. apply Hfresh.
      rewrite <- Heq. apply list_elem_of_here.
Qed.

(** X1. With deduplication enabled, [_dedupe_deals] returns a subsequence
    of its input in which no two deals share a dedupe key, every input
    deal has its key represented, and the deal kept for a key is the first
    of the input with that key. *)
Theorem dedupe_keeps_first_occurrences (self : DealAnalyzer) (deals : list Deal.t) :
  dedupe (config self) = true ->
  let out := _dedupe_deals self deals in
  sublist out deals
  /\ NoDup (map dedupe_key out)
  /\ (forall d, In d deals -> exists d', In d' out /\ dedupe_key d' = dedupe_key d)
  /\ (forall d, In d out ->
      exists before after,
        deals = before ++ d :: after
        /\ forall x, In x before -> dedupe_key x <> dedupe_key d).
Proof.
  intros Hon. cbv zeta. rewrite dedupe_spec, Hon.
  split; [apply first_occurrences_sublist |].
  split; [apply first_occurrences_keys |].
  split; [| apply first_occurrences_first].
  intros d Hd. destruct (first_occurrences_covers [] deals d Hd) as [Hs | H]; [| exact H].
  apply list_elem_of_In in Hs. destruct Hs.
Qed.

Lemma dedupe_keeps_first_occurrences_witness :
  let out := _dedupe_deals analyzer week in
  sublist out week
  /\ NoDup (map dedupe_key out)
  /\ (forall d, In d week -> exists d', In d' out /\ dedupe_key d' = dedupe_key d)
  /\ (forall d, In d out ->
      exists before after,
        week = before ++ d :: after
        /\ forall x, In x before -> dedupe_key x <> dedupe_key d).
Proof. apply (dedupe_keeps_first_occurrences analyzer week). reflexivity. Defined.

(** X2. Deduplicating an already deduplicated list changes nothing, with
    the toggle on or off. *)
Theorem dedupe_is_idempotent (self : DealAnalyzer) (deals : list Deal.t) :
  _dedupe_deals self (_dedupe_deals self deals) = _dedupe_deals self deals.
Proof. apply dedupe_idem. Qed.

(** ** The multibuy override *)

Lemma extract_depends_on_price (d d' : Deal.t) :
  Price.is_multibuy (price_of d') = Price.is_multibuy (price_of d) ->
  Price.multibuy_details (price_of d') = Price.multibuy_details (price_of d) ->
  _extract_multibuy_details d' = _extract_multibuy_details d.
Proof. intros H1 H2. unfold _extract_multibuy_details. rewrite H1, H2. reflexivity. Qed.

Lemma override_keeps_multibuy_fields (d : Deal.t) :
  Price.is_multibuy (price_of (_apply_multibuy_overrides d)) = Price.is_multibuy (price_of d)
  /\ Price.multibuy_details (price_of (_apply_multibuy_overrides d))
     = Price.multibuy_details (price_of d).
Proof.
  unfold _apply_multibuy_overrides.
  destruct (_extract_multibuy_details d) as [[[[pu |] [qr |]] total] fmt]; auto.
Qed.

Lemma override_twice (d : Deal.t) :
  _apply_multibuy_overrides (_apply_multibuy_overrides d) = _apply_multibuy_overrides d.
Proof.
  destruct (override_keeps_multibuy_fields d) as [H1 H2].
  pose proof (extract_depends_on_price d _ H1 H2) as He.
  unfold _apply_multibuy_overrides at 1. rewrite He.
  unfold _apply_multibuy_overrides.
  destruct (_extract_multibuy_details d) as [[[[pu |] [qr |]] total] fmt]; try reflexivity.
  unfold price_of. cbn [Deal.price default Price.unit Price.is_multibuy
    Price.multibuy_details Price.original_price Price.savings_amount
    Price.savings_percent Deal.deal_id Deal.page Deal.retailer Deal.product_name
    Deal.brand Deal.category Deal.size_quantity Deal.container_type
    Deal.special_notes Deal.format].
  f_equal.
  destruct fmt as [s |]; cbn [andb]; [| reflexivity].
  destruct (negb (String.eqb s "")) eqn:Es; cbn [andb]; [| reflexivity].
  destruct (truthy (Deal.format d)) eqn:Ef; cbn [negb]; [rewrite Ef; reflexivity |].
  cbn [opt_str truthy]. rewrite Es. reflexivity.
Qed.

Lemma override_keeps_name_and_category (d : Deal.t) :
  Deal.product_name (_apply_multibuy_overrides d) = Deal.product_name d
  /\ Deal.category (_apply_multibuy_overrides d) = Deal.category d.
Proof.
  unfold _apply_multibuy_overrides.
  destruct (_extract_multibuy_details d) as [[[[pu |] [qr |]] total] fmt]; auto.
Qed.

(** X3. Applying the multibuy override to its own result changes nothing:
    the functions that call it on an already overridden deal
    ([compute_unit_price] from [_effective_price_for_scoring], the scoring
    of [deal_eff]) see the same record. *)
Theorem override_is_idempotent (d : Deal.t) :
  _apply_multibuy_overrides (_apply_multibuy_overrides d) = _apply_multibuy_overrides d.
Proof. exact (override_twice d). Qed.

(** X8. It makes no difference whether a caller passes the deal as given
    or its override copy [deal_eff]: the unit price, the priority test,
    the priority bonus and the category group are the same for both.  The
    scoring loop of [analyze_deals] mixes the two (the score is computed on
    [deal_eff], the priority flag, the group and the unit price on [deal]),
    and the flag it stores is the one that the bonus inside the score was
    decided on. *)
Theorem raw_or_overridden_deal (self : DealAnalyzer) (d : Deal.t) :
  let deal_eff := _apply_multibuy_overrides d in
  compute_unit_price deal_eff = compute_unit_price d
  /\ is_priority_deal self deal_eff = is_priority_deal self d
  /\ get_priority_bonus self deal_eff = get_priority_bonus self d
  /\ categorize_deal deal_eff = categorize_deal d.
Proof.
  intros deal_eff. subst deal_eff.
  destruct (override_keeps_name_and_category d) as [Hname Hcat].
  assert (Hup : compute_unit_price (_apply_multibuy_overrides d) = compute_unit_price d).
  { unfold compute_unit_price. rewrite override_twice. reflexivity. }
  assert (Hprio : is_priority_deal self (_apply_multibuy_overrides d) = is_priority_deal self d).
  { unfold is_priority_deal. rewrite Hup, Hname, Hcat. reflexivity. }
  repeat split.
  - exact Hup.
  - exact Hprio.
  - unfold get_priority_bonus. rewrite Hprio, Hname. reflexivity.
  - unfold categorize_deal. rewrite Hcat. reflexivity.
Qed.

Lemma lower_empty (s : string) : String.eqb (Text.lower s) "" = String.eqb s "".
Proof. destruct s; reflexivity. Qed.

(** X5. The display text is only consulted when the unit is absent or
    blank: for a unit with a non-blank character, [normalize_unit] returns
    the same triple whatever the display text. *)
Theorem normalize_unit_ignores_display (unit : string) (display display' : option string) :
  Text.strip unit <> "" ->
  normalize_unit (Some unit) display = normalize_unit (Some unit) display'.
Proof.
  intros H. unfold normalize_unit.
  change (or_empty (Some unit)) with unit. cbv zeta.
  assert (E : String.eqb (Text.lower (Text.strip unit)) "" = false).
  { rewrite lower_empty. apply String.eqb_neq. exact H. }
  rewrite E. reflexivity.
Qed.

Lemma normalize_unit_ignores_display_witness :
  normalize_unit (Some "16 oz") (Some "$4.99 per lb") = normalize_unit (Some "16 oz") None.
Proof. apply (normalize_unit_ignores_display "16 oz"). discriminate. Defined.

(** X6. [normalize_unit] returns one of six (kind, canonical kind) pairs:
    besides the five kinds its docstring lists, the kind "oz" with the
    canonical kind "lb".  An unknown kind has no quantity. *)
Theorem normalize_unit_kinds (unit display : option string) :
  let '(kind, qty, canonical) := normalize_unit unit display in
  In (kind, canonical)
     [("unknown", "unknown"); ("lb", "lb"); ("oz", "lb"); ("floz", "floz");
      ("count", "count"); ("each", "each")]
  /\ (kind = "unknown" -> qty = None).
Proof.
  destruct (normalize_unit unit display) as [[kind qty] canonical] eqn:E.
  unfold normalize_unit in E. cbv zeta in E.
  repeat (match type of E with
          | context [if ?b then _ else _] => destruct b
          | context [match ?x with Some _ => _ | None => _ end] =>
              is_var x; destruct x as [[? ?] |]
          | context [match Text.re_num_match ?u with _ => _ end] =>
              destruct (Text.re_num_match u) as [[? ?] |]
          end; cbn beta iota in E);
    injection E as <- <- <-; simpl; split; solve [tauto | discriminate | reflexivity].
Qed.

(** X7. [compute_unit_price] resolves all three components or none; a
    resolved unit label is "lb", "fl oz", "each" or "count"; and nothing is
    resolved when the amount of the overridden deal is not a number. *)
Theorem compute_unit_price_all_or_nothing (d : Deal.t) :
  (compute_unit_price d = (None, None, None)
   \/ exists up label text,
        compute_unit_price d = (Some up, Some label, Some text)
        /\ In label ["lb"; "fl oz"; "each"; "count"])
  /\ (is_number (Price.amount (price_of (_apply_multibuy_overrides d))) = false ->
      compute_unit_price d = (None, None, None)).
Proof.
  unfold compute_unit_price, unit_price_of, unresolved. split.
  - destruct (is_number _); cbn [negb]; [| auto].
    destruct (normalize_unit _ _) as [[kind qty] canonical].
    repeat match goal with
           | |- context [if ?b then _ else _] => destruct b
           end;
      first [left; reflexivity | right; do 3 eexists; split; [reflexivity | simpl; tauto]].
  - intros ->. reflexivity.
Qed.



Lemma result_from_survivor (self : DealAnalyzer) (deals : list Deal.t) (top_n : Z)
    (balance : bool) (sd : ScoredDeal) :
  In sd (select tie_break_key category_group (fun d => Deal.deal_id (base d))
           top_n balance
           (omap (scored_copy self) (Spec.others self deals))
           (omap (scored_copy self) (Spec.qualifying self deals))) ->
  exists d, In d (Spec.survivors self deals) /\ scored_copy self d = Some sd.
Proof.
  intros H. apply select_In in H.
  destruct H as [H | H]; apply In_omap in H; destruct H as [d [Hd Hs]];
    exists d; (split; [| exact Hs]);
    unfold Spec.others, Spec.qualifying in Hd; apply List.filter_In in Hd; tauto.
Qed.


Lemma StronglySorted_firstn {X : Type} (R : X -> X -> Prop) (n : nat) (l : list X) :
  StronglySorted R l -> StronglySorted R (firstn n l).
Proof.
  intros H. revert n. induction H as [| x l Hs IH Hx]; intros [| n]; simpl; try constructor.
  - apply IH.
  - rewrite List.Forall_forall in *. intros y Hy. apply Hx, (In_firstn n l y Hy).
Qed.

Lemma py_take_sorted {X : Type} (R : X -> X -> Prop) (n : Z) (l : list X) :
  StronglySorted R l -> StronglySorted R (py_take n l).
Proof. intros H. unfold py_take. destruct (0 <=? n); apply StronglySorted_firstn, H. Qed.

Lemma key_le_rank (a b : ScoredDeal) :
  key_le (tie_break_key a) (tie_break_key b) -> ranked_before a b.
Proof.
  unfold key_le, tie_break_key, key_compare, lex, ranked_before. intros H.
  destruct (Z.compare_spec (- engagement_score a) (- engagement_score b)) as [E | E | E].
  - split; [lia |]. intros _ Hb. rewrite Hb in H.
    destruct (is_priority a); [reflexivity |].
    exfalso. apply H. reflexivity.
  - split; [lia |]. intros E'. lia.
  - exfalso. apply H. reflexivity.
Qed.

Lemma StronglySorted_impl {X : Type} (R R' : X -> X -> Prop) (l : list X) :
  (forall a b, R a b -> R' a b) -> StronglySorted R l -> StronglySorted R' l.
Proof.
  intros Himp. induction 1 as [| x l Hs IH Hx]; constructor; [exact IH |].
  rewrite List.Forall_forall in *. intros y Hy. apply Himp, Hx, Hy.
Qed.

Lemma sort_by_key_ranked (l : list ScoredDeal) :
  StronglySorted ranked_before (sort_by_key tie_break_key l).
Proof.
  apply (StronglySorted_impl (key_ordered tie_break_key)); [apply key_le_rank |].
  apply sort_by_key_sorted.
Qed.

(** X10. With category balancing in force the list that [analyze_deals]
    returns is ranked by score: the engagement scores never increase along
    it, and of two deals with the same score a priority deal never comes
    after one that is not.  Only the two integer components of the sort key
    are involved, whatever the prices and percents of the deals are. *)
Theorem balanced_result_is_ranked (self : DealAnalyzer) (deals : list Deal.t)
    (top_n : Z) (balance_override : option bool) :
  default (balance_categories (config self)) balance_override = true ->
  exists r,
    analyze_deals self deals top_n balance_override = Some r
    /\ StronglySorted ranked_before r.
Proof.
  intros Hb. eexists. split; [apply analyze_deals_spec |]. rewrite Hb.
  unfold select.
  destruct (omap _ (Spec.others self deals)), (omap _ (Spec.qualifying self deals));
    try constructor; cbv zeta; cbn [negb];
    (destruct (_ <=? 0); apply py_take_sorted, sort_by_key_ranked).
Qed.

Lemma balanced_result_is_ranked_witness :
  exists r,
    analyze_deals analyzer week 4 None = Some r
    /\ StronglySorted ranked_before r.
Proof. apply (balanced_result_is_ranked analyzer week 4 None). reflexivity. Defined.

Lemma firstn_app_firstn {X : Type} (n : nat) (p s : list X) :
  firstn n (p ++ firstn (n - length p) s) = firstn n (p ++ s).
Proof.
  rewrite !firstn_app, firstn_firstn. f_equal. f_equal. lia.
Qed.

(** X11. With category balancing off and [top_n >= 0], the result is the
    first [top_n] deals of the priority deals followed by the other deals,
    each of the two groups ranked by score: every scored priority deal
    comes before every other deal, and inside a group the engagement
    scores never increase. *)
Theorem unbalanced_result_is_priority_first (self : DealAnalyzer) (deals : list Deal.t)
    (top_n : Z) (balance_override : option bool) :
  default (balance_categories (config self)) balance_override = false ->
  0 <= top_n ->
  exists priority others,
    Permutation priority (omap (scored_copy self) (Spec.qualifying self deals))
    /\ Permutation others (omap (scored_copy self) (Spec.others self deals))
    /\ StronglySorted ranked_before priority
    /\ StronglySorted ranked_before others
    /\ analyze_deals self deals top_n balance_override
       = Some (firstn (Z.to_nat top_n) (priority ++ others)).
Proof.
  intros Hb Htop.
  set (S := omap (scored_copy self) (Spec.others self deals)).
  set (P := omap (scored_copy self) (Spec.qualifying self deals)).
  exists (sort_by_key tie_break_key P), (sort_by_key tie_break_key S).
  split; [apply sort_by_key_perm |]. split; [apply sort_by_key_perm |].
  split; [apply sort_by_key_ranked |]. split; [apply sort_by_key_ranked |].
  rewrite analyze_deals_spec, Hb. f_equal. fold S P.
  assert (G :
    (let scored_deals := sort_by_key tie_break_key S in
     let priority_deals := sort_by_key tie_break_key P in
     let remaining_slots := Z.max 0 (top_n - len priority_deals) in
     if remaining_slots <=? 0 then py_take top_n priority_deals
     else py_take top_n (priority_deals ++ py_take remaining_slots scored_deals))
    = firstn (Z.to_nat top_n) (sort_by_key tie_break_key P ++ sort_by_key tie_break_key S)).
  { cbv zeta. rewrite !py_take_firstn by lia.
    destruct (_ <=? 0) eqn:E.
    - apply Z.leb_le in E. rewrite firstn_app.
      replace (Z.to_nat top_n - length (sort_by_key tie_break_key P))%nat with 0%nat
        by (unfold len in E; lia).
      rewrite firstn_0, app_nil_r. reflexivity.
    - apply Z.leb_gt in E.
      replace (Z.to_nat (Z.max 0 (top_n - len (sort_by_key tie_break_key P))))
        with (Z.to_nat top_n - length (sort_by_key tie_break_key P))%nat
        by (unfold len in *; lia).
      apply firstn_app_firstn. }
  unfold select. destruct S, P; try exact G.
  simpl. rewrite firstn_nil. reflexivity.
Qed.

Lemma unbalanced_result_is_priority_first_witness :
  exists priority others,
    Permutation priority (omap (scored_copy analyzer) (Spec.qualifying analyzer week))
    /\ Permutation others (omap (scored_copy analyzer) (Spec.others analyzer week))
    /\ StronglySorted ranked_before priority
    /\ StronglySorted ranked_before others
    /\ analyze_deals analyzer week 4 (Some false)
       = Some (firstn (Z.to_nat 4) (priority ++ others)).
Proof.
  apply (unbalanced_result_is_priority_first analyzer week 4 (Some false));
    [reflexivity | lia].
Defined.

(** ** Bounds of the score under the default configuration *)

Lemma premium_value_max (self : DealAnalyzer) (d : Deal.t) :
  calculate_premium_value self d <= 25.
Proof.
  unfold calculate_premium_value.
  repeat match goal with |- context [if ?b then _ else _] => destruct b end; lia.
Qed.

Lemma social_appeal_max (self : DealAnalyzer) (d : Deal.t) :
  calculate_social_appeal self d <= 20.
Proof.
  unfold calculate_social_appeal.
  repeat match goal with |- context [if ?b then _ else _] => destruct b end; lia.
Qed.

Lemma brand_recognition_max (self : DealAnalyzer) (d : Deal.t) :
  calculate_brand_recognition self d <= 10.
Proof.
  unfold calculate_brand_recognition.
  repeat match goal with |- context [if ?b then _ else _] => destruct b end; lia.
Qed.

Lemma discount_depth_max (d : Deal.t) : calculate_discount_depth d <= 20.
Proof.
  unfold calculate_discount_depth.
  destruct (is_number _); [apply depth_of_percent_range |].
  destruct (_ && _); [apply depth_of_percent_range | lia].
Qed.

Lemma default_weights_max (f : option string) (d : Deal.t) :
  calculate_category_weight {| retailer_filter := f; config := default_config |} d <= 25.
Proof.
  unfold calculate_category_weight. cbn [config].
  destruct (category_weights default_config !! or_empty (Deal.category d)) as [w |] eqn:E;
    cbn [default]; [| unfold id; lia].
  change (category_weights default_config)
    with (list_to_map default_category_weights_table : gmap string Z) in E.
  apply elem_of_list_to_map_2 in E.
  assert (F : Forall (fun kw : string * Z => snd kw <= 25) default_category_weights_table)
    by (repeat constructor; simpl; lia).
  rewrite List.Forall_forall in F.
  apply (F (or_empty (Deal.category d), w)), list_elem_of_In, E.
Qed.

Lemma default_bonus_max (f : option string) (d : Deal.t) :
  get_priority_bonus {| retailer_filter := f; config := default_config |} d <= 30.
Proof.
  unfold get_priority_bonus. destruct (negb _); [lia |].
  destruct (find _ _) as [entry |] eqn:E; [| lia].
  apply find_some in E. destruct E as [E _]. cbn [config priority_deals default_config] in E.
  unfold default_priority_deals in E. simpl in E.
  destruct E as [<- | [<- | [<- | []]]]; simpl; lia.
Qed.

(** X12. Under the default configuration every deal returned by
    [analyze_deals], with any retailer filter, has an engagement score of
    at most 160: 30 for viral pricing, 20 for the discount depth, 25 for
    the category, 25 for the premium value, 20 for the social appeal, 10
    for the brand and 30 for the priority bonus. *)
Theorem default_score_at_most_160 (f : option string) (deals : list Deal.t)
    (top_n : Z) (balance_override : option bool) :
  let self := {| retailer_filter := f; config := default_config |} in
  exists r,
    analyze_deals self deals top_n balance_override = Some r
    /\ forall sd, In sd r -> engagement_score sd <= 160.
Proof.
  cbv zeta. eexists. split; [apply analyze_deals_spec |].
  intros sd Hin. apply result_from_survivor in Hin. destruct Hin as [d [_ Hs]].
  apply scored_copy_fields in Hs. destruct Hs as (_ & Hs & _).
  unfold calculate_total_score in Hs.
  destruct (calculate_viral_pricing_score _) as [viral |] eqn:Ev; [| discriminate].
  injection Hs as <-.
  pose proof (viral_score_range _ _ Ev).
  pose proof (discount_depth_max (_apply_multibuy_overrides d)).
  pose proof (default_weights_max f (_apply_multibuy_overrides d)).
  pose proof (premium_value_max {| retailer_filter := f; config := default_config |}
                (_apply_multibuy_overrides d)).
  pose proof (social_appeal_max {| retailer_filter := f; config := default_config |}
                (_apply_multibuy_overrides d)).
  pose proof (brand_recognition_max {| retailer_filter := f; config := default_config |}
                (_apply_multibuy_overrides d)).
  pose proof (default_bonus_max f (_apply_multibuy_overrides d)).
  lia.
Qed.

(** ** The priority bonus *)



(** X14. Under the default rules a priority deal has its unit price
    resolved per pound at no more than 10.00, its category is "MEAT",
    "Meat" or "Meat & Seafood", and its priority bonus is 20, 25 or 30. *)
Theorem default_priority_deal_is_meat (f : option string) (d : Deal.t) :
  let self := {| retailer_filter := f; config := default_config |} in
  is_priority_deal self d = true ->
  (exists up text,
     compute_unit_price d = (Some up, Some "lb", Some text) /\ (up <= 10)%Q)
  /\ In (or_empty (Deal.category d)) meat_categories
  /\ In (get_priority_bonus self d) [0; 20; 25; 30].
Proof.
  cbv zeta. intros Hp.
  assert (Hshape := proj1 (compute_unit_price_all_or_nothing d)).
  pose proof Hp as Hp'. unfold is_priority_deal in Hp'.
  destruct Hshape as [Hn | (up & label & text & Hc & _)]; [rewrite Hn in Hp'; discriminate |].
  rewrite Hc in Hp'.
  destruct (String.eqb_spec label "lb") as [-> | Hne]; cbn [negb] in Hp'; [| discriminate].
  apply existsb_exists in Hp'. destruct Hp' as [[name rule] [Hin Hadm]].
  cbn [snd] in Hadm. unfold rule_admits in Hadm.
  apply andb_true_iff in Hadm. destruct Hadm as [Hadm _].
  apply andb_true_iff in Hadm. destruct Hadm as [Hadm _].
  apply andb_true_iff in Hadm. destruct Hadm as [Hcat Hprice].
  apply negb_true_iff in Hprice. unfold Qltb in Hprice.
  apply negb_false_iff, Qle_bool_iff in Hprice.
  assert (Hrule : Rule.category rule = meat_categories
                  /\ (Rule.max_price_per_lb rule <= 10)%Q).
  { cbn [config priority_deals default_config] in Hin. unfold default_priority_deals in Hin.
    simpl in Hin. destruct Hin as [[= _ <-] | [[= _ <-] | [[= _ <-] | []]]];
      split; try reflexivity; unfold Qle; simpl; lia. }
  destruct Hrule as [Hrc Hrm]. rewrite Hrc in Hcat.
  split; [| split].
  - exists up, text. split; [exact Hc |]. apply (Qle_trans _ _ _ Hprice Hrm).
  - unfold Text.mem in Hcat. apply existsb_exists in Hcat.
    destruct Hcat as [c [Hc' He]]. apply String.eqb_eq in He. subst c. exact Hc'.
  - unfold get_priority_bonus. rewrite Hp. cbn [negb].
    destruct (find _ _) as [entry |] eqn:E; [| simpl; auto].
    apply find_some in E. destruct E as [E _].
    cbn [config priority_deals default_config] in E. unfold default_priority_deals in E.
    simpl in E. destruct E as [<- | [<- | [<- | []]]]; simpl; auto.
Qed.

Lemma default_priority_deal_is_meat_witness :
  (exists up text,
     compute_unit_price chicken = (Some up, Some "lb", Some text) /\ (up <= 10)%Q)
  /\ In (or_empty (Deal.category chicken)) meat_categories
  /\ In (get_priority_bonus analyzer chicken) [0; 20; 25; 30].
Proof. apply (default_priority_deal_is_meat None chicken). reflexivity. Defined.

(** ** How many deals are returned *)

Section FillFacts.

Context {A : Type}.
Variable key : A -> Key.
Variable group : A -> CategoryGroup.
Variable ident : A -> pyval.

Lemma best_fold_some (groups : CategoryGroup -> list A) (a : Counts)
    (l : list CategoryGroup) (init : option (CategoryGroup * A)) :
  init <> None -> fold_left (best_next_step key groups a) l init <> None.
Proof.
  revert init. induction l as [| c l IH]; intros init H; simpl; [exact H |].
  apply IH. unfold best_next_step.
  destruct (a c <? available_counts groups c); [| exact H].
  destruct (nth_error _ _); [| exact H].
  destruct init as [[c0 w] |]; [| congruence].
  destruct (key_lt _ _); discriminate.
Qed.

Lemma best_fold_found (groups : CategoryGroup -> list A) (a : Counts)
    (l : list CategoryGroup) (c : CategoryGroup) (init : option (CategoryGroup * A)) :
  (forall c', 0 <= a c') -> In c l -> a c < available_counts groups c ->
  fold_left (best_next_step key groups a) l init <> None.
Proof.
  intros Ha. revert init. induction l as [| c' l IH]; intros init Hin Hlt; [destruct Hin |].
  simpl. destruct Hin as [-> | Hin]; [| apply IH; assumption].
  apply best_fold_some. unfold best_next_step.
  assert (E : (a c <? available_counts groups c) = true) by (apply Z.ltb_lt; exact Hlt).
  rewrite E.
  destruct (nth_error (groups c) (Z.to_nat (a c))) eqn:En.
  - destruct init as [[c0 w] |]; [destruct (key_lt _ _) |]; discriminate.
  - apply nth_error_None in En. pose proof (Ha c).
    unfold available_counts, len in Hlt. lia.
Qed.

(** The adding loop breaks only when every category is used up. *)
Lemma best_cat_none (groups : CategoryGroup -> list A) (a : Counts) :
  within_inventory groups a -> best_cat key groups a = None ->
  forall c, a c = available_counts groups c.
Proof.
  intros Ha Hn c. destruct (Ha c) as [H0 H1].
  destruct (Z_lt_le_dec (a c) (available_counts groups c)) as [Hlt | Hge]; [| lia].
  exfalso. unfold best_cat in Hn.
  pose proof (best_fold_found groups a categories c None
                (fun c' => proj1 (Ha c')) (In_categories c) Hlt) as H.
  destruct (fold_left _ _ _); [discriminate | congruence].
Qed.

Lemma within_sum (groups : CategoryGroup -> list A) (a : Counts) :
  within_inventory groups a -> sum_counts a <= sum_counts (available_counts groups).
Proof.
  intros Ha. rewrite !sum_counts_unfold.
  pose proof (Ha MeatSeafood). pose proof (Ha Produce). pose proof (Ha SnacksOther). lia.
Qed.

Lemma within_full (groups : CategoryGroup -> list A) (a : Counts) :
  within_inventory groups a ->
  sum_counts a = sum_counts (available_counts groups) ->
  forall c, a c = available_counts groups c.
Proof.
  intros Ha Hs c. rewrite !sum_counts_unfold in Hs.
  pose proof (Ha MeatSeafood). pose proof (Ha Produce). pose proof (Ha SnacksOther).
  destruct c; lia.
Qed.

(** The allocations fill the remaining slots, or use up the inventory. *)
Lemma final_allocations_sum (groups : CategoryGroup -> list A) (rem : Z) :
  0 <= rem ->
  sum_counts (final_allocations key groups rem)
  = Z.min rem (sum_counts (available_counts groups)).
Proof.
  intros Hr.
  destruct (final_allocations_ok key groups rem Hr) as [Hw Hs].
  pose proof (within_sum groups _ Hw) as Hle.
  revert Hw Hs Hle. unfold final_allocations.
  destruct (0 <? sum_counts (available_counts groups)) eqn:Et.
  - apply Z.ltb_lt in Et.
    set (a0 := base_allocations groups rem _).
    assert (H0 : within_inventory groups a0) by (apply base_within; assumption).
    destruct (sum_counts a0 <? rem) eqn:E1.
    + apply Z.ltb_lt in E1.
      set (a1 := add_slots key groups rem _ a0).
      assert (H1 : within_inventory groups a1) by (apply add_slots_within; exact H0).
      assert (S1 : sum_counts a1 <= rem) by (apply add_slots_bound; lia).
      assert (E2 : (rem <? sum_counts a1) = false) by (apply Z.ltb_ge; lia).
      rewrite E2. intros _ _ Hle.
      destruct (add_slots_exits key groups rem
                  (Z.to_nat (rem - sum_counts a0)) a0 ltac:(lia)) as [Hx | Hx].
      * fold a1 in Hx. lia.
      * fold a1 in Hx. pose proof (best_cat_none groups a1 H1 Hx) as Hall.
        rewrite (sum_counts_unfold a1), !Hall, <- sum_counts_unfold in *. lia.
    + apply Z.ltb_ge in E1.
      destruct (rem <? sum_counts a0) eqn:E2; intros _ Hs Hle.
      * apply Z.ltb_lt in E2. pose proof (within_sum groups a0 H0).
        rewrite (remove_slots_exact key groups rem Hr _ a0 H0) by lia. lia.
      * apply Z.ltb_ge in E2. lia.
  - apply Z.ltb_ge in Et. intros _ _ _. rewrite sum_counts_unfold.
    pose proof (available_nonneg groups MeatSeafood).
    pose proof (available_nonneg groups Produce).
    pose proof (available_nonneg groups SnacksOther).
    rewrite sum_counts_unfold in *. lia.
Qed.

(** The three buckets partition [scored_deals]. *)
Lemma category_groups_partition (scored : list A) :
  sum_counts (available_counts (category_groups group scored)) = len scored.
Proof.
  rewrite sum_counts_unfold. unfold available_counts, category_groups, len.
  induction scored as [| d rest IH]; [reflexivity |].
  simpl. destruct (group d); simpl; lia.
Qed.

Lemma py_eq_refl (v : pyval) : py_eq v v = true.
Proof.
  destruct v; simpl; try reflexivity.
  - apply Qeq_bool_iff. reflexivity.
  - apply Qeq_bool_iff. reflexivity.
  - apply Qeq_bool_iff. reflexivity.
  - apply String.eqb_refl.
Qed.

Lemma backfill_loop_noop (ids : list pyval) (rem : Z) (scored added : list A) :
  (forall d, In d scored -> In (ident d) ids) ->
  backfill_loop ident ids rem scored added = added.
Proof.
  revert added. induction scored as [| d rest IH]; intros added H; simpl; [reflexivity |].
  destruct (rem <=? len added); [reflexivity |].
  assert (E : existsb (py_eq (ident d)) ids = true).
  { apply existsb_exists. exists (ident d). split; [apply H; left; reflexivity |].
    apply py_eq_refl. }
  rewrite E. apply IH. intros x Hx. apply H. right. exact Hx.
Qed.

Lemma take_allocated_all (scored : list A) (a : Counts) (d : A) :
  (forall c, a c = available_counts (category_groups group scored) c) ->
  In d scored -> In d (take_allocated (category_groups group scored) a).
Proof.
  intros Hall Hd. unfold take_allocated. apply in_flat_map.
  exists (group d). split; [apply In_categories |].
  rewrite Hall. unfold available_counts. rewrite py_take_all by lia.
  unfold category_groups. apply List.filter_In. split; [exact Hd |].
  destruct (group d); reflexivity.
Qed.

(** The backfill of the balanced branch never adds a deal: what it would
    add is already in [added]. *)
Lemma balanced_added_exact (rem : Z) (scored : list A) :
  0 <= rem ->
  len (balanced_added key group ident rem scored) = Z.min rem (len scored)
  /\ balanced_added key group ident rem scored
     = take_allocated (category_groups group scored)
         (final_allocations key (category_groups group scored) rem).
Proof.
  intros Hr. unfold balanced_added, backfill.
  set (groups := category_groups group scored).
  destruct (final_allocations_ok key groups rem Hr) as [Hw Hs].
  pose proof (final_allocations_sum groups rem Hr) as Hsum.
  pose proof (take_allocated_length groups _ Hw) as Hl.
  unfold groups in Hsum. rewrite category_groups_partition in Hsum. fold groups in Hsum.
  destruct (_ <? rem) eqn:E.
  - apply Z.ltb_lt in E.
    assert (Hfull : forall c, final_allocations key groups rem c = available_counts groups c).
    { apply within_full; [exact Hw |].
      pose proof (category_groups_partition scored) as Hp. fold groups in Hp. lia. }
    rewrite backfill_loop_noop.
    + split; [lia | reflexivity].
    + intros d Hd. apply in_map. apply take_allocated_all; assumption.
  - apply Z.ltb_ge in E. split; [lia | reflexivity].
Qed.

Lemma select_length_exact (top_n : Z) (balance : bool) (scored priority : list A) :
  0 <= top_n ->
  len (select key group ident top_n balance scored priority)
  = Z.min top_n (len scored + len priority).
Proof.
  intros Htop.
  assert (G :
    len (let scored_deals := sort_by_key key scored in
         let priority_deals := sort_by_key key priority in
         let remaining_slots := Z.max 0 (top_n - len priority_deals) in
         if remaining_slots <=? 0 then py_take top_n priority_deals
         else if negb balance
         then py_take top_n (priority_deals ++ py_take remaining_slots scored_deals)
         else py_take top_n
                (sort_by_key key
                   (priority_deals
                    ++ balanced_added key group ident remaining_slots scored_deals)))
    = Z.min top_n (len scored + len priority)).
  { cbv zeta.
    assert (Hp : len (sort_by_key key priority) = len priority)
      by (unfold len; rewrite sort_by_key_length; reflexivity).
    assert (Hsc : len (sort_by_key key scored) = len scored)
      by (unfold len; rewrite sort_by_key_length; reflexivity).
    rewrite Hp.
    assert (Hnn : 0 <= len scored) by (unfold len; lia).
    destruct (_ <=? 0) eqn:E.
    - apply Z.leb_le in E. rewrite py_take_len_within; lia.
    - apply Z.leb_gt in E.
      destruct (negb balance).
      + rewrite py_take_all.
        * unfold len at 1. rewrite length_app. fold (len (sort_by_key key priority)).
          rewrite Nat2Z.inj_add. fold (len (sort_by_key key priority)).
          fold (len (py_take (Z.max 0 (top_n - len priority)) (sort_by_key key scored))).
          rewrite Hp.
          destruct (Z_le_gt_dec (Z.max 0 (top_n - len priority)) (len scored)).
          -- rewrite py_take_len_within by lia. lia.
          -- rewrite py_take_all by lia. lia.
        * unfold len at 1. rewrite length_app, Nat2Z.inj_add.
          fold (len (sort_by_key key priority)).
          fold (len (py_take (Z.max 0 (top_n - len priority)) (sort_by_key key scored))).
          pose proof (py_take_length (Z.max 0 (top_n - len priority))
                        (sort_by_key key scored) ltac:(lia)). lia.
      + destruct (balanced_added_exact (Z.max 0 (top_n - len priority))
                    (sort_by_key key scored) ltac:(lia)) as [Hb _].
        rewrite Hsc in Hb.
        assert (Hall : len (sort_by_key key
                              (sort_by_key key priority
                               ++ balanced_added key group ident
                                    (Z.max 0 (top_n - len priority))
                                    (sort_by_key key scored)))
                       = len priority + Z.min (Z.max 0 (top_n - len priority)) (len scored)).
        { unfold len at 1. rewrite sort_by_key_length, length_app, Nat2Z.inj_add.
          fold (len (sort_by_key key priority)).
          fold (len (balanced_added key group ident (Z.max 0 (top_n - len priority))
                       (sort_by_key key scored))).
          rewrite Hp, Hb. reflexivity. }
        rewrite py_take_all; lia. }
  unfold select. destruct scored, priority; try exact G.
  unfold len. simpl. lia.
Qed.

End FillFacts.

Lemma filter_split_length {X : Type} (f : X -> bool) (l : list X) :
  (length (List.filter f l) + length (List.filter (fun x => negb (f x)) l))%nat = length l.
Proof.
  induction l as [| x l IH]; [reflexivity |]. simpl. destruct (f x); simpl; lia.
Qed.

(** X15. For [top_n >= 0], [analyze_deals] returns exactly
    [min(top_n, number of surviving deals)] deals, with category balancing
    on or off: slots are left empty only when the deals run out. *)
Theorem analyze_fills_the_slots (self : DealAnalyzer) (deals : list Deal.t) (top_n : Z)
    (balance_override : option bool) :
  0 <= top_n ->
  exists r,
    analyze_deals self deals top_n balance_override = Some r
    /\ len r = Z.min top_n (len (Spec.survivors self deals)).
Proof.
  intros Htop. eexists. split; [apply analyze_deals_spec |].
  rewrite select_length_exact by exact Htop. f_equal.
  unfold len. rewrite ranking_length.
  rewrite omap_length_defined.
  - unfold Spec.others, Spec.qualifying.
    pose proof (filter_split_length (is_priority_deal self) (Spec.survivors self deals)). lia.
  - intros d Hd. apply scored_copy_defined.
    unfold Spec.others, Spec.survivors in Hd.
    apply List.filter_In in Hd. destruct Hd as [Hd _].
    apply List.filter_In in Hd. tauto.
Qed.

Lemma analyze_fills_the_slots_witness :
  exists r,
    analyze_deals analyzer week 4 None = Some r
    /\ len r = Z.min 4 (len (Spec.survivors analyzer week)).
Proof. apply (analyze_fills_the_slots analyzer week 4 None). lia. Defined.

(** ** The debug variant *)

Lemma reason_not_empty (self : DealAnalyzer) (d : Deal.t) (reason : string) :
  get_exclusion_reason self d = Some reason -> String.eqb reason "" = false.
Proof.
  unfold get_exclusion_reason.
  repeat match goal with
         | |- context [if ?b then _ else _] => destruct b
         | |- context [match ?x with Some _ => _ | None => _ end] => destruct x
         end;
    intros [= <-] || discriminate; reflexivity.
Qed.

Lemma debug_loop_spec (self : DealAnalyzer) (deals kept : list Deal.t)
    (excluded : list (Deal.t * string)) :
  debug_loop self deals kept excluded
  = (kept ++ List.filter (no_reason self) deals,
     excluded ++ omap (with_reason self) deals).
Proof.
  revert kept excluded. induction deals as [| d rest IH]; intros kept excluded.
  - simpl. rewrite !app_nil_r. reflexivity.
  - cbn [debug_loop List.filter]. unfold no_reason at 1, should_exclude.
    change (omap (with_reason self) (d :: rest))
      with (match with_reason self d with
            | Some y => y :: omap (with_reason self) rest
            | None => omap (with_reason self) rest
            end).
    unfold with_reason at 1.
    destruct (get_exclusion_reason self d) as [reason |] eqn:E; cbn [negb option_map].
    + rewrite (reason_not_empty self d reason E). cbn [negb].
      rewrite IH, <- app_assoc. reflexivity.
    + rewrite IH, <- app_assoc. reflexivity.
Qed.

Lemma first_occurrences_filter (p : Deal.t -> bool) (seen seen' : list DedupeKey)
    (deals : list Deal.t) :
  (forall k, k ∈ seen' -> k ∈ seen) ->
  Spec.first_occurrences seen' (List.filter p (Spec.first_occurrences seen deals))
  = List.filter p (Spec.first_occurrences seen deals).
Proof.
  revert seen seen'. induction deals as [| d rest IH]; intros seen seen' Hsub; [reflexivity |].
  cbn [Spec.first_occurrences].
  destruct (bool_decide (dedupe_key d ∈ seen)) eqn:E; [apply IH, Hsub |].
  apply bool_decide_eq_false in E.
  assert (Hsub' : forall k, k ∈ dedupe_key d :: seen' -> k ∈ dedupe_key d :: seen).
  { intros k Hk. apply elem_of_cons in Hk. apply elem_of_cons.
    destruct Hk as [-> | Hk]; [left; reflexivity | right; apply Hsub, Hk]. }
  cbn [List.filter]. destruct (p d).
  - cbn [Spec.first_occurrences].
    assert (E' : bool_decide (dedupe_key d ∈ seen') = false).
    { apply bool_decide_eq_false. intros Hk. apply E, Hsub, Hk. }
    rewrite E'. f_equal. apply IH, Hsub'.
  - apply IH. intros k Hk. apply elem_of_cons. right. apply Hsub, Hk.
Qed.

Lemma dedupe_filter (self : DealAnalyzer) (p : Deal.t -> bool) (deals : list Deal.t) :
  _dedupe_deals self (List.filter p (_dedupe_deals self deals))
  = List.filter p (_dedupe_deals self deals).
Proof.
  rewrite !dedupe_spec. destruct (dedupe (config self)); [| reflexivity].
  apply first_occurrences_filter. auto.
Qed.

Lemma filter_filter_same {X : Type} (f g : X -> bool) (l : list X) :
  (forall x, In x l -> f x = g x) ->
  List.filter f (List.filter g l) = List.filter g l.
Proof.
  intros H. induction l as [| x l IH]; [reflexivity |].
  simpl. destruct (g x) eqn:E.
  - simpl. rewrite (H x (or_introl eq_refl)), E. f_equal.
    apply IH. intros y Hy. apply H. right. exact Hy.
  - apply IH. intros y Hy. apply H. right. exact Hy.
Qed.

(** X16. [analyze_deals_debug] splits the deduplicated input in two: the
    records with an exclusion reason, each paired with its reason, and the
    others, which it hands to [analyze_deals].  When no record of the
    input is changed by the multibuy override, its list of top deals is
    the one [analyze_deals] returns on the same input. *)
Theorem debug_variant_partitions (self : DealAnalyzer) (deals : list Deal.t) (top_n : Z)
    (balance_override : option bool) :
  exists top excluded,
    analyze_deals_debug self deals top_n balance_override = Some (top, excluded)
    /\ excluded = omap (with_reason self) (_dedupe_deals self deals)
    /\ (forall d reason, In (d, reason) excluded ->
        In d deals /\ get_exclusion_reason self d = Some reason)
    /\ analyze_deals self
         (List.filter (no_reason self) (_dedupe_deals self deals)) top_n balance_override
       = Some top
    /\ ((forall d, In d deals -> _apply_multibuy_overrides d = d) ->
        analyze_deals self deals top_n balance_override = Some top).
Proof.
  unfold analyze_deals_debug. rewrite debug_loop_spec. cbn [app].
  rewrite analyze_deals_spec. do 2 eexists. split; [reflexivity |].
  split; [reflexivity |]. split; [| split; [reflexivity |]].
  - intros d reason Hin. apply In_omap in Hin. destruct Hin as [x [Hx Hw]].
    unfold with_reason in Hw.
    destruct (get_exclusion_reason self x) as [r |] eqn:E; [| discriminate].
    injection Hw as <- <-. split; [apply (dedupe_In self), Hx | exact E].
  - intros Hsame. rewrite analyze_deals_spec.
    assert (Hsurv : Spec.survivors self
                      (List.filter (no_reason self) (_dedupe_deals self deals))
                    = Spec.survivors self deals).
    { unfold Spec.survivors. rewrite dedupe_filter.
      assert (Hk : forall x, In x (_dedupe_deals self deals) ->
                             Spec.kept self x = no_reason self x).
      { intros x Hx. unfold Spec.kept, no_reason.
        rewrite (Hsame x (dedupe_In self deals x Hx)). reflexivity. }
      rewrite (filter_filter_same _ _ _ Hk).
      apply filter_ext_in. intros x Hx. symmetry. apply Hk, Hx. }
    unfold Spec.others, Spec.qualifying. rewrite Hsurv. reflexivity.
Qed.

Lemma debug_variant_partitions_witness :
  exists top,
    analyze_deals analyzer week 4 None = Some top
    /\ exists excluded, analyze_deals_debug analyzer week 4 None = Some (top, excluded).
Proof.
  destruct (debug_variant_partitions analyzer week 4 None)
    as (top & excluded & Hd & _ & _ & _ & Hsame).
  exists top. split; [| exists excluded; exact Hd].
  apply Hsame. intros d Hin.
  repeat (destruct Hin as [<- | Hin]; [reflexivity |]). destruct Hin.
Defined.

(** ** The comparison table: best price for a staple *)





(** ** Text put in the HTML email *)

Module HtmlFacts.

Import Html.

Lemma has_char_app (c : ascii) (a b : string) :
  has_char c (a +:+ b) = has_char c a || has_char c b.
Proof.
  induction a as [| x a IH]; [reflexivity |].
  simpl. rewrite IH. apply orb_assoc.
Qed.

Lemma inert_app (a b : string) : inert a -> inert b -> inert (a +:+ b).
Proof.
  unfold inert, markup. intros Ha Hb.
  repeat match goal with
         | H : Forall _ (_ :: _) |- _ => inversion H; subst; clear H
         end.
  repeat constructor; rewrite has_char_app; apply orb_false_iff; auto.
Qed.

Lemma has_char_single (c x : ascii) : has_char c (String x "") = Ascii.eqb x c.
Proof.
  change (has_char c (String x "")) with (Ascii.eqb c x || false).
  rewrite orb_false_r. apply Ascii.eqb_sym.
Qed.

Lemma inert_entity (c : ascii) : inert (entity c).
Proof.
  unfold inert, markup, entity.
  destruct (Ascii.eqb c amp) eqn:E1; [repeat constructor |].
  destruct (Ascii.eqb c lt) eqn:E2; [repeat constructor |].
  destruct (Ascii.eqb c gt) eqn:E3; [repeat constructor |].
  destruct (Ascii.eqb c dquote) eqn:E4; [repeat constructor |].
  destruct (Ascii.eqb c squote) eqn:E5; [repeat constructor |].
  repeat (apply List.Forall_cons; [rewrite has_char_single; assumption |]).
  apply List.Forall_nil.
Qed.

Lemma inert_escape (s : string) : inert (escape s).
Proof.
  induction s as [| c s IH]; [repeat constructor |].
  simpl. apply inert_app; [apply inert_entity | exact IH].
Qed.

Lemma escape_plain (s : string) :
  (forall c, is_special c = true -> has_char c s = false) -> escape s = s.
Proof.
  induction s as [| x s IH]; intros H; [reflexivity |].
  simpl. assert (Hx : is_special x = false).
  { destruct (is_special x) eqn:E; [| reflexivity].
    specialize (H x E). simpl in H. rewrite Ascii.eqb_refl in H. discriminate. }
  unfold is_special in Hx. repeat (apply orb_false_iff in Hx; destruct Hx as [Hx ?]).
  unfold entity.
  repeat match goal with H : Ascii.eqb _ _ = false |- _ => rewrite H; clear H end.
  simpl. f_equal. apply IH. intros c Hc. specialize (H c Hc). simpl in H.
  apply orb_false_iff in H. tauto.
Qed.

Lemma inert_uint (d : Decimal.uint) : inert (DecimalString.NilEmpty.string_of_uint d).
Proof. induction d; simpl; [repeat constructor | ..]; apply (inert_app (String _ "")); auto; repeat constructor. Qed.

Lemma inert_of_Z (z : Z) : inert (Text.of_Z z).
Proof.
  unfold Text.of_Z, DecimalString.NilZero.string_of_int.
  destruct (Z.to_int z) as [d | d]; unfold DecimalString.NilZero.string_of_uint.
  - destruct d; try apply inert_uint. repeat constructor.
  - apply (inert_app "-"); [repeat constructor |].
    destruct d; try apply inert_uint. repeat constructor.
Qed.

Lemma inert_pad_digits (k : nat) (n : Z) : inert (pad_digits k n).
Proof.
  revert n. induction k as [| k IH]; intros n; simpl; [repeat constructor |].
  apply inert_app; [apply IH | apply inert_of_Z].
Qed.

Lemma inert_format_2f (q : Q) : inert (format_2f q).
Proof.
  unfold format_2f.
  apply inert_app; [destruct (Qltb q 0); repeat constructor |].
  apply inert_app; [apply inert_of_Z |].
  apply (inert_app "."); [repeat constructor | apply inert_pad_digits].
Qed.

Lemma inert_html_escape (v : pyval) : inert (_html_escape v).
Proof. apply inert_escape. Qed.

End HtmlFacts.

(** X18. [html.escape] as [_html_escape] applies it leaves none of the
    characters [<], [>], double quote, single quote in its result, and
    returns a text without [&] or any of these unchanged. *)
Theorem html_escape_is_inert (v : pyval) (s : string) :
  Html.inert (_html_escape v)
  /\ Html.inert (Html.escape s)
  /\ ((forall c, Html.is_special c = true -> Html.has_char c s = false) ->
      Html.escape s = s).
Proof.
  split; [apply HtmlFacts.inert_html_escape |].
  split; [apply HtmlFacts.inert_escape | apply HtmlFacts.escape_plain].
Qed.

Lemma html_escape_is_inert_witness : Html.escape "Gala Apples 3 lb" = "Gala Apples 3 lb".
Proof.
  apply (proj2 (proj2 (html_escape_is_inert VNone "Gala Apples 3 lb"))).
  intros c Hc. unfold Html.is_special in Hc.
  repeat (apply orb_true_iff in Hc; destruct Hc as [Hc | Hc]);
    apply Ascii.eqb_eq in Hc; subst c; reflexivity.
Defined.

(** X19. The texts that the deal card takes from a deal
    ([_format_sale_price], [_format_save_line], [_format_regular_price],
    [_deal_size_text]) never hold [<], [>] or a quote: whatever the
    product data, they cannot open or close a tag or an attribute. *)
Theorem card_texts_are_inert (d : Deal.t) (sd : ScoredDeal) :
  Html.inert (_format_sale_price d)
  /\ Html.inert (_format_save_line d)
  /\ Html.inert (default "" (_format_regular_price d))
  /\ Html.inert (_deal_size_text sd).
Proof.
  repeat split.
  - unfold _format_sale_price. destruct (negb _); [apply HtmlFacts.inert_html_escape |].
    destruct (is_number _); [| repeat constructor].
    apply (HtmlFacts.inert_app "$"); [repeat constructor | apply HtmlFacts.inert_format_2f].
  - unfold _format_save_line.
    destruct (_ && _).
    { apply (HtmlFacts.inert_app "Save $");
        [repeat constructor | apply HtmlFacts.inert_format_2f]. }
    destruct (_ && _).
    { apply (HtmlFacts.inert_app "Save "); [repeat constructor |].
      apply HtmlFacts.inert_app; [apply HtmlFacts.inert_of_Z | repeat constructor]. }
    destruct (_ && _); [apply HtmlFacts.inert_html_escape | repeat constructor].
  - unfold _format_regular_price. destruct (_ && _); [| repeat constructor].
    apply (HtmlFacts.inert_app "$"); [repeat constructor | apply HtmlFacts.inert_format_2f].
  - unfold _deal_size_text. destruct (negb _); [apply HtmlFacts.inert_html_escape |].
    destruct (negb _); [apply HtmlFacts.inert_html_escape | repeat constructor].
Qed.

(** ** The multibuy override on the store *)

Module StoreRuns.

Import Store.

(** What the primitives return when the object they read is there. *)

Lemma run_bind {A B : Type} (m : M A) (f : A -> M B) (h h' : heap) (a : A) :
  m h = Some (a, h') -> (m ≫= f) h = f a h'.
Proof. intros E. unfold mbind, M_bind. rewrite E. reflexivity. Qed.

Lemma run_read_dict (h : heap) (l : loc) (d : gmap string hval) :
  h !! l = Some (ODict d) -> read_dict l h = Some (d, h).
Proof.
  intros E. unfold read_dict. rewrite (run_bind _ _ h h (ODict d)); [reflexivity |].
  unfold read. rewrite E. reflexivity.
Qed.

Lemma run_dict_set (h : heap) (l : loc) (d : gmap string hval) (k : string) (v : hval) :
  h !! l = Some (ODict d) ->
  dict_set l k v h = Some (tt, <[l := ODict (<[k := v]> d)]> h).
Proof.
  intros E. unfold dict_set. rewrite (run_bind _ _ h h d (run_read_dict h l d E)).
  unfold write. rewrite E. reflexivity.
Qed.

Lemma run_dict_copy (h : heap) (l : loc) (d : gmap string hval) :
  h !! l = Some (ODict d) ->
  dict_copy l h = Some (fresh (dom h), <[fresh (dom h) := ODict d]> h).
Proof.
  intros E. unfold dict_copy. rewrite (run_bind _ _ h h d (run_read_dict h l d E)).
  reflexivity.
Qed.

Lemma fresh_lookup (h : heap) : h !! fresh (dom h) = None.
Proof. apply not_elem_of_dom. apply is_fresh. Qed.

Lemma field_insert (d : gmap string hval) (k : string) (v : pyval) :
  field (<[k := HVal v]> d) k = v.
Proof. unfold field. rewrite lookup_insert_eq. reflexivity. Qed.

Lemma field_insert_ne (d : gmap string hval) (k k' : string) (v : hval) :
  k <> k' -> field (<[k := v]> d) k' = field d k'.
Proof. intros N. unfold field. rewrite lookup_insert_ne by exact N. reflexivity. Qed.

Lemma text_field_insert_ne (d : gmap string hval) (k k' : string) (v : hval) :
  k <> k' -> text_field (<[k := v]> d) k' = text_field d k'.
Proof. intros N. unfold text_field. rewrite field_insert_ne by exact N. reflexivity. Qed.

Lemma dict_field_insert_ne (h : heap) (d : gmap string hval) (k k' : string) (v : hval) :
  k <> k' -> dict_field h (<[k := v]> d) k' = dict_field h d k'.
Proof. intros N. unfold dict_field. rewrite lookup_insert_ne by exact N. reflexivity. Qed.

Lemma dict_field_mono (h h' : heap) (d m : gmap string hval) (k : string) :
  h ⊆ h' -> dict_field h d k = Some m -> dict_field h' d k = Some m.
Proof.
  intros S. unfold dict_field. destruct (d !! k) as [[v | l] |]; try discriminate.
  destruct (h !! l) as [[x | x] |] eqn:E; try discriminate.
  intros [= <-]. rewrite (lookup_weaken _ _ _ _ E S). reflexivity.
Qed.


Lemma extract_some_details (h : heap) (d : gmap string hval) pu qr total fmt :
  _extract_multibuy_details (view_deal h d) = (Some pu, Some qr, total, fmt) ->
  exists p m, dict_field h d "price" = Some p /\ dict_field h p "multibuy_details" = Some m.
Proof.
  unfold _extract_multibuy_details, price_of, view_deal. cbn [Deal.price].
  destruct (dict_field h d "price") as [p |]; cbn [option_map default].
  - unfold view_price at 2. cbn [Price.multibuy_details].
    destruct (negb _); [discriminate |].
    destruct (dict_field h p "multibuy_details") as [m |] eqn:Em; cbn [option_map];
      [intros _; exists p, m; split; [reflexivity | exact Em] | discriminate].
  - cbn. discriminate.
Qed.

Lemma text_field_insert (d : gmap string hval) (k s : string) :
  text_field (<[k := HVal (VStr s)]> d) k = Some s.
Proof. unfold text_field. rewrite field_insert. reflexivity. Qed.

Lemma dict_field_insert (h : heap) (d m : gmap string hval) (k : string) (l : loc) :
  h !! l = Some (ODict m) -> dict_field h (<[k := HRef l]> d) k = Some m.
Proof. intros E. unfold dict_field. rewrite lookup_insert_eq, E. reflexivity. Qed.

Ltac run_set :=
  erewrite run_bind; [| apply run_dict_set; apply lookup_insert_eq];
  rewrite insert_insert_eq.

Ltac fields :=
  repeat first
    [ rewrite field_insert
    | rewrite text_field_insert
    | rewrite field_insert_ne by discriminate
    | rewrite text_field_insert_ne by discriminate
    | rewrite dict_field_insert_ne by discriminate ].

End StoreRuns.

(** X4. On the store, [_apply_multibuy_overrides] called on a dictionary
    does not raise and keeps every object of the store as it was.  When the
    per-unit cost or the required quantity is missing it returns the input
    object itself and the store is untouched: the result is then no copy,
    whatever the docstring says.  Otherwise it returns a dictionary at a
    location that was free, and the record read off that dictionary in the
    final store is the override computed on values. *)
Theorem override_on_store (deal : Store.loc) (h : Store.heap) (d : gmap string Store.hval) :
  h !! deal = Some (Store.ODict d) ->
  exists r h' d',
    Store._apply_multibuy_overrides deal h = Some (r, h')
    /\ h ⊆ h'
    /\ h' !! r = Some (Store.ODict d')
    /\ Store.view_deal h' d' = _apply_multibuy_overrides (Store.view_deal h d)
    /\ match _extract_multibuy_details (Store.view_deal h d) with
       | (Some _, Some _, _, _) => Store.fresh_for h r
       | _ => r = deal /\ h' = h
       end.
Proof.
  intros Hd.
  destruct (_extract_multibuy_details (Store.view_deal h d)) as [[[pu qr] total] fmt] eqn:E.
  assert (Hsame : (pu = None \/ qr = None) ->
    exists r h' d',
      Store._apply_multibuy_overrides deal h = Some (r, h')
      /\ h ⊆ h' /\ h' !! r = Some (Store.ODict d')
      /\ Store.view_deal h' d' = _apply_multibuy_overrides (Store.view_deal h d)
      /\ r = deal /\ h' = h).
  { intros Hnone. exists deal, h, d.
    unfold Store._apply_multibuy_overrides, _apply_multibuy_overrides.
    rewrite (StoreRuns.run_bind _ _ h h d (StoreRuns.run_read_dict _ _ _ Hd)).
    rewrite (StoreRuns.run_bind Store.get_heap _ h h h eq_refl).
    rewrite E.
    destruct Hnone as [-> | ->]; [| destruct pu]; repeat split; try reflexivity; exact Hd. }
  destruct pu as [pu |]; [destruct qr as [qr |] |];
    try (destruct Hsame as (r & h' & d' & H1 & H2 & H3 & H4 & H5 & H6); [auto |];
         exists r, h', d'; repeat split; assumption).
  clear Hsame.
  destruct (StoreRuns.extract_some_details h d pu qr total fmt E) as (p & m & Hp & Hm).
  set (l1 := fresh (dom h)).
  set (h1 := <[l1 := Store.ODict d]> h).
  set (l2 := fresh (dom h1)).
  assert (F1 : h !! l1 = None) by apply StoreRuns.fresh_lookup.
  assert (F2 : h1 !! l2 = None) by apply StoreRuns.fresh_lookup.
  assert (N : l2 <> l1).
  { intros Heq. rewrite Heq in F2. unfold h1 in F2. rewrite lookup_insert_eq in F2. discriminate. }
  destruct (match fmt with Some s => negb (String.eqb s "") | None => false end
            && negb (truthy (Store.field d "format"))) eqn:Ec.
  all: eassert (Eq : Store._apply_multibuy_overrides deal h = Some (l1, _)).
  1, 3: unfold Store._apply_multibuy_overrides;
    rewrite (StoreRuns.run_bind _ _ h h d (StoreRuns.run_read_dict _ _ _ Hd));
    rewrite (StoreRuns.run_bind Store.get_heap _ h h h eq_refl);
    rewrite E, Hp, Ec; cbn [default];
    rewrite (StoreRuns.run_bind _ _ h h1 l1 (StoreRuns.run_dict_copy h deal d Hd));
    rewrite (StoreRuns.run_bind (Store.alloc _) _ h1 _ l2 eq_refl);
    fold l2;
    (erewrite StoreRuns.run_bind;
       [| apply StoreRuns.run_dict_set; apply lookup_insert_eq]);
    rewrite insert_insert_eq;
    (erewrite StoreRuns.run_bind;
       [| apply StoreRuns.run_dict_set; apply lookup_insert_eq]);
    rewrite insert_insert_eq;
    (erewrite StoreRuns.run_bind;
       [| apply StoreRuns.run_dict_set;
          rewrite lookup_insert_ne by exact N; apply lookup_insert_eq]).
  1: do 4 StoreRuns.run_set; reflexivity.
  1: StoreRuns.run_set;
     rewrite (StoreRuns.run_bind (mret tt) _ _ _ tt eq_refl);
     do 2 StoreRuns.run_set; reflexivity.
  all: unfold id in Eq.
  all: match type of Eq with _ = Some (_, <[_ := Store.ODict ?dF]> ?hF) =>
         exists l1, (<[l1 := Store.ODict dF]> hF), dF end.
  all: pose proof (StoreFacts.preserves_override h deal h _ _ (reflexivity h) Eq) as [Hsub _].
  all: split; [exact Eq |]; split; [exact Hsub |]; split; [apply lookup_insert_eq |];
       split; [| exact F1].
  all: unfold _apply_multibuy_overrides; rewrite E.
  all: unfold price_of, Store.view_deal; cbn [Deal.price Deal.deal_id Deal.page Deal.retailer
         Deal.product_name Deal.brand Deal.category Deal.size_quantity Deal.container_type
         Deal.special_notes Deal.format]; rewrite Hp; cbn [option_map default]; unfold id.
  all: StoreRuns.fields.
  all: erewrite StoreRuns.dict_field_insert;
         [| rewrite lookup_insert_ne by (intros X; apply N; symmetry; exact X);
            apply lookup_insert_eq].
  all: cbn [option_map]; unfold Store.view_price; StoreRuns.fields.
  all: rewrite (StoreRuns.dict_field_mono _ _ _ _ _ Hsub Hm), Hm.
  all: cbn [Price.unit Price.is_multibuy Price.multibuy_details Price.original_price
            Price.savings_amount Price.savings_percent]; rewrite ?Ec.
  all: reflexivity.
Qed.

Lemma override_on_store_witness :
  exists r h' d',
    Store._apply_multibuy_overrides 2%nat loaded = Some (r, h')
    /\ loaded ⊆ h'
    /\ h' !! r = Some (Store.ODict d')
    /\ Price.amount (price_of (Store.view_deal h' d')) = VFloat 2.5
    /\ Store.fresh_for loaded r.
Proof.
  destruct (loaded !! 2%nat) as [[d | x] |] eqn:E; [| vm_compute in E; discriminate E ..].
  destruct (override_on_store 2%nat loaded d E) as (r & h' & d' & H1 & H2 & H3 & H4 & H5).
  assert (Ed : d = list_to_map
    [ ("deal_id", Store.HVal (VInt 16));
      ("retailer", Store.HVal (VStr "HEB"));
      ("product_name", Store.HVal (VStr "Sparkling Water"));
      ("category", Store.HVal (VStr "Beverages"));
      ("price", Store.HRef 1%nat) ]).
  { vm_compute in E. injection E as <-. vm_compute. reflexivity. }
  subst d.
  assert (Ex : _extract_multibuy_details (Store.view_deal loaded (list_to_map
    [ ("deal_id", Store.HVal (VInt 16));
      ("retailer", Store.HVal (VStr "HEB"));
      ("product_name", Store.HVal (VStr "Sparkling Water"));
      ("category", Store.HVal (VStr "Beverages"));
      ("price", Store.HRef 1%nat) ]))
    = (Some 2.5%Q, Some 2, Some (inject_Z 5), Some "2 for $5")).
  { vm_compute. reflexivity. }
  exists r, h', d'. rewrite Ex in H5.
  repeat split; try assumption.
  rewrite H4. unfold _apply_multibuy_overrides. rewrite Ex. reflexivity.
Defined.
